(** * Fleet simulation engine and geofence geometry

    A shallow embedding of [src/hooks/useTruckSimulation.ts] (the per-tick
    truck state machine and the two commands [assignTrip] and
    [acknowledgeAlert]), of the geofence helpers and of what the
    dashboards compute from the fleet.

    Numbers.  A JavaScript [number] is an IEEE double.  The engine is
    embedded over the rationals [Q] and the geometry of the zones over
    the reals [R]: every arithmetic operation is the exact one, without
    rounding, and NaN and the infinities are not values.  Comparisons
    between numbers are stated with [==], [<=] and [<] of [Q].  The
    distance [haversineDistanceMeters] is embedded twice: over the reals
    ([Geofence]), and over the doubles the code computes with
    ([GeofenceDouble]), where rounding can take the quantity under the
    second square root below 0 and the result is then NaN.

    Host environment.  [Math.random()] is a sequence [random : nat -> Q]
    read through a cursor, so that the order of the draws is the order of
    the calls in the source; [Date.now()] / [new Date()] is the argument
    [now] of a tick; the rendering of a number inside a template literal,
    [toFixed(1)] and [Math.atan2] are parameters of the engine. *)

From Stdlib Require Import QArith Qround Qminmax ZArith List String Bool Lia Lra Lqa.
From Stdlib Require Import RelationClasses Reals.
From Stdlib Require Import Qabs Qreals.
From Stdlib Require Floats.
Import ListNotations.

Local Open Scope Q_scope.

(** ** JavaScript numeric helpers *)

Definition Qltb (x y : Q) : bool :=
  match x ?= y with Lt => true | _ => false end.

Definition Qgtb (x y : Q) : bool := Qltb y x.
Definition Qleb (x y : Q) : bool := Qle_bool x y.
Definition Qgeb (x y : Q) : bool := Qle_bool y x.

(** [Math.floor], [Math.round] (half-way cases go up), [Math.min] with
    three arguments. *)
Definition js_floor (x : Q) : Q := inject_Z (Qfloor x).
Definition js_round (x : Q) : Q := inject_Z (Qfloor (x + 0.5)).
Definition Qmin3 (x y z : Q) : Q := Qmin (Qmin x y) z.

(** [x % y] of JavaScript: the remainder has the sign of the dividend. *)
Definition Qtrunc (x : Q) : Z := Z.quot (Qnum x) (Zpos (Qden x)).
Definition js_rem (x y : Q) : Q := x - y * inject_Z (Qtrunc (x / y)).

(** [l.slice(-n)] and [l.slice(0, n)] for [n >= 0]. *)
Definition slice_last {A} (n : nat) (l : list A) : list A :=
  skipn (List.length l - n) l.
Definition slice_first {A} (n : nat) (l : list A) : list A := firstn n l.

(** [x || 0] and [l || []] on an optional field. *)
Definition orZero (x : option Q) : Q :=
  match x with Some v => v | None => 0 end.
Definition orNil {A} (l : option (list A)) : list A :=
  match l with Some v => v | None => [] end.

(** ** Data model *)

(** Modelled from the spec: the declarations of [Truck], [Alert] and
    [FuelLossHistory] in [@/types/truck] are not among the sources.  The
    records below have the fields the hook reads and writes, optional
    where the hook guards the read with [||], [?.] or a truthiness test. *)

Inductive Status := idle | assigned | delivering | uplifting | completed.

Inductive AlertType :=
  theft | tampering | offline | tilt_alert | valve | loss | route_deviation.

Inductive Severity := low | medium | high | critical.

Record Point := { lat : Q; lng : Q }.

Record Destination := { dest_lat : Q; dest_lng : Q; dest_name : string }.

Record LogEntry := { log_id : string; log_ts : Z; log_msg : string }.

Record Compartment := {
  comp_id : string;
  capacity : Q;
  currentLevel : Q;
  fuelType : string;
  isOffloading : bool;
  targetDelivery : option Q;
  deliveredLiters : option Q;
  deliveryLog : option (list LogEntry)
}.

Record Telemetry := {
  speed : Q;
  fuelFlow : Q;
  tilt : Q;
  valveStatus : bool;
  online : bool;
  lastUpdate : Z;
  heading : Q
}.

Record TrailPoint := { trail_lat : Q; trail_lng : Q; trail_ts : Z }.

Record Assignment := {
  assignedLiters : Q;
  startedAt : Z;
  perCompTargets : list (string * Q);
  provisionalLossLiters : Q
}.

Record TripSummary := {
  sum_assignedLiters : Q;
  sum_deliveredLiters : Q;
  sum_lossLiters : Q;
  sum_lossPercent : Q;
  completedAt : Z
}.

Record Alert := {
  alert_id : string;
  alert_type : AlertType;
  severity : Severity;
  message : string;
  alert_ts : Z;
  truckId : string;
  acknowledged : bool;
  location : Point
}.

Record FuelLossHistory := {
  fl_timestamp : Z;
  fl_truckId : string;
  fl_assignedLiters : Q;
  fl_deliveredLiters : Q;
  fl_lossLiters : Q;
  fl_lossPercent : Q
}.

Record Consumption := { fc_timestamp : Z; fc_truckId : string; liters : Q }.

Record Truck := {
  truck_id : string;
  name : string;
  driver : string;
  status : Status;
  client : string;
  position : Point;
  destination : option Destination;
  startPoint : option Point;
  compartments : list Compartment;
  telemetry : Telemetry;
  logs : option (list LogEntry);
  truck_alerts : list Alert;
  trail : list TrailPoint;
  currentAssignment : option Assignment;
  lastTripSummary : option TripSummary
}.

Definition Status_eqb (a b : Status) : bool :=
  match a, b with
  | idle, idle | assigned, assigned | delivering, delivering
  | uplifting, uplifting | completed, completed => true
  | _, _ => false
  end.

(** *** Field updates: [{ ...x, field: v }] and [x.field = v] *)

Definition set_status (v : Status) (t : Truck) : Truck :=
  {| truck_id := truck_id t; name := name t; driver := driver t; status := v;
     client := client t; position := position t; destination := destination t;
     startPoint := startPoint t; compartments := compartments t;
     telemetry := telemetry t; logs := logs t; truck_alerts := truck_alerts t;
     trail := trail t; currentAssignment := currentAssignment t;
     lastTripSummary := lastTripSummary t |}.

Definition set_position (v : Point) (t : Truck) : Truck :=
  {| truck_id := truck_id t; name := name t; driver := driver t;
     status := status t; client := client t; position := v;
     destination := destination t; startPoint := startPoint t;
     compartments := compartments t; telemetry := telemetry t; logs := logs t;
     truck_alerts := truck_alerts t; trail := trail t;
     currentAssignment := currentAssignment t;
     lastTripSummary := lastTripSummary t |}.

Definition set_destination (v : option Destination) (t : Truck) : Truck :=
  {| truck_id := truck_id t; name := name t; driver := driver t;
     status := status t; client := client t; position := position t;
     destination := v; startPoint := startPoint t;
     compartments := compartments t; telemetry := telemetry t; logs := logs t;
     truck_alerts := truck_alerts t; trail := trail t;
     currentAssignment := currentAssignment t;
     lastTripSummary := lastTripSummary t |}.

Definition set_startPoint (v : option Point) (t : Truck) : Truck :=
  {| truck_id := truck_id t; name := name t; driver := driver t;
     status := status t; client := client t; position := position t;
     destination := destination t; startPoint := v;
     compartments := compartments t; telemetry := telemetry t; logs := logs t;
     truck_alerts := truck_alerts t; trail := trail t;
     currentAssignment := currentAssignment t;
     lastTripSummary := lastTripSummary t |}.

Definition set_compartments (v : list Compartment) (t : Truck) : Truck :=
  {| truck_id := truck_id t; name := name t; driver := driver t;
     status := status t; client := client t; position := position t;
     destination := destination t; startPoint := startPoint t;
     compartments := v; telemetry := telemetry t; logs := logs t;
     truck_alerts := truck_alerts t; trail := trail t;
     currentAssignment := currentAssignment t;
     lastTripSummary := lastTripSummary t |}.

Definition set_telemetry (v : Telemetry) (t : Truck) : Truck :=
  {| truck_id := truck_id t; name := name t; driver := driver t;
     status := status t; client := client t; position := position t;
     destination := destination t; startPoint := startPoint t;
     compartments := compartments t; telemetry := v; logs := logs t;
     truck_alerts := truck_alerts t; trail := trail t;
     currentAssignment := currentAssignment t;
     lastTripSummary := lastTripSummary t |}.

Definition set_logs (v : list LogEntry) (t : Truck) : Truck :=
  {| truck_id := truck_id t; name := name t; driver := driver t;
     status := status t; client := client t; position := position t;
     destination := destination t; startPoint := startPoint t;
     compartments := compartments t; telemetry := telemetry t; logs := Some v;
     truck_alerts := truck_alerts t; trail := trail t;
     currentAssignment := currentAssignment t;
     lastTripSummary := lastTripSummary t |}.

Definition set_trail (v : list TrailPoint) (t : Truck) : Truck :=
  {| truck_id := truck_id t; name := name t; driver := driver t;
     status := status t; client := client t; position := position t;
     destination := destination t; startPoint := startPoint t;
     compartments := compartments t; telemetry := telemetry t; logs := logs t;
     truck_alerts := truck_alerts t; trail := v;
     currentAssignment := currentAssignment t;
     lastTripSummary := lastTripSummary t |}.

Definition set_currentAssignment (v : option Assignment) (t : Truck) : Truck :=
  {| truck_id := truck_id t; name := name t; driver := driver t;
     status := status t; client := client t; position := position t;
     destination := destination t; startPoint := startPoint t;
     compartments := compartments t; telemetry := telemetry t; logs := logs t;
     truck_alerts := truck_alerts t; trail := trail t;
     currentAssignment := v; lastTripSummary := lastTripSummary t |}.

Definition set_lastTripSummary (v : option TripSummary) (t : Truck) : Truck :=
  {| truck_id := truck_id t; name := name t; driver := driver t;
     status := status t; client := client t; position := position t;
     destination := destination t; startPoint := startPoint t;
     compartments := compartments t; telemetry := telemetry t; logs := logs t;
     truck_alerts := truck_alerts t; trail := trail t;
     currentAssignment := currentAssignment t; lastTripSummary := v |}.

Definition set_acknowledged (v : bool) (a : Alert) : Alert :=
  {| alert_id := alert_id a; alert_type := alert_type a;
     severity := severity a; message := message a; alert_ts := alert_ts a;
     truckId := truckId a; acknowledged := v; location := location a |}.

(** ** Commands *)

(** [acknowledgeAlert]: the updater passed to [setAlerts]. *)
Definition acknowledgeAlert (alertId : string) (prev : list Alert)
  : list Alert :=
  map (fun alert =>
         if String.eqb (alert_id alert) alertId
         then set_acknowledged true alert
         else alert) prev.

(** [assignTrip]: the updater passed to [setTrucks]. *)
Definition assignTrip (truckId : string) (dest : Destination)
    (prev : list Truck) : list Truck :=
  map (fun truck =>
         if String.eqb (truck_id truck) truckId
         then set_startPoint (Some (position truck))
                (set_destination (Some dest) (set_status assigned truck))
         else truck) prev.

Definition set_currentLevel (v : Q) (c : Compartment) : Compartment :=
  {| comp_id := comp_id c; capacity := capacity c; currentLevel := v;
     fuelType := fuelType c; isOffloading := isOffloading c;
     targetDelivery := targetDelivery c; deliveredLiters := deliveredLiters c;
     deliveryLog := deliveryLog c |}.

Definition set_isOffloading (v : bool) (c : Compartment) : Compartment :=
  {| comp_id := comp_id c; capacity := capacity c;
     currentLevel := currentLevel c; fuelType := fuelType c;
     isOffloading := v; targetDelivery := targetDelivery c;
     deliveredLiters := deliveredLiters c; deliveryLog := deliveryLog c |}.

Definition set_targetDelivery (v : Q) (c : Compartment) : Compartment :=
  {| comp_id := comp_id c; capacity := capacity c;
     currentLevel := currentLevel c; fuelType := fuelType c;
     isOffloading := isOffloading c; targetDelivery := Some v;
     deliveredLiters := deliveredLiters c; deliveryLog := deliveryLog c |}.

Definition set_deliveredLiters (v : Q) (c : Compartment) : Compartment :=
  {| comp_id := comp_id c; capacity := capacity c;
     currentLevel := currentLevel c; fuelType := fuelType c;
     isOffloading := isOffloading c; targetDelivery := targetDelivery c;
     deliveredLiters := Some v; deliveryLog := deliveryLog c |}.

Definition set_deliveryLog (v : list LogEntry) (c : Compartment)
  : Compartment :=
  {| comp_id := comp_id c; capacity := capacity c;
     currentLevel := currentLevel c; fuelType := fuelType c;
     isOffloading := isOffloading c; targetDelivery := targetDelivery c;
     deliveredLiters := deliveredLiters c; deliveryLog := Some v |}.

Definition set_fuelFlow (v : Q) (m : Telemetry) : Telemetry :=
  {| speed := speed m; fuelFlow := v; tilt := tilt m;
     valveStatus := valveStatus m; online := online m;
     lastUpdate := lastUpdate m; heading := heading m |}.

Definition set_tilt (v : Q) (m : Telemetry) : Telemetry :=
  {| speed := speed m; fuelFlow := fuelFlow m; tilt := v;
     valveStatus := valveStatus m; online := online m;
     lastUpdate := lastUpdate m; heading := heading m |}.

Definition set_valveStatus (v : bool) (m : Telemetry) : Telemetry :=
  {| speed := speed m; fuelFlow := fuelFlow m; tilt := tilt m;
     valveStatus := v; online := online m;
     lastUpdate := lastUpdate m; heading := heading m |}.

Definition set_online (v : bool) (m : Telemetry) : Telemetry :=
  {| speed := speed m; fuelFlow := fuelFlow m; tilt := tilt m;
     valveStatus := valveStatus m; online := v;
     lastUpdate := lastUpdate m; heading := heading m |}.

Definition add_provisionalLoss (v : Q) (a : Assignment) : Assignment :=
  {| assignedLiters := assignedLiters a; startedAt := startedAt a;
     perCompTargets := perCompTargets a;
     provisionalLossLiters := provisionalLossLiters a + v |}.

(** [obj[key] = v] on a [Record<string, number>] whose keys are not array
    indices: an existing key keeps its place, a new key goes last. *)
Fixpoint record_set (key : string) (v : Q) (o : list (string * Q))
  : list (string * Q) :=
  match o with
  | [] => [(key, v)]
  | (k, w) :: rest =>
      if String.eqb k key then (k, v) :: rest
      else (k, w) :: record_set key v rest
  end.

(** ** The host environment *)

(** [random k] is the value of the [k]-th call of [Math.random()], which
    the language keeps in [[0, 1)]; [show x] is the text of [x] inside a
    template literal, [toFixed1 x] is [x.toFixed(1)], and [atan2_deg y x]
    is [Math.atan2(y, x) * 180 / Math.PI]. *)
Class Host := {
  random : nat -> Q;
  random_range : forall k, 0 <= random k /\ random k < 1;
  show : Q -> string;
  toFixed1 : Q -> string;
  atan2_deg : Q -> Q -> Q
}.

(** ** A state monad for the effects of a tick *)

Definition State (S A : Type) : Type := S -> A * S.

Definition ret {S A} (a : A) : State S A := fun s => (a, s).

Definition bind {S A B} (m : State S A) (k : A -> State S B) : State S B :=
  fun s => let (a, s') := m s in k a s'.

Declare Scope sim_scope.
Delimit Scope sim_scope with sim.
Notation "x <- m ;; k" := (bind m (fun x => k))
  (at level 61, m at next level, right associativity) : sim_scope.
Notation "m ;; k" := (bind m (fun _ => k))
  (at level 61, right associativity) : sim_scope.
Local Open Scope sim_scope.

Definition gets {S A} (f : S -> A) : State S A := fun s => (f s, s).
Definition modify {S} (f : S -> S) : State S unit := fun s => (tt, f s).

(** [l.map(f)] for a callback [f] with effects, left to right. *)
Fixpoint mapM {S A B} (f : A -> State S B) (l : list A) : State S (list B) :=
  match l with
  | [] => ret []
  | x :: xs => y <- f x ;; ys <- mapM f xs ;; ret (y :: ys)
  end.

(** What a tick shares between the trucks it maps over: the position in
    the sequence of random draws and the three streams updated through
    [setAlerts], [setFuelLossHistory] and [setFuelConsumptionData].  The
    updaters queued during a tick are applied in the order they were
    queued, which is the order of the calls. *)
Record Effects := {
  cursor : nat;
  fx_alerts : list Alert;
  fx_history : list FuelLossHistory;
  fx_consumption : list Consumption
}.

(** The mutable variables of one run of the [map] callback over a truck:
    [newTruck] and the [let]-bound locals captured by the inner
    callbacks. *)
Record Frame := {
  fx : Effects;
  newTruck : Truck;
  remainingToAssign : Q;
  perComp : list (string * Q);
  anyRefilled : bool;
  totalDrained : Q
}.

Definition set_fx (v : Effects) (f : Frame) : Frame :=
  {| fx := v; newTruck := newTruck f;
     remainingToAssign := remainingToAssign f; perComp := perComp f;
     anyRefilled := anyRefilled f; totalDrained := totalDrained f |}.

Definition set_newTruck (v : Truck) (f : Frame) : Frame :=
  {| fx := fx f; newTruck := v;
     remainingToAssign := remainingToAssign f; perComp := perComp f;
     anyRefilled := anyRefilled f; totalDrained := totalDrained f |}.

Definition set_remainingToAssign (v : Q) (f : Frame) : Frame :=
  {| fx := fx f; newTruck := newTruck f;
     remainingToAssign := v; perComp := perComp f;
     anyRefilled := anyRefilled f; totalDrained := totalDrained f |}.

Definition set_perComp (v : list (string * Q)) (f : Frame) : Frame :=
  {| fx := fx f; newTruck := newTruck f;
     remainingToAssign := remainingToAssign f; perComp := v;
     anyRefilled := anyRefilled f; totalDrained := totalDrained f |}.

Definition set_anyRefilled (v : bool) (f : Frame) : Frame :=
  {| fx := fx f; newTruck := newTruck f;
     remainingToAssign := remainingToAssign f; perComp := perComp f;
     anyRefilled := v; totalDrained := totalDrained f |}.

Definition set_totalDrained (v : Q) (f : Frame) : Frame :=
  {| fx := fx f; newTruck := newTruck f;
     remainingToAssign := remainingToAssign f; perComp := perComp f;
     anyRefilled := anyRefilled f; totalDrained := v |}.

Definition pushAlertFx (a : Alert) (e : Effects) : Effects :=
  {| cursor := cursor e; fx_alerts := a :: slice_first 49 (fx_alerts e);
     fx_history := fx_history e; fx_consumption := fx_consumption e |}.

Definition pushHistoryFx (h : FuelLossHistory) (e : Effects) : Effects :=
  {| cursor := cursor e; fx_alerts := fx_alerts e;
     fx_history := slice_last 499 (fx_history e) ++ [h];
     fx_consumption := fx_consumption e |}.

Definition pushConsumptionFx (c : Consumption) (e : Effects) : Effects :=
  {| cursor := cursor e; fx_alerts := fx_alerts e;
     fx_history := fx_history e;
     fx_consumption := slice_last 1000 (fx_consumption e) ++ [c] |}.

Definition nextDrawFx (e : Effects) : Effects :=
  {| cursor := S (cursor e); fx_alerts := fx_alerts e;
     fx_history := fx_history e; fx_consumption := fx_consumption e |}.

(** ** The tick of one truck *)

Section Engine.

Context {host : Host}.

Local Open Scope string_scope.

(** [Math.random()] *)
Definition mathRandom : State Frame Q :=
  fun f => (random (cursor (fx f)), set_fx (nextDrawFx (fx f)) f).

Definition setAlerts (a : Alert) : State Frame unit :=
  modify (fun f => set_fx (pushAlertFx a (fx f)) f).

Definition setFuelLossHistory (h : FuelLossHistory) : State Frame unit :=
  modify (fun f => set_fx (pushHistoryFx h (fx f)) f).

Definition setFuelConsumptionData (c : Consumption) : State Frame unit :=
  modify (fun f => set_fx (pushConsumptionFx c (fx f)) f).

Definition updTruck (g : Truck -> Truck) : State Frame unit :=
  modify (fun f => set_newTruck (g (newTruck f)) f).

(** [newTruck.logs = [...(base || []).slice(-40), entry]] *)
Definition appendLog (base : option (list LogEntry)) (e : LogEntry)
  : State Frame unit :=
  updTruck (set_logs (slice_last 40 (orNil base) ++ [e])%list).

Definition when (b : bool) (m : State Frame unit) : State Frame unit :=
  if b then m else ret tt.

Definition showOpt (x : option Q) : string :=
  match x with Some v => show v | None => "undefined" end.

Definition mkLog (suffix : string) (now : Z) (msg : string) : LogEntry :=
  {| log_id := "log-" ++ show (inject_Z now) ++ suffix;
     log_ts := now; log_msg := msg |}.

Definition mkAlert (suffix : string) (now : Z) (ty : AlertType)
    (sev : Severity) (msg : string) (truck : Truck) (loc : Point) : Alert :=
  {| alert_id := "alert-" ++ show (inject_Z now) ++ suffix;
     alert_type := ty; severity := sev; message := msg; alert_ts := now;
     truckId := truck_id truck; acknowledged := false; location := loc |}.

(** [Math.sqrt(dLat^2 + dLng^2) < 0.005], compared on the squares: the
    square root is monotone on the non-negative numbers. *)
Definition reachedDestination (p : Point) (d : Destination) : bool :=
  Qltb ((lat p - dest_lat d) * (lat p - dest_lat d)
        + (lng p - dest_lng d) * (lng p - dest_lng d))
       (0.005 * 0.005).

Definition sumDelivered (cs : list Compartment) : Q :=
  fold_left (fun sum comp => sum + orZero (deliveredLiters comp)) cs 0.

(** The body of [if (distance < 0.005)]. *)
Definition completeTrip (now : Z) (truck : Truck) : State Frame unit :=
  updTruck (set_status completed) ;;
  nt <- gets newTruck ;;
  match currentAssignment nt with
  | Some a =>
      let assigned_l := assignedLiters a in
      let delivered_l := sumDelivered (compartments nt) in
      let loss_l := provisionalLossLiters a in
      let lossPercent :=
        if Qgtb assigned_l 0 then (loss_l / assigned_l) * 100 else 0 in
      updTruck (set_lastTripSummary (Some
        {| sum_assignedLiters := assigned_l;
           sum_deliveredLiters := delivered_l;
           sum_lossLiters := loss_l; sum_lossPercent := lossPercent;
           completedAt := now |})) ;;
      setFuelLossHistory
        {| fl_timestamp := now; fl_truckId := truck_id truck;
           fl_assignedLiters := assigned_l;
           fl_deliveredLiters := delivered_l;
           fl_lossLiters := loss_l; fl_lossPercent := lossPercent |} ;;
      when (Qgtb lossPercent 2.5)
        (setAlerts (mkAlert "-loss" now loss
           (if Qgtb lossPercent 5 then high else medium)
           ("Fuel loss detected: " ++ toFixed1 loss_l ++ "L ("
              ++ toFixed1 lossPercent ++ "%) on " ++ name truck)
           truck (position nt))) ;;
      appendLog (logs truck)
        (mkLog "" now
           ("Trip result: Assigned " ++ show assigned_l ++ "L, Delivered "
              ++ toFixed1 delivered_l ++ "L, Loss " ++ toFixed1 loss_l
              ++ "L (" ++ toFixed1 lossPercent ++ "%)"))
  | None =>
      let completedComps :=
        List.length (filter isOffloading (compartments nt)) in
      appendLog (logs nt)
        (mkLog "" now
           ("Delivery completed ("
              ++ show (inject_Z (Z.of_nat completedComps))
              ++ " compartments)"))
  end.

(** [truck.status === 'delivering' && truck.destination] *)
Definition moveToDestination (now : Z) (truck : Truck) (dest : Destination)
  : State Frame unit :=
  let deltaLat := (dest_lat dest - lat (position truck)) * 0.01 in
  let deltaLng := (dest_lng dest - lng (position truck)) * 0.01 in
  r1 <- mathRandom ;;
  r2 <- mathRandom ;;
  let newPos :=
    {| lat := lat (position truck) + deltaLat + (r1 - 0.5) * 0.001;
       lng := lng (position truck) + deltaLng + (r2 - 0.5) * 0.001 |} in
  updTruck (set_position newPos) ;;
  when (reachedDestination newPos dest) (completeTrip now truck).

(** The callback of the [map] in the [assigned] branch. *)
Definition allocateTarget (comp : Compartment) : State Frame Compartment :=
  remaining <- gets remainingToAssign ;;
  if Qgtb remaining 0 && Qgtb (currentLevel comp) (capacity comp * 0.1)
  then
    let maxFromThisComp :=
      Qmin remaining (currentLevel comp - capacity comp * 0.05) in
    r <- mathRandom ;;
    let assignedAmount := Qmin maxFromThisComp (js_floor (r * 1500) + 500) in
    modify (set_remainingToAssign (remaining - assignedAmount)) ;;
    modify (fun f =>
              set_perComp (record_set (comp_id comp) assignedAmount
                             (perComp f)) f) ;;
    ret (set_deliveryLog []
           (set_isOffloading (Qgtb assignedAmount 0)
              (set_deliveredLiters 0
                 (set_targetDelivery assignedAmount comp))))
  else
    modify (fun f => set_perComp (record_set (comp_id comp) 0 (perComp f)) f) ;;
    ret (set_isOffloading false
           (set_deliveredLiters 0 (set_targetDelivery 0 comp))).

Definition destName (d : option Destination) : string :=
  match d with Some x => dest_name x | None => "undefined" end.

(** [truck.status === 'assigned'] *)
Definition startDelivery (now : Z) (truck : Truck) : State Frame unit :=
  updTruck (set_status delivering) ;;
  r <- mathRandom ;;
  let totalAssigned := js_floor (r * 2500) + 2500 in
  modify (set_remainingToAssign totalAssigned) ;;
  modify (set_perComp []) ;;
  comps <- mapM allocateTarget (compartments truck) ;;
  updTruck (set_compartments comps) ;;
  targets <- gets perComp ;;
  updTruck (set_currentAssignment (Some
    {| assignedLiters := totalAssigned; startedAt := now;
       perCompTargets := targets; provisionalLossLiters := 0 |})) ;;
  nt <- gets newTruck ;;
  let assignedComps := filter isOffloading (compartments nt) in
  let assignmentSummary :=
    String.concat ", "
      (map (fun c => comp_id c ++ " " ++ showOpt (targetDelivery c) ++ "L")
           assignedComps) in
  appendLog (logs truck)
    (mkLog "" now
       ("Assigned: " ++ assignmentSummary ++ " → "
          ++ destName (destination truck))).

(** The callback of the [map] in the [uplifting] branch. *)
Definition refill (now : Z) (comp : Compartment) : State Frame Compartment :=
  if Qltb (currentLevel comp) (capacity comp * 0.98) then
    r <- mathRandom ;;
    let fillAmount := js_floor (r * 40) + 40 in
    let newLevel := Qmin (capacity comp) (currentLevel comp + fillAmount) in
    let actualFilled := newLevel - currentLevel comp in
    when (Qgtb actualFilled 0)
      (modify (set_anyRefilled true) ;;
       when (Qgtb (js_floor (newLevel / 100))
                  (js_floor (currentLevel comp / 100)))
         (nt <- gets newTruck ;;
          appendLog (logs nt)
            (mkLog ("-" ++ comp_id comp) now
               (comp_id comp ++ " refilled to " ++ show (js_round newLevel)
                  ++ "L")))) ;;
    ret (set_deliveredLiters 0 (set_currentLevel newLevel comp))
  else ret (set_deliveredLiters 0 comp).

(** [truck.status === 'uplifting'] *)
Definition uplift (now : Z) (truck : Truck) : State Frame unit :=
  modify (set_anyRefilled false) ;;
  comps <- mapM (refill now) (compartments truck) ;;
  updTruck (set_compartments comps) ;;
  nt <- gets newTruck ;;
  let allFull :=
    forallb (fun comp => Qgeb (currentLevel comp) (capacity comp * 0.95))
            (compartments nt) in
  when allFull
    (updTruck (set_status idle) ;;
     updTruck (set_destination None) ;;
     updTruck (set_startPoint None) ;;
     nt' <- gets newTruck ;;
     appendLog (logs nt')
       (mkLog "" now "Uplift completed; ready for assignment")).

(** [truck.status === 'completed'] *)
Definition moveToUplifting (truck : Truck) : State Frame unit :=
  updTruck (set_status uplifting) ;;
  updTruck (set_compartments
    (map (fun comp => set_targetDelivery 0 (set_isOffloading false comp))
         (compartments truck))).

(** The final [else]: position drift. *)
Definition drift (truck : Truck) : State Frame unit :=
  r1 <- mathRandom ;;
  r2 <- mathRandom ;;
  updTruck (set_position
    {| lat := lat (position truck) + (r1 - 0.5) * 0.0001;
       lng := lng (position truck) + (r2 - 0.5) * 0.0001 |}).

(** The [if / else if] chain on [truck.status]. *)
Definition stepStatus (now : Z) (truck : Truck) : State Frame unit :=
  match status truck, destination truck with
  | delivering, Some dest => moveToDestination now truck dest
  | assigned, _ => startDelivery now truck
  | uplifting, _ => uplift now truck
  | completed, _ => moveToUplifting truck
  | _, _ => drift truck
  end.

(** Heading from the last two trail points. *)
Definition headingFromTrail (truck : Truck) : Q :=
  match rev (trail truck) with
  | recent :: previous :: _ =>
      let deltaLat := trail_lat recent - trail_lat previous in
      let deltaLng := trail_lng recent - trail_lng previous in
      if negb (Qeq_bool deltaLat 0) || negb (Qeq_bool deltaLng 0)
      then js_rem (atan2_deg deltaLng deltaLat + 360) 360
      else heading (telemetry truck)
  | _ => heading (telemetry truck)
  end.

(** [newTruck.telemetry = { ... }] *)
Definition refreshTelemetry (now : Z) (truck : Truck) : State Frame unit :=
  let isDelivering := Status_eqb (status truck) delivering in
  r_speed <- mathRandom ;;
  flow <- (if isDelivering
           then r <- mathRandom ;; ret (r * 50 + 10)
           else ret 0) ;;
  r_tilt <- mathRandom ;;
  r_online <- mathRandom ;;
  updTruck (set_telemetry
    {| speed := Qmax 0 (speed (telemetry truck) + (r_speed - 0.5) * 10);
       fuelFlow := flow;
       tilt := Qmax 0 (tilt (telemetry truck) + (r_tilt - 0.5) * 2);
       valveStatus := isDelivering;
       online := Qgtb r_online 0.05;
       lastUpdate := now;
       heading := headingFromTrail truck |}).

(** The shrinkage draw made when a compartment finishes offloading;
    returns [compLossLiters].  The source adds the loss to the assignment
    object that [truck] and [newTruck] share ([newTruck] is a shallow
    copy); the callback reads the assignment through [newTruck] only, and
    the previous fleet state is dropped after the tick, so the update is
    made on [newTruck]. *)
Definition simulateLoss (now : Z) (truck : Truck) (comp : Compartment)
  : State Frame Q :=
  r <- mathRandom ;;
  if Qltb r 0.3 then
    r' <- mathRandom ;;
    let lossPercent := r' * 2 + 0.5 in
    let compLossLiters :=
      js_round (orZero (targetDelivery comp) * lossPercent / 100) in
    updTruck (fun t =>
      match currentAssignment t with
      | Some a =>
          set_currentAssignment
            (Some (add_provisionalLoss compLossLiters a)) t
      | None => t
      end) ;;
    nt <- gets newTruck ;;
    when (Qgtb compLossLiters 10 || Qgtb lossPercent 1)
      (setAlerts (mkAlert "-comp-loss" now loss
         (if Qgtb lossPercent 2 then medium else low)
         ("Compartment " ++ comp_id comp ++ " loss: "
            ++ show compLossLiters ++ "L (" ++ toFixed1 lossPercent
            ++ "%) on " ++ name truck)
         truck (position nt))) ;;
    ret compLossLiters
  else ret 0.

(** The callback of the [map] that drains the compartments of a
    delivering truck. *)
Definition drain (now : Z) (truck : Truck) (comp : Compartment)
  : State Frame Compartment :=
  if isOffloading comp && Qgtb (currentLevel comp) 0
     && Qltb (orZero (deliveredLiters comp)) (orZero (targetDelivery comp))
  then
    r <- mathRandom ;;
    let drainRate := js_floor (r * 40) + 20 in
    let remaining :=
      orZero (targetDelivery comp) - orZero (deliveredLiters comp) in
    let reserve := capacity comp * 0.05 in
    let maxDrain := Qmin3 drainRate remaining (currentLevel comp - reserve) in
    if Qgtb maxDrain 0 then
      let newLevel := currentLevel comp - maxDrain in
      let newDelivered := orZero (deliveredLiters comp) + maxDrain in
      modify (fun f => set_totalDrained (totalDrained f + maxDrain) f) ;;
      if Qgeb newDelivered (orZero (targetDelivery comp))
         || Qleb newLevel reserve
      then
        compLossLiters <- simulateLoss now truck comp ;;
        let msg :=
          if Qgtb compLossLiters 0
          then comp_id comp ++ " delivered " ++ show (js_round newDelivered)
                 ++ "L (Loss: " ++ show compLossLiters ++ "L)"
          else comp_id comp ++ " delivered " ++ show (js_round newDelivered)
                 ++ "L" in
        let deliveryLog' :=
          (slice_last 10 (orNil (deliveryLog comp))
             ++ [ {| log_id := "del-" ++ show (inject_Z now) ++ "-"
                                 ++ comp_id comp;
                     log_ts := now; log_msg := msg |} ])%list in
        nt <- gets newTruck ;;
        appendLog (logs nt) (mkLog ("-" ++ comp_id comp) now msg) ;;
        ret (set_deliveryLog deliveryLog'
               (set_isOffloading false
                  (set_deliveredLiters newDelivered
                     (set_currentLevel newLevel comp))))
      else
        ret (set_deliveredLiters newDelivered
               (set_currentLevel newLevel comp))
    else ret comp
  else ret comp.

(** The theft incident.  [Math.floor(Math.random() * n)] is an index below
    [n] because the draw is below 1, so the victim always exists. *)
Definition theftEvent (now : Z) (truck : Truck) : State Frame unit :=
  nt <- gets newTruck ;;
  let activeComps := filter isOffloading (compartments nt) in
  if (0 <? List.length activeComps)%nat then
    r1 <- mathRandom ;;
    match nth_error activeComps
            (Z.to_nat (Qfloor
               (r1 * inject_Z (Z.of_nat (List.length activeComps))))) with
    | Some victimComp =>
        r2 <- mathRandom ;;
        let stolenAmount := js_floor (r2 * 100) + 50 in
        updTruck (set_compartments
          (map (fun comp =>
                  if String.eqb (comp_id comp) (comp_id victimComp)
                  then set_currentLevel
                         (Qmax 0 (currentLevel comp - stolenAmount)) comp
                  else comp)
               (compartments nt))) ;;
        let msg := "Sudden drop " ++ comp_id victimComp ++ " −"
                     ++ show stolenAmount ++ "L (possible theft)" in
        setAlerts (mkAlert "-theft" now theft high msg truck (position nt)) ;;
        nt' <- gets newTruck ;;
        appendLog (logs nt') (mkLog "-theft" now msg)
    | None => ret tt
    end
  else ret tt.

Definition valveEvent (now : Z) (truck : Truck) : State Frame unit :=
  updTruck (fun t => set_telemetry (set_valveStatus false (telemetry t)) t) ;;
  nt <- gets newTruck ;;
  setAlerts (mkAlert "-valve" now valve medium
               ("Valve fault detected on " ++ name truck)
               truck (position nt)) ;;
  appendLog (logs nt) (mkLog "-valve" now "Valve tampering detected").

Definition tiltEvent (now : Z) (truck : Truck) : State Frame unit :=
  r <- mathRandom ;;
  updTruck (fun t => set_telemetry (set_tilt (r * 5 + 10) (telemetry t)) t) ;;
  nt <- gets newTruck ;;
  setAlerts (mkAlert "-tilt" now tilt_alert medium
               ("Excessive tilt detected on " ++ name truck)
               truck (position nt)) ;;
  appendLog (logs nt)
    (mkLog "-tilt" now
       ("Excessive tilt: " ++ toFixed1 (tilt (telemetry nt)) ++ "°")).

(** [if (truck.status === 'delivering') { ... }] after the telemetry *)
Definition deliverFuel (now : Z) (truck : Truck) : State Frame unit :=
  modify (set_totalDrained 0) ;;
  comps <- mapM (drain now truck) (compartments truck) ;;
  updTruck (set_compartments comps) ;;
  r_theft <- mathRandom ;;
  when (Qltb r_theft 0.005) (theftEvent now truck) ;;
  r_valve <- mathRandom ;;
  when (Qltb r_valve 0.003) (valveEvent now truck) ;;
  r_tilt <- mathRandom ;;
  when (Qltb r_tilt 0.002) (tiltEvent now truck) ;;
  drained <- gets totalDrained ;;
  updTruck (fun t => set_telemetry (set_fuelFlow drained (telemetry t)) t).

(** [truck.status === 'uplifting' && Math.random() < 0.001]: the draw is
    made only for an uplifting truck. *)
Definition offlineEvent (now : Z) (truck : Truck) : State Frame unit :=
  if Status_eqb (status truck) uplifting then
    r <- mathRandom ;;
    when (Qltb r 0.001)
      (updTruck (fun t => set_telemetry (set_online false (telemetry t)) t) ;;
       nt <- gets newTruck ;;
       setAlerts (mkAlert "-offline" now offline high
                    ("Telematics offline during fueling: " ++ name truck)
                    truck (position nt)) ;;
       appendLog (logs nt)
         (mkLog "-offline" now "Telematics offline during fueling"))
  else ret tt.

(** [newTruck.trail = [...truck.trail.slice(-20), { ...position, timestamp }]] *)
Definition addToTrail (now : Z) (truck : Truck) : State Frame unit :=
  nt <- gets newTruck ;;
  updTruck (set_trail
    (slice_last 20 (trail truck)
       ++ [ {| trail_lat := lat (position nt);
               trail_lng := lng (position nt); trail_ts := now |} ])%list).

Definition alertTypes : list AlertType := [theft; tampering; tilt_alert; valve].

Definition getAlertMessage (ty : AlertType) (truckName : string) : string :=
  match ty with
  | theft => "Possible fuel theft detected on " ++ truckName
  | tampering => "Valve tampering detected on " ++ truckName
  | tilt_alert => "Unusual tilt angle detected on " ++ truckName
  | valve => "Unauthorized valve operation on " ++ truckName
  | loss => "Fuel loss detected on " ++ truckName
  | _ => "Alert from " ++ truckName
  end.

(** The ambient alert. *)
Definition randomAlert (now : Z) (truck : Truck) : State Frame unit :=
  r <- mathRandom ;;
  if Qltb r 0.01 then
    r_type <- mathRandom ;;
    match nth_error alertTypes (Z.to_nat (Qfloor (r_type * 4))) with
    | Some alertType =>
        r_id <- mathRandom ;;
        r_sev <- mathRandom ;;
        sev <- (if Qgtb r_sev 0.7 then ret high
                else r_sev' <- mathRandom ;;
                     ret (if Qgtb r_sev' 0.4 then medium else low)) ;;
        nt <- gets newTruck ;;
        setAlerts (mkAlert ("-" ++ show r_id) now alertType sev
                     (getAlertMessage alertType (name truck))
                     truck (position nt))
    | None => ret tt
    end
  else ret tt.

Definition trackConsumption (now : Z) (truck : Truck) : State Frame unit :=
  nt <- gets newTruck ;;
  when (Status_eqb (status truck) delivering
        && Qgtb (fuelFlow (telemetry nt)) 0)
    (setFuelConsumptionData
       {| fc_timestamp := now; fc_truckId := truck_id truck;
          liters := fuelFlow (telemetry nt) |}).

(** The whole callback of [prevTrucks.map]. *)
Definition truckBody (now : Z) (truck : Truck) : State Frame unit :=
  stepStatus now truck ;;
  refreshTelemetry now truck ;;
  when (Status_eqb (status truck) delivering) (deliverFuel now truck) ;;
  offlineEvent now truck ;;
  addToTrail now truck ;;
  randomAlert now truck ;;
  trackConsumption now truck.

(** [const newTruck = { ...truck };] with the locals not yet bound. *)
Definition initFrame (e : Effects) (truck : Truck) : Frame :=
  {| fx := e; newTruck := truck; remainingToAssign := 0; perComp := [];
     anyRefilled := false; totalDrained := 0 |}.

(** [prevTrucks.map(truck => { ...; return newTruck; })], one truck. *)
Definition tickTruck (now : Z) (truck : Truck) : State Effects Truck :=
  fun e =>
    let f := snd (truckBody now truck (initFrame e truck)) in
    (newTruck f, fx f).

(** ** The fleet *)

Record World := {
  trucks : list Truck;
  alerts : list Alert;
  totalSavings : Q;
  fuelConsumptionData : list Consumption;
  fuelLossHistory : list FuelLossHistory;
  draws : nat
}.

Definition effectsOf (w : World) : Effects :=
  {| cursor := draws w; fx_alerts := alerts w;
     fx_history := fuelLossHistory w;
     fx_consumption := fuelConsumptionData w |}.

(** One firing of the interval: [setTrucks(prev => prev.map(...))], then
    [setTotalSavings]. *)
Definition tick (now : Z) (w : World) : World :=
  let r := mapM (tickTruck now) (trucks w) (effectsOf w) in
  let e := snd r in
  {| trucks := fst r;
     alerts := fx_alerts e;
     totalSavings := totalSavings w + js_floor (random (cursor e) * 100);
     fuelConsumptionData := fx_consumption e;
     fuelLossHistory := fx_history e;
     draws := S (cursor e) |}.

Inductive Event :=
| Tick (now : Z)
| AssignTrip (truckId : string) (dest : Destination)
| AcknowledgeAlert (alertId : string).

Definition step (w : World) (ev : Event) : World :=
  match ev with
  | Tick now => tick now w
  | AssignTrip truckId dest =>
      {| trucks := assignTrip truckId dest (trucks w); alerts := alerts w;
         totalSavings := totalSavings w;
         fuelConsumptionData := fuelConsumptionData w;
         fuelLossHistory := fuelLossHistory w; draws := draws w |}
  | AcknowledgeAlert alertId =>
      {| trucks := trucks w; alerts := acknowledgeAlert alertId (alerts w);
         totalSavings := totalSavings w;
         fuelConsumptionData := fuelConsumptionData w;
         fuelLossHistory := fuelLossHistory w; draws := draws w |}
  end.

Definition run (w : World) (evs : list Event) : World := fold_left step evs w.

(** ** Predicates and relations of the statements *)

(** [0 <= currentLevel <= capacity] *)
Definition levelWithinCapacity (c : Compartment) : Prop :=
  0 <= currentLevel c /\ currentLevel c <= capacity c.

(** A compartment has a delivery target when [targetDelivery] is a
    positive number: the hook reads the field as [targetDelivery || 0],
    so an absent target and a target of 0 are the same to it. *)
Definition deliveredWithinTarget (c : Compartment) : Prop :=
  0 < orZero (targetDelivery c) ->
  orZero (deliveredLiters c) <= orZero (targetDelivery c).

Definition sumTargets (cs : list Compartment) : Q :=
  fold_right (fun c acc => orZero (targetDelivery c) + acc) 0 cs.

(** A computation respects a relation on states when the relation holds
    between the state it starts in and the state it ends in. *)
Definition respects {S A} (Rel : S -> S -> Prop) (m : State S A) : Prop :=
  forall s, Rel s (snd (m s)).

(** What every part of the callback after the status branch leaves alone. *)
Definition keepsShape (f f' : Frame) : Prop :=
  status (newTruck f') = status (newTruck f)
  /\ position (newTruck f') = position (newTruck f)
  /\ destination (newTruck f') = destination (newTruck f)
  /\ startPoint (newTruck f') = startPoint (newTruck f)
  /\ fx_history (fx f') = fx_history (fx f).

Definition keepsCargo (f f' : Frame) : Prop :=
  compartments (newTruck f') = compartments (newTruck f)
  /\ currentAssignment (newTruck f') = currentAssignment (newTruck f).

Definition keepsTrail (f f' : Frame) : Prop :=
  trail (newTruck f') = trail (newTruck f).

(** The caps of the alert and fuel-loss streams. *)
Definition keepsCaps (f f' : Frame) : Prop :=
  ((List.length (fx_alerts (fx f)) <= 50)%nat ->
   (List.length (fx_alerts (fx f')) <= 50)%nat)
  /\ ((List.length (fx_history (fx f)) <= 500)%nat ->
      (List.length (fx_history (fx f')) <= 500)%nat).

(** How one tick of [truck] can change one of its compartments. *)
Inductive compStep (now : Z) (truck : Truck) (c : Compartment)
  : Compartment -> Prop :=
| step_same : compStep now truck c c
| step_allocate s : compStep now truck c (fst (allocateTarget c s))
| step_refill s : compStep now truck c (fst (refill now c s))
| step_reset :
    compStep now truck c (set_targetDelivery 0 (set_isOffloading false c))
| step_drain s : compStep now truck c (fst (drain now truck c s))
| step_drain_theft s stolen :
    0 <= stolen ->
    compStep now truck c
      (set_currentLevel
         (Qmax 0 (currentLevel (fst (drain now truck c s)) - stolen))
         (fst (drain now truck c s))).

(** The bound of the uplifting claim: the number of 40-litre steps a
    compartment is short of 95% of its capacity, and the worst case over
    the compartments of a truck. *)
Definition ticksNeeded (c : Compartment) : Z :=
  Qceiling ((capacity c * 0.95 - currentLevel c) / 40).

Definition upliftBound (t : Truck) : nat :=
  Z.to_nat (fold_right (fun c acc => Z.max (ticksNeeded c) acc) 0%Z
              (compartments t)).

(** A compartment of non-negative capacity that is at most [n] steps of
    40 litres short of 95%. *)
Definition shortBy (n : nat) (c : Compartment) : Prop :=
  0 <= capacity c
  /\ capacity c * 0.95 - currentLevel c <= 40 * inject_Z (Z.of_nat n).

Definition idleAndCleared (t : Truck) : Prop :=
  status t = idle /\ destination t = None /\ startPoint t = None.

(** A property of compartments holding throughout the fleet. *)
Definition fleetInvariant (K : Compartment -> Prop) (w : World) : Prop :=
  Forall (fun t => Forall K (compartments t)) (trucks w).

(** The caps of the two bounded streams the claims name. *)
Definition streamsCapped (w : World) : Prop :=
  (List.length (alerts w) <= 50)%nat
  /\ (List.length (fuelLossHistory w) <= 500)%nat.

End Engine.

(** ** Comparisons *)

Lemma Qltb_true (x y : Q) : Qltb x y = true <-> x < y.
Proof.
  unfold Qltb. rewrite Qlt_alt. destruct (x ?= y); split; congruence.
Qed.

Lemma Qltb_false (x y : Q) : Qltb x y = false <-> y <= x.
Proof.
  split; intros H.
  - apply Qnot_lt_le. intros L. apply Qltb_true in L. congruence.
  - destruct (Qltb x y) eqn:E; [ | reflexivity ].
    apply Qltb_true in E. apply Qle_not_lt in H. contradiction.
Qed.

(** ** Sample hosts and the seed fleet *)

(** A draw outside [[0, 1)] is replaced by 0.5. *)
Definition clamp01 (q : Q) : Q :=
  if Qle_bool 0 q && Qltb q 1 then q else 0.5.

Lemma clamp01_range (q : Q) : 0 <= clamp01 q /\ clamp01 q < 1.
Proof.
  unfold clamp01.
  destruct (Qle_bool 0 q) eqn:E0; cbn [andb]; [ | split; lra ].
  destruct (Qltb q 1) eqn:E1; [ | split; lra ].
  split; [ apply Qle_bool_iff; exact E0 | apply Qltb_true; exact E1 ].
Qed.

(** A host whose [k]-th draw is the [k]-th element of [script], and
    [rest] once the script is used up; numbers render as the empty
    text and [Math.atan2] is constantly 0. *)
Definition scriptedHost (script : list Q) (rest : Q) : Host :=
  {| random := fun k => clamp01 (nth k script rest);
     random_range := fun k => clamp01_range (nth k script rest);
     show := fun _ => EmptyString;
     toFixed1 := fun _ => EmptyString;
     atan2_deg := fun _ _ => 0 |}.

(** Every draw is 0. *)
Definition lowDraws : Host := scriptedHost [] 0.

(** Every draw is 0.5: no incident fires and no position jitters. *)
Definition midDraws : Host := scriptedHost [] 0.5.

(** [n] firings of the 1.5 s interval. *)
Definition everyTick (n : nat) : list Event :=
  map Tick (map (fun k => (1500 * Z.of_nat k)%Z) (seq 1 n)).

Definition mkCompartment (id : string) (level : Q) (fuel : string)
    (offloading : bool) (target : option Q) : Compartment :=
  {| comp_id := id; capacity := 5000; currentLevel := level;
     fuelType := fuel; isOffloading := offloading; targetDelivery := target;
     deliveredLiters := None; deliveryLog := None |}.

(** The initialising effect on one entry of [DEMO_TRUCKS]: telemetry
    from the draw [r] (one value for all its draws), empty logs and
    alerts, and a trail of the seed position, at time 0. *)
Definition initTruck (r : Q) (id nm drv : string) (st : Status)
    (cl : string) (pos : Point) (dest : option Destination)
    (cs : list Compartment) : Truck :=
  {| truck_id := id; name := nm; driver := drv; status := st; client := cl;
     position := pos; destination := dest; startPoint := None;
     compartments := cs;
     telemetry :=
       {| speed := r * 60 + 20;
          fuelFlow := if Status_eqb st delivering then r * 50 + 10 else 0;
          tilt := r * 5; valveStatus := Status_eqb st delivering;
          online := Qgtb r 0.1; lastUpdate := 0; heading := r * 360 |};
     logs := Some []; truck_alerts := [];
     trail := [ {| trail_lat := lat pos; trail_lng := lng pos;
                   trail_ts := 0 |} ];
     currentAssignment := None; lastTripSummary := None |}.

Definition AIRPORT_DEPOT : Point := {| lat := 23.5932; lng := 58.2845 |}.
Definition GHALA_DEPOT : Point := {| lat := 23.5790; lng := 58.3770 |}.
Definition QURUM_SHELL : Destination :=
  {| dest_lat := 23.6025; dest_lng := 58.4375;
     dest_name := "Shell Station Qurum" |}.
Definition AL_KHUWAIR_BP : Destination :=
  {| dest_lat := 23.5850; dest_lng := 58.4000; dest_name := "BP Al Khuwair" |}.
Definition MUTTRAH_TOTAL : Point := {| lat := 23.6160; lng := 58.5650 |}.

(** [DEMO_TRUCKS] after initialisation with every draw 0.5, which puts
    each truck at the centre of its seed area ([seedAround] adds
    [(Math.random() - 0.5) * 2 * toDeg] to each coordinate). *)
Definition TK001 : Truck :=
  initTruck 0.5 "TK001" "Fuel Express 01" "John Smith" idle "Shell Station"
    AIRPORT_DEPOT None
    [ mkCompartment "C1" 4800 "Diesel" false None;
      mkCompartment "C2" 4500 "Petrol" false None;
      mkCompartment "C3" 3200 "Diesel" false None;
      mkCompartment "C4" 2800 "Petrol" false None ].

Definition TK002 : Truck :=
  initTruck 0.5 "TK002" "Fuel Express 02" "Sarah Johnson" delivering "BP Station"
    {| lat := 23.5850; lng := 58.3950 |} (Some AL_KHUWAIR_BP)
    [ mkCompartment "C1" 4200 "Diesel" true (Some 2000);
      mkCompartment "C2" 3800 "Petrol" false None;
      mkCompartment "C3" 4600 "Diesel" false None;
      mkCompartment "C4" 3400 "Petrol" false None ].

Definition TK003 : Truck :=
  initTruck 0.5 "TK003" "Fuel Express 03" "Mike Wilson" assigned "Shell Station"
    GHALA_DEPOT (Some QURUM_SHELL)
    [ mkCompartment "C1" 5000 "Diesel" false None;
      mkCompartment "C2" 5000 "Petrol" false None;
      mkCompartment "C3" 4800 "Diesel" false None;
      mkCompartment "C4" 4900 "Petrol" false None ].

Definition TK004 : Truck :=
  initTruck 0.5 "TK004" "Fuel Express 04" "Lisa Brown" completed "Total Station"
    MUTTRAH_TOTAL None
    [ mkCompartment "C1" 500 "Diesel" false None;
      mkCompartment "C2" 300 "Petrol" false None;
      mkCompartment "C3" 800 "Diesel" false None;
      mkCompartment "C4" 200 "Petrol" false None ].

Definition TK005 : Truck :=
  initTruck 0.5 "TK005" "Fuel Express 05" "David Garcia" uplifting "Mobil Station"
    AIRPORT_DEPOT None
    [ mkCompartment "C1" 3200 "Diesel" false None;
      mkCompartment "C2" 2800 "Petrol" false None;
      mkCompartment "C3" 3600 "Diesel" false None;
      mkCompartment "C4" 3100 "Petrol" false None ].

Definition fleetOf (ts : list Truck) : World :=
  {| trucks := ts; alerts := []; totalSavings := 847562;
     fuelConsumptionData := []; fuelLossHistory := []; draws := 0 |}.

Definition seedFleet : World := fleetOf [TK001; TK002; TK003; TK004; TK005].

(** An uplifting truck whose compartments are all above 95%. *)
Definition toppedUp : Truck :=
  initTruck 0.5 "TK006" "Fuel Express 06" "Ana Reyes" uplifting "Shell Station"
    GHALA_DEPOT None
    [ mkCompartment "C1" 4900 "Diesel" false None;
      mkCompartment "C2" 4800 "Petrol" false None ].

(** [TK002] on a trip that has an assignment with a provisional loss. *)
Definition arriving : Truck :=
  set_currentAssignment
    (Some {| assignedLiters := 3000; startedAt := 0;
             perCompTargets := [("C1"%string, 3000)];
             provisionalLossLiters := 45 |})
    TK002.


(** ** Geofence geometry *)

(** The distance in exact arithmetic: what the formula of
    [haversineDistanceMeters] denotes, without the rounding of the
    doubles.  The zone tests below are stated over it. *)
Module Geofence.

Local Open Scope R_scope.

Record LatLng := { lat : R; lng : R }.

(** [Math.atan2(y, x)]: the angle of the point [(x, y)], in [(-PI, PI]]. *)
Definition atan2 (y x : R) : R :=
  if Rlt_dec 0 x then atan (y / x)
  else if Rlt_dec x 0 then
    if Rle_dec 0 y then atan (y / x) + PI else atan (y / x) - PI
  else if Rlt_dec 0 y then PI / 2
  else if Rlt_dec y 0 then - (PI / 2)
  else 0.

Definition haversineDistanceMeters (a b : LatLng) : R :=
  let R_earth := 6371000 in
  let dLat := ((lat b - lat a) * PI) / 180 in
  let dLng := ((lng b - lng a) * PI) / 180 in
  let lat1 := (lat a * PI) / 180 in
  let lat2 := (lat b * PI) / 180 in
  let sinDLat := sin (dLat / 2) in
  let sinDLng := sin (dLng / 2) in
  let hh :=
    sinDLat * sinDLat + cos lat1 * cos lat2 * sinDLng * sinDLng in
  let c := 2 * atan2 (sqrt hh) (sqrt (1 - hh)) in
  R_earth * c.

End Geofence.

(** The distance as the code computes it: every [number] is a double,
    and [-], [*], [/], [+] and [Math.sqrt] are the correctly rounded
    operations of IEEE 754, which the primitive floats are. *)
Module GeofenceDouble.

Import Floats.
Local Open Scope float_scope.

(** [Math.sin], [Math.cos] and [Math.atan2] are left to the
    implementation by the language, up to a few values: [Math.atan2] of
    a NaN is NaN. *)
Class MathLib := {
  Math_sin : float -> float;
  Math_cos : float -> float;
  Math_atan2 : float -> float -> float;
  Math_atan2_nan : forall y, Math_atan2 y nan = nan
}.

(** [Math.PI] *)
Definition Math_PI : float := 0x1.921fb54442d18p+1.

Record LatLng := { lat : float; lng : float }.

Definition haversineDistanceMeters `{MathLib} (a b : LatLng) : float :=
  let R_earth := 6371000 in
  let dLat := ((lat b - lat a) * Math_PI) / 180 in
  let dLng := ((lng b - lng a) * Math_PI) / 180 in
  let lat1 := (lat a * Math_PI) / 180 in
  let lat2 := (lat b * Math_PI) / 180 in
  let sinDLat := Math_sin (dLat / 2) in
  let sinDLng := Math_sin (dLng / 2) in
  let hh :=
    sinDLat * sinDLat + Math_cos lat1 * Math_cos lat2 * sinDLng * sinDLng in
  let c := 2 * Math_atan2 (sqrt hh) (sqrt (1 - hh)) in
  R_earth * c.



End GeofenceDouble.

(** ** Geofence zones *)

(** The other helpers of the geofence module and, below, what the
    dashboards compute from the fleet.  Coordinates and radii are
    rationals, as in the engine; a distance is the real number
    [Geofence.haversineDistanceMeters] gives, so the circle test compares
    reals. *)

Inductive ZoneType := depot | delivery | danger.
Inductive ZoneShape := polygonShape | circleShape.

Record GeoZone := {
  zone_id : string;
  zone_name : string;
  zone_type : ZoneType;
  shape : ZoneShape;
  polygon : option (list Point);
  center : option Point;
  radius : option Q;
  clientName : option string
}.

(** One turn of the loop of [pointInPolygon]: the edge from vertex [pj]
    to vertex [pi] is crossed by the ray from [(lat, lng)]. *)
Definition crossesEdge (lat0 lng0 : Q) (pi pj : Point) : bool :=
  let xi := lng pi in
  let yi := lat pi in
  let xj := lng pj in
  let yj := lat pj in
  negb (Bool.eqb (Qgtb yi lat0) (Qgtb yj lat0))
  && Qltb lng0 ((xj - xi) * (lat0 - yi) / (yj - yi) + xi).

(** The loop from vertex [i] on, [pj] being vertex [j]. *)
Fixpoint ringLoop (lat0 lng0 : Q) (pj : Point) (rest : list Point)
    (inside : bool) : bool :=
  match rest with
  | [] => inside
  | pi :: rest' =>
      ringLoop lat0 lng0 pi rest'
        (if crossesEdge lat0 lng0 pi pj then negb inside else inside)
  end.

Definition pointInPolygon (lat0 lng0 : Q) (ring : list Point) : bool :=
  match ring with
  | [] => false
  | p0 :: _ => ringLoop lat0 lng0 (last ring p0) ring false
  end.

Definition toLatLng (p : Point) : Geofence.LatLng :=
  {| Geofence.lat := Q2R (lat p); Geofence.lng := Q2R (lng p) |}.

(** [haversineDistanceMeters], in exact arithmetic, on points whose
    coordinates are rationals. *)
Definition haversineMeters (a b : Point) : R :=
  Geofence.haversineDistanceMeters (toLatLng a) (toLatLng b).

Definition isInsideCircle (lat0 lng0 : Q) (c : Point) (radiusMeters : Q)
  : bool :=
  if Rle_dec (haversineMeters {| lat := lat0; lng := lng0 |} c)
             (Q2R radiusMeters)
  then true else false.

(** The point of the segment that [distanceFromPointToSegmentMeters]
    measures the distance to. *)
Definition closestOnSegment (point segStart segEnd : Point) : Point :=
  let A := lat point - lat segStart in
  let B := lng point - lng segStart in
  let C := lat segEnd - lat segStart in
  let D := lng segEnd - lng segStart in
  let dot := A * C + B * D in
  let lenSq := C * C + D * D in
  let param := if negb (Qeq_bool lenSq 0) then dot / lenSq else - (1) in
  if Qltb param 0 then {| lat := lat segStart; lng := lng segStart |}
  else if Qgtb param 1 then {| lat := lat segEnd; lng := lng segEnd |}
  else {| lat := lat segStart + param * C; lng := lng segStart + param * D |}.

Definition distanceFromPointToSegmentMeters (point segStart segEnd : Point)
  : R :=
  haversineMeters point (closestOnSegment point segStart segEnd).

Definition isInZone (lat0 lng0 : Q) (zone : GeoZone) : bool :=
  match shape zone, center zone, radius zone, polygon zone with
  | circleShape, Some c, Some r, _ => isInsideCircle lat0 lng0 c r
  | polygonShape, _, _, Some ring => pointInPolygon lat0 lng0 ring
  | _, _, _, _ => false
  end.

Definition zonesContainingPoint (lat0 lng0 : Q) (zones : list GeoZone)
  : list GeoZone :=
  filter (fun z => isInZone lat0 lng0 z) zones.


(** [GEOFENCE_ZONES] *)
Definition polygonZone (id nm : string) (ty : ZoneType) (ring : list Point)
    (cl : option string) : GeoZone :=
  {| zone_id := id; zone_name := nm; zone_type := ty; shape := polygonShape;
     polygon := Some ring; center := None; radius := None;
     clientName := cl |}.

Definition circleZone (id nm : string) (ty : ZoneType) (c : Point) (r : Q)
    (cl : option string) : GeoZone :=
  {| zone_id := id; zone_name := nm; zone_type := ty; shape := circleShape;
     polygon := None; center := Some c; radius := Some r;
     clientName := cl |}.

Definition GEOFENCE_ZONES : list GeoZone :=
  [ polygonZone "depot-1" "Airport Depot" depot
      [ {| lat := 23.5926; lng := 58.2839 |};
        {| lat := 23.5926; lng := 58.2851 |};
        {| lat := 23.5936; lng := 58.2851 |};
        {| lat := 23.5936; lng := 58.2839 |} ] None;
    circleZone "depot-2" "Ghala Depot" depot
      {| lat := 23.5790; lng := 58.3770 |} 250 None;
    circleZone "delivery-1" "Shell Station Qurum" delivery
      {| lat := 23.6025; lng := 58.4375 |} 120 (Some "Shell"%string);
    circleZone "delivery-2" "BP Al Khuwair" delivery
      {| lat := 23.5850; lng := 58.4000 |} 120 (Some "BP"%string);
    polygonZone "delivery-3" "OQ Station Ruwi" delivery
      [ {| lat := 23.6000; lng := 58.5300 |};
        {| lat := 23.6000; lng := 58.5320 |};
        {| lat := 23.6010; lng := 58.5320 |};
        {| lat := 23.6010; lng := 58.5300 |} ] (Some "OQ"%string);
    circleZone "delivery-4" "TotalEnergies Muttrah" delivery
      {| lat := 23.6160; lng := 58.5650 |} 140 (Some "TotalEnergies"%string);
    polygonZone "danger-1" "Port Security Zone" danger
      [ {| lat := 23.6235; lng := 58.5635 |};
        {| lat := 23.6235; lng := 58.5680 |};
        {| lat := 23.6255; lng := 58.5680 |};
        {| lat := 23.6255; lng := 58.5635 |} ] None;
    circleZone "danger-2" "Royal Precinct (Restricted)" danger
      {| lat := 23.5760; lng := 58.4100 |} 200 None ].


(** The ring of a rectangle, listed as [GEOFENCE_ZONES] lists its
    rectangles: south-west, south-east, north-east, north-west corner. *)
Definition rectangleRing (latLo latHi lngLo lngHi : Q) : list Point :=
  [ {| lat := latLo; lng := lngLo |}; {| lat := latLo; lng := lngHi |};
    {| lat := latHi; lng := lngHi |}; {| lat := latHi; lng := lngLo |} ].

(** A zone as [GEOFENCE_ZONES] gives them: a circle with its centre and a
    radius that is not negative, or a rectangle listed from its
    south-west corner through the south-east and north-east ones. *)
Inductive properZone (z : GeoZone) : Prop :=
| proper_circle c r :
    shape z = circleShape -> center z = Some c -> radius z = Some r ->
    0 <= r -> properZone z
| proper_rectangle latLo latHi lngLo lngHi :
    shape z = polygonShape ->
    polygon z = Some (rectangleRing latLo latHi lngLo lngHi) ->
    latLo < latHi -> lngLo < lngHi -> properZone z.

(** ** The operator dashboard *)

(** [centroidLatLng]: the mean of the vertices, [(0, 0)] for no vertex. *)
Definition centroidLatLng (poly : list Point) : Point :=
  match poly with
  | [] => {| lat := 0; lng := 0 |}
  | _ :: _ =>
      let sum :=
        fold_left
          (fun a p => {| lat := lat a + lat p; lng := lng a + lng p |})
          poly {| lat := 0; lng := 0 |} in
      {| lat := lat sum / inject_Z (Z.of_nat (List.length poly));
         lng := lng sum / inject_Z (Z.of_nat (List.length poly)) |}
  end.

Record DestinationOption := {
  opt_id : string;
  opt_name : string;
  opt_lat : Q;
  opt_lng : Q
}.

Definition destinationPoint (z : GeoZone) : Point :=
  match shape z, center z, polygon z with
  | circleShape, Some c, _ => c
  | polygonShape, _, Some ring => centroidLatLng ring
  | _, _, _ => {| lat := 0; lng := 0 |}
  end.

Definition isDestinationZone (z : GeoZone) : bool :=
  match zone_type z with
  | depot | delivery => true
  | danger => false
  end.

Definition destinationsOf (zones : list GeoZone) : list DestinationOption :=
  map (fun z =>
         let point := destinationPoint z in
         {| opt_id := zone_id z; opt_name := zone_name z;
            opt_lat := lat point; opt_lng := lng point |})
      (filter isDestinationZone zones).

Definition availableTrucks (ts : list Truck) : list Truck :=
  filter (fun truck => Status_eqb (status truck) idle) ts.

Definition activeTrucks (ts : list Truck) : list Truck :=
  filter (fun truck => Status_eqb (status truck) delivering
                       || Status_eqb (status truck) assigned) ts.

Definition unacknowledgedAlerts (al : list Alert) : list Alert :=
  filter (fun alert => negb (acknowledged alert)) al.

Record StatusCounts := {
  count_all : nat;
  count_idle : nat;
  count_delivering : nat;
  count_assigned : nat;
  count_uplifting : nat;
  count_offline : nat;
  count_completed : nat
}.

Definition countStatus (s : Status) (ts : list Truck) : nat :=
  List.length (filter (fun t => Status_eqb (status t) s) ts).

Definition statusCounts (ts : list Truck) : StatusCounts :=
  {| count_all := List.length ts;
     count_idle := countStatus idle ts;
     count_delivering := countStatus delivering ts;
     count_assigned := countStatus assigned ts;
     count_uplifting := countStatus uplifting ts;
     count_offline :=
       List.length (filter (fun t => negb (online (telemetry t))) ts);
     count_completed := countStatus completed ts |}.

(** The [Active] figure of [kpis]. *)
Definition kpiActive (ts : list Truck) : nat :=
  (count_delivering (statusCounts ts) + count_assigned (statusCounts ts)
   + count_uplifting (statusCounts ts))%nat.

(** The two selections of the trip form. *)
Record Selection := {
  selectedTruck : string;
  selectedDestination : string
}.

Definition asDestination (d : DestinationOption) : Destination :=
  {| dest_lat := opt_lat d; dest_lng := opt_lng d; dest_name := opt_name d |}.

(** A string is truthy when it is not empty. *)
Definition truthy (s : string) : bool :=
  match s with EmptyString => false | String _ _ => true end.

(** [handleAssignTrip]: [confirm] is [window.confirm] as a function of
    the distance the dialog shows, absent when there is no [window];
    the result is the selections and the fleet after the handler. *)
Definition handleAssignTrip (confirm : option (R -> bool))
    (zones : list GeoZone) (sel : Selection) (ts : list Truck)
  : Selection * list Truck :=
  if truthy (selectedTruck sel) && truthy (selectedDestination sel) then
    match find (fun d => String.eqb (opt_id d) (selectedDestination sel))
               (destinationsOf zones),
          find (fun t => String.eqb (truck_id t) (selectedTruck sel)) ts with
    | Some destination, Some truck =>
        let dist :=
          haversineMeters
            {| lat := lat (position truck); lng := lng (position truck) |}
            {| lat := opt_lat destination; lng := opt_lng destination |} in
        let ok :=
          if Rlt_dec 120000 dist then
            match confirm with
            | Some ask => ask dist
            | None => true
            end
          else true in
        if ok then
          ({| selectedTruck := EmptyString;
              selectedDestination := EmptyString |},
           assignTrip (selectedTruck sel) (asDestination destination) ts)
        else (sel, ts)
    | _, _ => (sel, ts)
    end
  else (sel, ts).

(** ** The driver and client dashboards *)





Definition totalOrdered : Q := 15000.

Definition totalDelivered (ts : list Truck) : Q :=
  fold_left
    (fun total truck =>
       total + fold_left (fun sum comp =>
                            sum + (capacity comp - currentLevel comp))
                 (compartments truck) 0)
    ts 0.

Definition pendingLiters (ts : list Truck) : Q :=
  Qmax (totalOrdered - totalDelivered ts) 0.

Definition progressPct (ts : list Truck) : Q :=
  let safeOrdered := Qmax 0 totalOrdered in
  let safeDelivered := Qmax 0 (totalDelivered ts) in
  let ratio :=
    if Qgtb safeOrdered 0 then safeDelivered / safeOrdered else 0 in
  Qmin (Qmax (ratio * 100) 0) 100.

(** ** Relations between the states before and after a part of a tick *)

(** A relation on trucks, read on [newTruck]; a relation on the shared
    effects, read on [fx]. *)
Definition onTruck (relT : Truck -> Truck -> Prop) (f f' : Frame) : Prop :=
  relT (newTruck f) (newTruck f').

Definition onEffects (relE : Effects -> Effects -> Prop) (f f' : Frame)
  : Prop :=
  relE (fx f) (fx f').

(** What names a truck. *)
Definition sameIdentity (t t' : Truck) : Prop :=
  truck_id t' = truck_id t /\ name t' = name t /\ driver t' = driver t
  /\ client t' = client t /\ truck_alerts t' = truck_alerts t.

(** What names a compartment. *)
Definition sameTank (c c' : Compartment) : Prop :=
  comp_id c' = comp_id c /\ capacity c' = capacity c
  /\ fuelType c' = fuelType c.

Definition sameTruck (t t' : Truck) : Prop :=
  sameIdentity t t' /\ Forall2 sameTank (compartments t) (compartments t').

(** The entries a log keeps: [slice(-40)] and [slice(-10)] before the new
    entry is added. *)
Definition logsCapped (t t' : Truck) : Prop :=
  (List.length (orNil (logs t)) <= 41)%nat ->
  (List.length (orNil (logs t')) <= 41)%nat.

Definition deliveryLogCapped (c : Compartment) : Prop :=
  (List.length (orNil (deliveryLog c)) <= 11)%nat.

Definition consumptionCapped (e e' : Effects) : Prop :=
  (List.length (fx_consumption e) <= 1001)%nat ->
  (List.length (fx_consumption e') <= 1001)%nat.

(** New alerts go in front and the oldest fall off the end; [P] holds of
    the new ones. *)
Definition alertsExtended (P : Alert -> Prop) (old new : list Alert)
  : Prop :=
  exists fresh k, new = (fresh ++ firstn k old)%list /\ Forall P fresh.

(** New entries of the fuel-loss history and of the consumption data go
    at the end and the oldest fall off the front. *)
Definition streamExtended {A} (P : A -> Prop) (old new : list A) : Prop :=
  exists k fresh, new = (skipn k old ++ fresh)%list /\ Forall P fresh.

(** The three streams of the effects, with what holds of the entries a
    part of a tick of a truck adds. *)
Definition alertsGrow (P : Alert -> Prop) (e e' : Effects) : Prop :=
  alertsExtended P (fx_alerts e) (fx_alerts e').

Definition historyGrows (P : FuelLossHistory -> Prop) (e e' : Effects)
  : Prop :=
  streamExtended P (fx_history e) (fx_history e').

Definition consumptionGrows (P : Consumption -> Prop) (e e' : Effects)
  : Prop :=
  streamExtended P (fx_consumption e) (fx_consumption e').

(** The buffers that are cut before an entry is added. *)
Definition buffersCapped (w : World) : Prop :=
  Forall (fun t =>
            (List.length (orNil (logs t)) <= 41)%nat
            /\ Forall deliveryLogCapped (compartments t))
         (trucks w)
  /\ (List.length (fuelConsumptionData w) <= 1001)%nat.

(** What the parts of a tick after the telemetry is rebuilt keep of it:
    only the incidents write to it, and they close the valve, set a tilt
    of 10 degrees or more, take the truck offline or report the flow. *)
Definition telemetryKept (t t' : Truck) : Prop :=
  speed (telemetry t') = speed (telemetry t)
  /\ lastUpdate (telemetry t') = lastUpdate (telemetry t)
  /\ heading (telemetry t') = heading (telemetry t)
  /\ (0 <= tilt (telemetry t) -> 0 <= tilt (telemetry t'))
  /\ (valveStatus (telemetry t') = true -> valveStatus (telemetry t) = true).

Definition flowKept (t t' : Truck) : Prop :=
  fuelFlow (telemetry t') = fuelFlow (telemetry t).

Definition drainedKept (f f' : Frame) : Prop :=
  totalDrained f' = totalDrained f.

Definition consumptionKept (e e' : Effects) : Prop :=
  fx_consumption e' = fx_consumption e.

(** The status a tick may give a truck, from the status it had. *)
Definition tickTransition (s s' : Status) : bool :=
  match s, s' with
  | idle, idle
  | assigned, delivering
  | delivering, delivering
  | delivering, completed
  | completed, uplifting
  | uplifting, uplifting
  | uplifting, idle => true
  | _, _ => false
  end.

(** The number of firings of the interval among the events. *)
Definition ticksIn (evs : list Event) : nat :=
  List.length
    (filter (fun ev => match ev with Tick _ => true | _ => false end) evs).

(** * Properties *)

(** ** Geometry in exact arithmetic *)

Section GeofenceFacts.

Local Open Scope R_scope.

Lemma atan2_zero_one : Geofence.atan2 0 1 = 0.
Proof.
  unfold Geofence.atan2.
  destruct (Rlt_dec 0 1) as [_ | H]; [ | exfalso; apply H; Lra.lra ].
  replace (0 / 1) with 0 by field.
  apply atan_0.
Qed.

Lemma sin_sq_opp (x : R) : sin (- x) * sin (- x) = sin x * sin x.
Proof. rewrite sin_neg. ring. Qed.

(** The quantity under the square roots does not depend on the order of
    the two points. *)
Lemma haversine_hh_sym (a b : Geofence.LatLng) :
  let hh p q :=
    sin ((Geofence.lat q - Geofence.lat p) * PI / 180 / 2)
    * sin ((Geofence.lat q - Geofence.lat p) * PI / 180 / 2)
    + cos (Geofence.lat p * PI / 180) * cos (Geofence.lat q * PI / 180)
      * sin ((Geofence.lng q - Geofence.lng p) * PI / 180 / 2)
      * sin ((Geofence.lng q - Geofence.lng p) * PI / 180 / 2) in
  hh a b = hh b a.
Proof.
  intros hh. unfold hh.
  replace ((Geofence.lat b - Geofence.lat a) * PI / 180 / 2)
    with (- ((Geofence.lat a - Geofence.lat b) * PI / 180 / 2)) by field.
  replace ((Geofence.lng b - Geofence.lng a) * PI / 180 / 2)
    with (- ((Geofence.lng a - Geofence.lng b) * PI / 180 / 2)) by field.
  rewrite sin_sq_opp.
  rewrite !Rmult_assoc, sin_sq_opp.
  ring.
Qed.

End GeofenceFacts.

(** ** The distance in doubles *)

Section GeofenceDoubleFacts.

Import Floats.
Import GeofenceDouble.
Local Open Scope float_scope.

Context {math : MathLib}.


End GeofenceDoubleFacts.

(** ** The state monad *)

Lemma bind_run {S A B} (m : State S A) (k : A -> State S B) (s : S) :
  bind m k s = k (fst (m s)) (snd (m s)).
Proof. unfold bind. destruct (m s); reflexivity. Qed.

(** Each element of the result of [mapM f l] is the result of [f] on the
    element at the same place, run in some state. *)
Lemma mapM_Forall2 {S A B} (f : A -> State S B) (l : list A) (s : S) :
  Forall2 (fun a b => exists s', b = fst (f a s')) l (fst (mapM f l s)).
Proof.
  revert s. induction l as [| x xs IH]; intros s; simpl.
  - constructor.
  - rewrite !bind_run. simpl. constructor.
    + exists s. reflexivity.
    + apply IH.
Qed.

(** A reflexive and transitive relation between the state before and after
    each call of [f] relates the states before and after [mapM f l]. *)
Lemma mapM_state {S A B} (Rel : S -> S -> Prop) (f : A -> State S B) :
  (forall s, Rel s s) ->
  (forall s1 s2 s3, Rel s1 s2 -> Rel s2 s3 -> Rel s1 s3) ->
  (forall a s, Rel s (snd (f a s))) ->
  forall l s, Rel s (snd (mapM f l s)).
Proof.
  intros Hrefl Htrans Hf l. induction l as [| x xs IH]; intros s; simpl.
  - apply Hrefl.
  - rewrite !bind_run. simpl.
    eapply Htrans; [ apply Hf | apply IH ].
Qed.


(** ** Engine: framing *)

Section EngineFacts.

Context {host : Host}.

#[local] Arguments Qplus : simpl never.
#[local] Arguments Qminus : simpl never.
#[local] Arguments Qmult : simpl never.
#[local] Arguments Qdiv : simpl never.
#[local] Arguments Qopp : simpl never.
#[local] Arguments Qmin : simpl never.
#[local] Arguments Qmax : simpl never.
#[local] Arguments Qle_bool : simpl never.
#[local] Arguments Qeq_bool : simpl never.
#[local] Arguments Qcompare : simpl never.
#[local] Arguments inject_Z : simpl never.
#[local] Arguments Qfloor : simpl never.
#[local] Arguments Qltb : simpl never.
#[local] Arguments js_floor : simpl never.
#[local] Arguments js_round : simpl never.
#[local] Arguments js_rem : simpl never.
#[local] Arguments Qmin3 : simpl never.
#[local] Arguments String.append : simpl never.
#[local] Arguments String.concat : simpl never.
#[local] Arguments slice_last : simpl never.
#[local] Arguments slice_first : simpl never.

Ltac run := repeat (rewrite bind_run; cbv beta).

#[local] Instance keepsShape_preorder : PreOrder keepsShape.
Proof.
  split.
  - intros f. repeat split.
  - intros f1 f2 f3 (A1 & A2 & A3 & A4 & A5) (B1 & B2 & B3 & B4 & B5).
    repeat split; congruence.
Qed.

#[local] Instance keepsCargo_preorder : PreOrder keepsCargo.
Proof.
  split.
  - intros f. split; reflexivity.
  - intros f1 f2 f3 (A1 & A2) (B1 & B2). split; congruence.
Qed.

#[local] Instance keepsTrail_preorder : PreOrder keepsTrail.
Proof.
  split.
  - intros f. reflexivity.
  - intros f1 f2 f3 A B. unfold keepsTrail in *. congruence.
Qed.

#[local] Instance keepsCaps_preorder : PreOrder keepsCaps.
Proof.
  split.
  - intros f. split; auto.
  - intros f1 f2 f3 (A1 & A2) (B1 & B2). split; auto.
Qed.

Lemma respects_ret {S A} (Rel : S -> S -> Prop) `{!PreOrder Rel} (a : A) :
  respects Rel (ret a).
Proof. intros s. simpl. reflexivity. Qed.

Lemma respects_gets {S A} (Rel : S -> S -> Prop) `{!PreOrder Rel}
    (g : S -> A) :
  respects Rel (gets g).
Proof. intros s. simpl. reflexivity. Qed.

Lemma respects_bind {S A B} (Rel : S -> S -> Prop) `{!PreOrder Rel}
    (m : State S A) (k : A -> State S B) :
  respects Rel m -> (forall a, respects Rel (k a)) -> respects Rel (bind m k).
Proof.
  intros Hm Hk s. rewrite bind_run.
  transitivity (snd (m s)); [ apply Hm | apply Hk ].
Qed.

Lemma respects_mapM {S A B} (Rel : S -> S -> Prop) `{!PreOrder Rel}
    (f : A -> State S B) (l : list A) :
  (forall a, respects Rel (f a)) -> respects Rel (mapM f l).
Proof.
  intros Hf s. apply mapM_state.
  - intros x. reflexivity.
  - intros x y z. apply transitivity.
  - intros a x. apply Hf.
Qed.

Lemma respects_when (Rel : Frame -> Frame -> Prop) `{!PreOrder Rel}
    (b : bool) (m : State Frame unit) :
  respects Rel m -> respects Rel (when b m).
Proof.
  intros Hm. destruct b; simpl; [ exact Hm | apply respects_ret; assumption ].
Qed.

Lemma respects_if {S A} (Rel : S -> S -> Prop) (b : bool)
    (m1 m2 : State S A) :
  respects Rel m1 -> respects Rel m2 -> respects Rel (if b then m1 else m2).
Proof. destruct b; auto. Qed.

(** *** The primitive actions *)

Lemma slice_first_length {A} (n : nat) (l : list A) :
  (List.length (slice_first n l) <= n)%nat.
Proof. unfold slice_first. rewrite length_firstn. lia. Qed.

Lemma slice_last_length {A} (n : nat) (l : list A) :
  List.length (slice_last n l) = Nat.min n (List.length l).
Proof. unfold slice_last. rewrite length_skipn. lia. Qed.

Lemma mathRandom_keeps :
  respects keepsShape mathRandom /\ respects keepsCargo mathRandom
  /\ respects keepsTrail mathRandom /\ respects keepsCaps mathRandom.
Proof. repeat split; auto. Qed.

Lemma setAlerts_keeps (a : Alert) :
  respects keepsShape (setAlerts a) /\ respects keepsCargo (setAlerts a)
  /\ respects keepsTrail (setAlerts a) /\ respects keepsCaps (setAlerts a).
Proof.
  repeat split; auto.
  intros _. simpl. pose proof (slice_first_length 49 (fx_alerts (fx s))). lia.
Qed.

Lemma setFuelConsumptionData_keeps (c : Consumption) :
  respects keepsShape (setFuelConsumptionData c)
  /\ respects keepsCargo (setFuelConsumptionData c)
  /\ respects keepsTrail (setFuelConsumptionData c)
  /\ respects keepsCaps (setFuelConsumptionData c).
Proof. repeat split; auto. Qed.

Lemma setFuelLossHistory_keeps (h : FuelLossHistory) :
  respects keepsCargo (setFuelLossHistory h)
  /\ respects keepsTrail (setFuelLossHistory h)
  /\ respects keepsCaps (setFuelLossHistory h).
Proof.
  repeat split; auto.
  intros _. simpl. rewrite length_app, slice_last_length. cbn [List.length]. lia.
Qed.

Lemma appendLog_keeps (base : option (list LogEntry)) (e : LogEntry) :
  respects keepsShape (appendLog base e)
  /\ respects keepsCargo (appendLog base e)
  /\ respects keepsTrail (appendLog base e)
  /\ respects keepsCaps (appendLog base e).
Proof. repeat split; auto. Qed.

Lemma modify_locals_keeps (g : Frame -> Frame) :
  (forall f, newTruck (g f) = newTruck f /\ fx (g f) = fx f) ->
  respects keepsShape (modify g) /\ respects keepsCargo (modify g)
  /\ respects keepsTrail (modify g) /\ respects keepsCaps (modify g).
Proof.
  intros Hg. unfold respects, keepsShape, keepsCargo, keepsTrail, keepsCaps.
  repeat split; intros; simpl;
    match goal with s : Frame |- _ => destruct (Hg s) as [E1 E2] end;
    rewrite ?E1, ?E2; auto.
Qed.

(** An update of [newTruck] keeps what the new value keeps. *)
Lemma updTruck_shape (g : Truck -> Truck) :
  (forall t, status (g t) = status t /\ position (g t) = position t
             /\ destination (g t) = destination t
             /\ startPoint (g t) = startPoint t) ->
  respects keepsShape (updTruck g).
Proof.
  intros Hg s. destruct (Hg (newTruck s)) as (E1 & E2 & E3 & E4).
  repeat split; simpl; assumption.
Qed.

Lemma updTruck_cargo (g : Truck -> Truck) :
  (forall t, compartments (g t) = compartments t
             /\ currentAssignment (g t) = currentAssignment t) ->
  respects keepsCargo (updTruck g).
Proof.
  intros Hg s. destruct (Hg (newTruck s)) as (E1 & E2).
  split; simpl; assumption.
Qed.

Lemma updTruck_trail (g : Truck -> Truck) :
  (forall t, trail (g t) = trail t) -> respects keepsTrail (updTruck g).
Proof. intros Hg s. apply Hg. Qed.

Lemma updTruck_caps (g : Truck -> Truck) : respects keepsCaps (updTruck g).
Proof. intros s. split; auto. Qed.

Ltac conjs := repeat match goal with |- _ /\ _ => split end.

Ltac frame_leaf :=
  first
    [ apply respects_ret; exact _ | apply respects_gets; exact _
    | apply mathRandom_keeps | apply setAlerts_keeps
    | apply appendLog_keeps | apply setFuelConsumptionData_keeps
    | apply setFuelLossHistory_keeps
    | apply modify_locals_keeps; intro; split; reflexivity
    | apply updTruck_caps
    | apply updTruck_shape; intros t;
        try destruct (currentAssignment t); repeat split; reflexivity
    | apply updTruck_cargo; intros t; split; reflexivity
    | apply updTruck_trail; intros t;
        try destruct (currentAssignment t); reflexivity ].

Ltac frame_tac :=
  repeat first
    [ apply respects_bind; [ exact _ | | intro ]
    | apply respects_when; [ exact _ | ]
    | apply respects_if
    | frame_leaf
    | match goal with
      | |- respects _ (match ?x with _ => _ end) => destruct x
      end ].

Lemma refreshTelemetry_keeps now truck :
  respects keepsShape (refreshTelemetry now truck)
  /\ respects keepsCargo (refreshTelemetry now truck)
  /\ respects keepsTrail (refreshTelemetry now truck)
  /\ respects keepsCaps (refreshTelemetry now truck).
Proof. unfold refreshTelemetry. conjs; frame_tac. Qed.

Lemma offlineEvent_keeps now truck :
  respects keepsShape (offlineEvent now truck)
  /\ respects keepsCargo (offlineEvent now truck)
  /\ respects keepsTrail (offlineEvent now truck)
  /\ respects keepsCaps (offlineEvent now truck).
Proof. unfold offlineEvent. conjs; frame_tac. Qed.

Lemma randomAlert_keeps now truck :
  respects keepsShape (randomAlert now truck)
  /\ respects keepsCargo (randomAlert now truck)
  /\ respects keepsTrail (randomAlert now truck)
  /\ respects keepsCaps (randomAlert now truck).
Proof. unfold randomAlert. conjs; frame_tac. Qed.

Lemma trackConsumption_keeps now truck :
  respects keepsShape (trackConsumption now truck)
  /\ respects keepsCargo (trackConsumption now truck)
  /\ respects keepsTrail (trackConsumption now truck)
  /\ respects keepsCaps (trackConsumption now truck).
Proof. unfold trackConsumption. conjs; frame_tac. Qed.

Lemma valveEvent_keeps now truck :
  respects keepsShape (valveEvent now truck)
  /\ respects keepsCargo (valveEvent now truck)
  /\ respects keepsTrail (valveEvent now truck)
  /\ respects keepsCaps (valveEvent now truck).
Proof. unfold valveEvent. conjs; frame_tac. Qed.

Lemma tiltEvent_keeps now truck :
  respects keepsShape (tiltEvent now truck)
  /\ respects keepsCargo (tiltEvent now truck)
  /\ respects keepsTrail (tiltEvent now truck)
  /\ respects keepsCaps (tiltEvent now truck).
Proof. unfold tiltEvent. conjs; frame_tac. Qed.

Lemma addToTrail_keeps now truck :
  respects keepsShape (addToTrail now truck)
  /\ respects keepsCargo (addToTrail now truck)
  /\ respects keepsCaps (addToTrail now truck).
Proof. unfold addToTrail. conjs; frame_tac. Qed.

Lemma simulateLoss_keeps now truck comp :
  respects keepsShape (simulateLoss now truck comp)
  /\ respects keepsTrail (simulateLoss now truck comp)
  /\ respects keepsCaps (simulateLoss now truck comp).
Proof. unfold simulateLoss. conjs; frame_tac. Qed.

(** *** The callbacks and the branches *)

Ltac frame_mapM :=
  repeat first
    [ apply respects_bind; [ exact _ | | intro ]
    | apply respects_when; [ exact _ | ]
    | apply respects_if
    | apply respects_mapM; [ exact _ | intro ]
    | frame_leaf
    | match goal with
      | |- respects _ (match ?x with _ => _ end) => destruct x
      end ].

Lemma allocateTarget_keeps comp :
  respects keepsShape (allocateTarget comp)
  /\ respects keepsCargo (allocateTarget comp)
  /\ respects keepsTrail (allocateTarget comp)
  /\ respects keepsCaps (allocateTarget comp).
Proof. unfold allocateTarget. conjs; frame_tac. Qed.

Lemma refill_keeps now comp :
  respects keepsShape (refill now comp)
  /\ respects keepsCargo (refill now comp)
  /\ respects keepsTrail (refill now comp)
  /\ respects keepsCaps (refill now comp).
Proof. unfold refill. conjs; frame_tac. Qed.

Lemma drain_keeps now truck comp :
  respects keepsShape (drain now truck comp)
  /\ respects keepsTrail (drain now truck comp)
  /\ respects keepsCaps (drain now truck comp).
Proof.
  unfold drain.
  conjs; frame_tac; apply simulateLoss_keeps.
Qed.

Lemma theftEvent_keeps now truck :
  respects keepsShape (theftEvent now truck)
  /\ respects keepsTrail (theftEvent now truck)
  /\ respects keepsCaps (theftEvent now truck).
Proof. unfold theftEvent. conjs; frame_tac. Qed.

Lemma completeTrip_keeps now truck :
  respects keepsCargo (completeTrip now truck)
  /\ respects keepsTrail (completeTrip now truck)
  /\ respects keepsCaps (completeTrip now truck).
Proof. unfold completeTrip. conjs; frame_tac. Qed.

Lemma moveToDestination_keeps now truck dest :
  respects keepsCargo (moveToDestination now truck dest)
  /\ respects keepsTrail (moveToDestination now truck dest)
  /\ respects keepsCaps (moveToDestination now truck dest).
Proof.
  unfold moveToDestination. conjs; frame_tac; apply completeTrip_keeps.
Qed.

Lemma drift_keeps truck :
  respects keepsCargo (drift truck)
  /\ respects keepsTrail (drift truck)
  /\ respects keepsCaps (drift truck).
Proof. unfold drift. conjs; frame_tac. Qed.

Lemma startDelivery_keeps now truck :
  respects keepsTrail (startDelivery now truck)
  /\ respects keepsCaps (startDelivery now truck).
Proof.
  unfold startDelivery. conjs; frame_mapM; apply allocateTarget_keeps.
Qed.

Lemma uplift_keeps now truck :
  respects keepsTrail (uplift now truck)
  /\ respects keepsCaps (uplift now truck).
Proof. unfold uplift. conjs; frame_mapM; apply refill_keeps. Qed.

Lemma moveToUplifting_keeps truck :
  respects keepsTrail (moveToUplifting truck)
  /\ respects keepsCaps (moveToUplifting truck).
Proof. unfold moveToUplifting. conjs; frame_tac. Qed.

Lemma stepStatus_keeps now truck :
  respects keepsTrail (stepStatus now truck)
  /\ respects keepsCaps (stepStatus now truck).
Proof.
  unfold stepStatus.
  conjs; destruct (status truck); try destruct (destination truck);
    first [ apply moveToDestination_keeps | apply drift_keeps
          | apply startDelivery_keeps | apply uplift_keeps
          | apply moveToUplifting_keeps ].
Qed.

Lemma deliverFuel_keeps now truck :
  respects keepsShape (deliverFuel now truck)
  /\ respects keepsTrail (deliverFuel now truck)
  /\ respects keepsCaps (deliverFuel now truck).
Proof.
  unfold deliverFuel.
  conjs; frame_mapM;
    first [ apply drain_keeps | apply theftEvent_keeps
          | apply valveEvent_keeps | apply tiltEvent_keeps ].
Qed.

(** *** The drain of one compartment *)

(** The callback either returns the compartment as it is, or takes the
    positive amount
    [min(drainRate, targetDelivery - deliveredLiters, currentLevel - reserve)]
    from the level and adds it to [deliveredLiters]. *)
Lemma drain_result (now : Z) (truck : Truck) (comp : Compartment)
    (f : Frame) :
  let c' := fst (drain now truck comp f) in
  let m := Qmin3 (js_floor (random (cursor (fx f)) * 40) + 20)
             (orZero (targetDelivery comp) - orZero (deliveredLiters comp))
             (currentLevel comp - capacity comp * 0.05) in
  c' = comp
  \/ (isOffloading comp = true /\ 0 < currentLevel comp
      /\ orZero (deliveredLiters comp) < orZero (targetDelivery comp)
      /\ 0 < m
      /\ currentLevel c' = currentLevel comp - m
      /\ deliveredLiters c' = Some (orZero (deliveredLiters comp) + m)
      /\ capacity c' = capacity comp
      /\ targetDelivery c' = targetDelivery comp
      /\ comp_id c' = comp_id comp).
Proof.
  intros c' m. subst c'. unfold drain.
  destruct (isOffloading comp) eqn:Eo; simpl; [ | left; reflexivity ].
  unfold Qgtb.
  destruct (Qltb 0 (currentLevel comp)) eqn:El; simpl; [ | left; reflexivity ].
  destruct (Qltb (orZero (deliveredLiters comp))
              (orZero (targetDelivery comp)))
    eqn:Ed; simpl; [ | left; reflexivity ].
  run. simpl. fold m.
  destruct (Qltb 0 m) eqn:Em; [ | left; reflexivity ].
  right. apply Qltb_true in El, Ed, Em.
  split; [ reflexivity | ]. do 3 (split; [ assumption | ]).
  run.
  destruct (Qgeb _ _ || Qleb _ _); run; simpl; repeat split; reflexivity.
Qed.

(** *** Compartments across a tick *)

Lemma Forall2_compose {A B C} (R1 : A -> B -> Prop) (R2 : B -> C -> Prop)
    (R3 : A -> C -> Prop) (l1 : list A) (l2 : list B) (l3 : list C) :
  (forall a b c, R1 a b -> R2 b c -> R3 a c) ->
  Forall2 R1 l1 l2 -> Forall2 R2 l2 l3 -> Forall2 R3 l1 l3.
Proof.
  intros H H12. revert l3.
  induction H12 as [| a b l1 l2 Hab _ IH]; intros l3 H23;
    inversion H23; subst; constructor; eauto.
Qed.

Lemma Forall2_same {A} (R : A -> A -> Prop) (l : list A) :
  (forall a, R a a) -> Forall2 R l l.
Proof. intros H. induction l; constructor; auto. Qed.

Lemma Forall2_map_r {A B} (R : A -> B -> Prop) (g : A -> B) (l : list A) :
  (forall a, R a (g a)) -> Forall2 R l (map g l).
Proof. intros H. induction l; simpl; constructor; auto. Qed.

Lemma js_floor_nonneg (x : Q) : 0 <= x -> 0 <= js_floor x.
Proof.
  intros H. unfold js_floor.
  change 0 with (inject_Z 0). rewrite <- Zle_Qle.
  apply Qfloor_resp_le in H. exact H.
Qed.

Lemma random_scaled_nonneg (k : nat) (n : Q) :
  0 <= n -> 0 <= js_floor (random k * n).
Proof.
  intros Hn. apply js_floor_nonneg.
  destruct (random_range k) as [H0 _]. apply Qmult_le_0_compat; assumption.
Qed.

(** The theft leaves every compartment as it was or lowers its level by a
    non-negative amount, not below 0. *)
Lemma theftEvent_compartments now truck f :
  exists stolen, 0 <= stolen /\
    Forall2 (fun c c' =>
               c' = c
               \/ c' = set_currentLevel (Qmax 0 (currentLevel c - stolen)) c)
      (compartments (newTruck f))
      (compartments (newTruck (snd (theftEvent now truck f)))).
Proof.
  unfold theftEvent.
  rewrite bind_run; cbv beta.
  destruct (0 <? _)%nat.
  2:{ exists 0. split; [ apply Qle_refl | apply Forall2_same; auto ]. }
  rewrite bind_run; cbv beta.
  destruct (nth_error _ _) as [victim |].
  2:{ exists 0. split; [ apply Qle_refl | apply Forall2_same; auto ]. }
  exists (js_floor (random (S (cursor (fx f))) * 100) + 50). split.
  - pose proof (random_scaled_nonneg (S (cursor (fx f))) 100). lra.
  - run. simpl. apply Forall2_map_r.
    intros c. destruct (String.eqb _ _); auto.
Qed.

Lemma deliverFuel_compartments now truck f :
  Forall2 (compStep now truck) (compartments truck)
    (compartments (newTruck (snd (deliverFuel now truck f)))).
Proof.
  unfold deliverFuel.
  do 5 (rewrite bind_run; cbv beta).
  match goal with
  | |- Forall2 _ _ (compartments (newTruck (snd (?tail ?s)))) =>
      assert (H : respects keepsCargo tail)
        by (frame_tac;
            first [ apply valveEvent_keeps | apply tiltEvent_keeps ]);
      destruct (H s) as [-> _]; clear H
  end.
  match goal with
  | |- context [mapM ?g ?l ?s] => pose proof (mapM_Forall2 g l s) as Hd
  end.
  destruct (Qltb _ 0.005); simpl.
  - match goal with
    | |- context [theftEvent now truck ?s] =>
        destruct (theftEvent_compartments now truck s) as (stolen & Hs & Ht)
    end.
    simpl in Ht.
    eapply Forall2_compose; [ | exact Hd | exact Ht ].
    intros a b c [s' ->] [-> | ->].
    + apply step_drain.
    + apply step_drain_theft. assumption.
  - eapply Forall2_impl; [ | exact Hd ].
    intros a b [s' ->]. apply step_drain.
Qed.

(** *** The callback as a whole *)

Ltac frame_phases :=
  repeat first
    [ apply stepStatus_keeps | apply refreshTelemetry_keeps
    | apply deliverFuel_keeps | apply offlineEvent_keeps
    | apply addToTrail_keeps | apply randomAlert_keeps
    | apply trackConsumption_keeps
    | apply respects_bind; [ exact _ | | intro ]
    | apply respects_when; [ exact _ | ]
    | apply respects_ret; exact _ ].

Lemma afterTrail_keeps now truck :
  let m := (randomAlert now truck ;; trackConsumption now truck) in
  respects keepsShape m /\ respects keepsCargo m
  /\ respects keepsTrail m /\ respects keepsCaps m.
Proof. cbv zeta. conjs; frame_phases. Qed.

Lemma afterFuel_keeps now truck :
  let m := (offlineEvent now truck ;; addToTrail now truck ;;
            randomAlert now truck ;; trackConsumption now truck) in
  respects keepsShape m /\ respects keepsCargo m /\ respects keepsCaps m.
Proof. cbv zeta. conjs; frame_phases. Qed.

Lemma truckBody_caps now truck : respects keepsCaps (truckBody now truck).
Proof. unfold truckBody. frame_phases. Qed.

(** After the status branch only the drain of a delivering truck touches
    the status, the position, the trip end points, the fuel-loss history,
    the compartments or the assignment. *)
Lemma truckBody_shape now truck f :
  keepsShape (snd (stepStatus now truck f)) (snd (truckBody now truck f)).
Proof.
  unfold truckBody. rewrite bind_run; cbv beta.
  generalize (snd (stepStatus now truck f)).
  change (respects keepsShape
            (refreshTelemetry now truck ;;
             when (Status_eqb (status truck) delivering)
               (deliverFuel now truck) ;;
             offlineEvent now truck ;; addToTrail now truck ;;
             randomAlert now truck ;; trackConsumption now truck)).
  frame_phases.
Qed.

Lemma truckBody_cargo now truck f :
  status truck <> delivering ->
  keepsCargo (snd (stepStatus now truck f)) (snd (truckBody now truck f)).
Proof.
  intros Hs.
  unfold truckBody. rewrite bind_run; cbv beta.
  generalize (snd (stepStatus now truck f)).
  change (respects keepsCargo
            (refreshTelemetry now truck ;;
             when (Status_eqb (status truck) delivering)
               (deliverFuel now truck) ;;
             offlineEvent now truck ;; addToTrail now truck ;;
             randomAlert now truck ;; trackConsumption now truck)).
  assert (E : Status_eqb (status truck) delivering = false)
    by (destruct (status truck); try reflexivity; congruence).
  rewrite E. simpl when.
  frame_phases.
Qed.

Lemma truckBody_trail now truck f :
  let t' := newTruck (snd (truckBody now truck f)) in
  trail t'
  = (slice_last 20 (trail truck)
       ++ [ {| trail_lat := lat (position t');
               trail_lng := lng (position t'); trail_ts := now |} ])%list.
Proof.
  cbv zeta. unfold truckBody.
  do 5 (rewrite bind_run; cbv beta).
  match goal with
  | |- context [addToTrail now truck ?s] => generalize s
  end.
  intros f3.
  destruct (afterTrail_keeps now truck) as (Hshape & _ & Htrail & _).
  cbv zeta in Hshape, Htrail.
  destruct (Hshape (snd (addToTrail now truck f3))) as (_ & -> & _).
  rewrite (Htrail (snd (addToTrail now truck f3))).
  reflexivity.
Qed.

Lemma truckBody_delivering now truck f :
  status truck = delivering ->
  Forall2 (compStep now truck) (compartments truck)
    (compartments (newTruck (snd (truckBody now truck f)))).
Proof.
  intros Hs. unfold truckBody. rewrite Hs. simpl when.
  do 3 (rewrite bind_run; cbv beta).
  destruct (afterFuel_keeps now truck) as (_ & Hcargo & _).
  cbv zeta in Hcargo.
  match goal with
  | |- context [deliverFuel now truck ?s] =>
      destruct (Hcargo (snd (deliverFuel now truck s))) as [-> _]
  end.
  apply deliverFuel_compartments.
Qed.

(** ** Starting a delivery *)

Lemma Qgtb_true (x y : Q) : Qgtb x y = true <-> y < x.
Proof. unfold Qgtb. apply Qltb_true. Qed.

Lemma allocateTarget_step (comp : Compartment) (s : Frame) :
  0 <= remainingToAssign s ->
  let c' := fst (allocateTarget comp s) in
  let s' := snd (allocateTarget comp s) in
  0 <= remainingToAssign s'
  /\ orZero (targetDelivery c') + remainingToAssign s'
     == remainingToAssign s
  /\ (isOffloading c' = true <-> 0 < orZero (targetDelivery c')).
Proof.
  intros Hrem. cbv zeta. unfold allocateTarget.
  rewrite bind_run; cbv beta. simpl gets. cbn [fst snd].
  match goal with
  | |- context [if ?c then _ else _] => destruct c
  end.
  - run. simpl.
    set (amount := Qmin (Qmin _ _) _).
    assert (Hle : amount <= remainingToAssign s).
    { unfold amount.
      eapply Qle_trans; [ apply Q.le_min_l | apply Q.le_min_l ]. }
    split; [ lra | ]. split; [ lra | ].
    apply Qgtb_true.
  - run. simpl. split; [ assumption | ]. split; [ lra | ].
    split; [ discriminate | intros H; lra ].
Qed.

(** The targets handed out by the [map] add up to what was taken from
    [remainingToAssign], which never goes below 0. *)
Lemma allocateTarget_all (l : list Compartment) (s : Frame) :
  0 <= remainingToAssign s ->
  let r := mapM allocateTarget l s in
  0 <= remainingToAssign (snd r)
  /\ sumTargets (fst r) + remainingToAssign (snd r) == remainingToAssign s
  /\ Forall (fun c => isOffloading c = true <-> 0 < orZero (targetDelivery c))
       (fst r).
Proof.
  revert s. induction l as [| c cs IH]; intros s Hrem; cbv zeta.
  - simpl. split; [ assumption | ]. split; [ lra | constructor ].
  - cbn [mapM]. run. cbn [fst snd ret].
    destruct (allocateTarget_step c s Hrem) as (H1 & H2 & H3).
    cbv zeta in H1, H2, H3.
    destruct (IH _ H1) as (I1 & I2 & I3). cbv zeta in I1, I2, I3.
    split; [ assumption | ]. split.
    + cbn [sumTargets fold_right]. fold (sumTargets (fst (mapM allocateTarget cs (snd (allocateTarget c s))))).
      lra.
    + constructor; assumption.
Qed.

Lemma random_total_range (k : nat) :
  2500 <= js_floor (random k * 2500) + 2500
  /\ js_floor (random k * 2500) + 2500 < 5000.
Proof.
  destruct (random_range k) as [H0 H1]. split.
  - pose proof (random_scaled_nonneg k 2500). lra.
  - pose proof (Qfloor_le (random k * 2500)). unfold js_floor. lra.
Qed.

Lemma startDelivery_result now truck f :
  let total := js_floor (random (cursor (fx f)) * 2500) + 2500 in
  let t' := newTruck (snd (startDelivery now truck f)) in
  status t' = delivering
  /\ (exists a, currentAssignment t' = Some a /\ assignedLiters a = total
                /\ provisionalLossLiters a = 0)
  /\ sumTargets (compartments t') <= total
  /\ Forall (fun c => isOffloading c = true <-> 0 < orZero (targetDelivery c))
       (compartments t')
  /\ Forall2 (compStep now truck) (compartments truck) (compartments t').
Proof.
  cbv zeta. unfold startDelivery.
  run. simpl.
  set (s0 := set_perComp [] _).
  assert (Hrem : 0 <= remainingToAssign s0).
  { simpl. pose proof (random_total_range (cursor (fx f))). lra. }
  destruct (allocateTarget_all (compartments truck) s0 Hrem) as (A1 & A2 & A3).
  cbv zeta in A1, A2, A3.
  pose proof (mapM_Forall2 allocateTarget (compartments truck) s0) as A4.
  assert (Hstatus : status (newTruck (snd (mapM allocateTarget (compartments truck) s0))) = delivering).
  { destruct (respects_mapM keepsShape allocateTarget (compartments truck)
                (fun a => proj1 (allocateTarget_keeps a)) s0) as (E & _).
    rewrite E. reflexivity. }
  split; [ exact Hstatus | ]. split.
  - eexists. split; [ reflexivity | ]. split; reflexivity.
  - split; [ simpl in A2; lra | ]. split; [ exact A3 | ].
    eapply Forall2_impl; [ | exact A4 ].
    intros a b [s' ->]. apply step_allocate.
Qed.

(** ** Uplifting *)

Lemma refill_result now comp s :
  let c' := fst (refill now comp s) in
  let fill := js_floor (random (cursor (fx s)) * 40) + 40 in
  capacity c' = capacity comp
  /\ 40 <= fill
  /\ currentLevel c'
     = (if Qltb (currentLevel comp) (capacity comp * 0.98)
        then Qmin (capacity comp) (currentLevel comp + fill)
        else currentLevel comp).
Proof.
  cbv zeta. split; [ | split ].
  - unfold refill. destruct (Qltb _ _); run; reflexivity.
  - pose proof (random_scaled_nonneg (cursor (fx s)) 40). lra.
  - unfold refill. destruct (Qltb _ _); run; reflexivity.
Qed.

Lemma refill_progress now comp s (n : nat) :
  shortBy (S n) comp -> shortBy n (fst (refill now comp s)).
Proof.
  intros [Hcap Hshort].
  destruct (refill_result now comp s) as (Ec & Hfill & El).
  cbv zeta in Ec, Hfill, El.
  unfold shortBy. rewrite Ec, El. split; [ assumption | ].
  assert (Hn : 0 <= inject_Z (Z.of_nat n)).
  { change 0 with (inject_Z 0). rewrite <- Zle_Qle. lia. }
  assert (HS : inject_Z (Z.of_nat (S n)) == inject_Z (Z.of_nat n) + 1).
  { rewrite Nat2Z.inj_succ. unfold Z.succ. rewrite inject_Z_plus.
    reflexivity. }
  rewrite HS in Hshort.
  destruct (Qltb _ _) eqn:E.
  - destruct (Q.min_spec (capacity comp)
                (currentLevel comp
                 + (js_floor (random (cursor (fx s)) * 40) + 40)))
      as [[Hlt ->] | [Hle ->]]; lra.
  - apply Qltb_false in E. lra.
Qed.

Lemma shortBy_zero_full (c : Compartment) :
  shortBy 0 c -> Qgeb (currentLevel c) (capacity c * 0.95) = true.
Proof.
  intros [_ H]. unfold Qgeb. apply Qle_bool_iff.
  change (inject_Z (Z.of_nat 0)) with 0 in H. lra.
Qed.

Lemma uplift_result now truck f :
  let t' := newTruck (snd (uplift now truck f)) in
  Forall2 (fun c c' => exists s, c' = fst (refill now c s))
    (compartments truck) (compartments t')
  /\ (if forallb (fun comp =>
                    Qgeb (currentLevel comp) (capacity comp * 0.95))
           (compartments t')
      then idleAndCleared t'
      else status t' = status (newTruck f)).
Proof.
  cbv zeta. unfold uplift.
  do 4 (rewrite bind_run; cbv beta).
  set (s0 := snd (modify (set_anyRefilled false) f)).
  pose proof (mapM_Forall2 (refill now) (compartments truck) s0) as HF.
  set (comps := fst (mapM (refill now) (compartments truck) s0)) in *.
  set (s1 := snd (mapM (refill now) (compartments truck) s0)).
  assert (Hshape : keepsShape s0 s1).
  { apply (respects_mapM keepsShape). intros a. apply refill_keeps. }
  cbn [gets fst snd updTruck modify newTruck set_newTruck compartments
       set_compartments].
  destruct (forallb _ comps) eqn:Efull; cbn [when].
  - run. cbn. rewrite Efull. split; [ exact HF | ].
    repeat split.
  - cbn. rewrite Efull. split; [ exact HF | ].
    destruct Hshape as (E & _). rewrite E. reflexivity.
Qed.

(** ** One truck, one tick *)

Lemma tickTruck_compartments now truck e :
  Forall2 (compStep now truck) (compartments truck)
    (compartments (fst (tickTruck now truck e))).
Proof.
  unfold tickTruck. cbn [fst].
  destruct (status truck) eqn:Es.
  3:{ apply truckBody_delivering. assumption. }
  all: destruct (truckBody_cargo now truck (initFrame e truck)) as [-> _];
    [ congruence | ].
  all: unfold stepStatus; rewrite Es.
  - destruct (drift_keeps truck) as (Hc & _).
    destruct (Hc (initFrame e truck)) as [-> _].
    apply Forall2_same. intros c. apply step_same.
  - apply startDelivery_result.
  - destruct (uplift_result now truck (initFrame e truck)) as [HF _].
    eapply Forall2_impl; [ | exact HF ].
    intros a b [s' ->]. apply step_refill.
  - unfold moveToUplifting. run. cbn.
    apply Forall2_map_r. intros c. apply step_reset.
Qed.

Lemma tickTruck_trail now truck e :
  let t' := fst (tickTruck now truck e) in
  trail t'
  = (slice_last 20 (trail truck)
       ++ [ {| trail_lat := lat (position t');
               trail_lng := lng (position t'); trail_ts := now |} ])%list.
Proof. apply truckBody_trail. Qed.

Lemma tickTruck_caps now truck e :
  ((List.length (fx_alerts e) <= 50)%nat ->
   (List.length (fx_alerts (snd (tickTruck now truck e))) <= 50)%nat)
  /\ ((List.length (fx_history e) <= 500)%nat ->
      (List.length (fx_history (snd (tickTruck now truck e))) <= 500)%nat).
Proof. apply (truckBody_caps now truck (initFrame e truck)). Qed.

Lemma tickTruck_assigned now truck e :
  status truck = assigned ->
  let t' := fst (tickTruck now truck e) in
  status t' = delivering
  /\ (exists a, currentAssignment t' = Some a
        /\ 2500 <= assignedLiters a /\ assignedLiters a < 5000
        /\ provisionalLossLiters a = 0
        /\ sumTargets (compartments t') <= assignedLiters a)
  /\ Forall (fun c => isOffloading c = true <-> 0 < orZero (targetDelivery c))
       (compartments t').
Proof.
  intros Es. cbv zeta. unfold tickTruck. cbn [fst].
  destruct (truckBody_shape now truck (initFrame e truck)) as (-> & _).
  destruct (truckBody_cargo now truck (initFrame e truck)) as (-> & ->);
    [ congruence | ].
  unfold stepStatus. rewrite Es.
  destruct (startDelivery_result now truck (initFrame e truck))
    as (H1 & (a & Ha & Ht & Hl) & H3 & H4 & _).
  cbv zeta in H1, Ha, Ht, H3, H4.
  split; [ exact H1 | ]. split; [ | exact H4 ].
  exists a. split; [ exact Ha | ].
  rewrite Ht.
  pose proof (random_total_range (cursor (fx (initFrame e truck)))) as [R1 R2].
  repeat split; assumption.
Qed.

Lemma drift_shape truck f :
  let t' := newTruck (snd (drift truck f)) in
  status t' = status (newTruck f)
  /\ destination t' = destination (newTruck f)
  /\ startPoint t' = startPoint (newTruck f).
Proof. cbv zeta. unfold drift. run. repeat split. Qed.

Lemma tickTruck_idle now truck e :
  idleAndCleared truck -> idleAndCleared (fst (tickTruck now truck e)).
Proof.
  intros (Es & Ed & Ep). unfold idleAndCleared, tickTruck. cbn [fst].
  destruct (truckBody_shape now truck (initFrame e truck))
    as (-> & _ & -> & -> & _).
  unfold stepStatus. rewrite Es.
  destruct (drift_shape truck (initFrame e truck)) as (-> & -> & ->).
  cbn. auto.
Qed.

Lemma tickTruck_uplifting now truck e (n : nat) :
  status truck = uplifting ->
  Forall (shortBy (S n)) (compartments truck) ->
  let t' := fst (tickTruck now truck e) in
  (n = 0%nat -> idleAndCleared t')
  /\ (idleAndCleared t'
      \/ (status t' = uplifting /\ Forall (shortBy n) (compartments t'))).
Proof.
  intros Es Hshort. cbv zeta. unfold idleAndCleared, tickTruck. cbn [fst].
  destruct (truckBody_shape now truck (initFrame e truck))
    as (-> & _ & -> & -> & _).
  destruct (truckBody_cargo now truck (initFrame e truck)) as (-> & _);
    [ congruence | ].
  unfold stepStatus. rewrite Es.
  destruct (uplift_result now truck (initFrame e truck)) as [HF Hst].
  cbv zeta in HF, Hst.
  set (t1 := newTruck (snd (uplift now truck (initFrame e truck)))) in *.
  assert (Hn : Forall (shortBy n) (compartments t1)).
  { clear Hst. induction HF as [| c c' l l' [s ->] _ IH]; [ constructor | ].
    inversion Hshort; subst. constructor.
    - apply refill_progress. assumption.
    - apply IH. assumption. }
  destruct (forallb _ (compartments t1)) eqn:Efull.
  - split; [ intros _; exact Hst | left; exact Hst ].
  - split.
    + intros ->. exfalso.
      assert (Ht : forallb
                (fun comp => Qgeb (currentLevel comp) (capacity comp * 0.95))
                (compartments t1) = true).
      { apply forallb_forall. intros c Hin.
        apply shortBy_zero_full.
        rewrite Forall_forall in Hn. apply Hn. assumption. }
      congruence.
    + right. split; [ | exact Hn ].
      rewrite Hst. cbn. exact Es.
Qed.

(** ** Completing a trip *)

Lemma moveToDestination_result now truck dest f :
  let newPos :=
    {| lat := lat (position truck)
              + (dest_lat dest - lat (position truck)) * 0.01
              + (random (cursor (fx f)) - 0.5) * 0.001;
       lng := lng (position truck)
              + (dest_lng dest - lng (position truck)) * 0.01
              + (random (S (cursor (fx f))) - 0.5) * 0.001 |} in
  let f' := snd (moveToDestination now truck dest f) in
  position (newTruck f') = newPos
  /\ (reachedDestination newPos dest = false ->
      status (newTruck f') = status (newTruck f)
      /\ fx_history (fx f') = fx_history (fx f))
  /\ (reachedDestination newPos dest = true ->
      status (newTruck f') = completed
      /\ match currentAssignment (newTruck f) with
         | Some a =>
             fx_history (fx f')
             = (slice_last 499 (fx_history (fx f))
                  ++ [ {| fl_timestamp := now;
                          fl_truckId := truck_id truck;
                          fl_assignedLiters := assignedLiters a;
                          fl_deliveredLiters :=
                            sumDelivered (compartments (newTruck f));
                          fl_lossLiters := provisionalLossLiters a;
                          fl_lossPercent :=
                            if Qgtb (assignedLiters a) 0
                            then provisionalLossLiters a / assignedLiters a
                                 * 100
                            else 0 |} ])%list
         | None => fx_history (fx f') = fx_history (fx f)
         end).
Proof.
  cbv zeta. unfold moveToDestination.
  do 3 (rewrite bind_run; cbv beta).
  cbn [mathRandom fst snd fx set_fx nextDrawFx cursor].
  set (newPos := {| lat := _; lng := _ |}).
  destruct (reachedDestination newPos dest) eqn:Er; cbn [when].
  - split; [ | split; [ discriminate | intros _ ] ].
    + unfold completeTrip. run. cbn.
      destruct (currentAssignment (newTruck f)); run;
        [ destruct (Qgtb _ 2.5) | ]; reflexivity.
    + unfold completeTrip. run. cbn.
      destruct (currentAssignment (newTruck f)) as [a |]; run; cbn.
      * destruct (Qgtb _ 2.5); cbn; split; reflexivity.
      * split; reflexivity.
  - split; [ reflexivity | ].
    split; [ intros _; split; reflexivity | discriminate ].
Qed.

(** ** The fleet *)

Lemma Forall2_nth_error_l {A B} (R : A -> B -> Prop) (l : list A)
    (l' : list B) (i : nat) (a : A) :
  Forall2 R l l' -> nth_error l i = Some a ->
  exists b, nth_error l' i = Some b /\ R a b.
Proof.
  intros H. revert i. induction H as [| x y l l' Hxy _ IH]; intros i Hi.
  - destruct i; discriminate.
  - destruct i as [| i]; simpl in *.
    + injection Hi as <-. exists y. split; [ reflexivity | assumption ].
    + apply IH. assumption.
Qed.

Lemma tick_trucks now w :
  Forall2 (fun t t' => exists e, t' = fst (tickTruck now t e))
    (trucks w) (trucks (tick now w)).
Proof. unfold tick. cbn [trucks]. apply mapM_Forall2. Qed.

Lemma tick_nth now w i t :
  nth_error (trucks w) i = Some t ->
  exists e, nth_error (trucks (tick now w)) i
            = Some (fst (tickTruck now t e)).
Proof.
  intros Hi.
  destruct (Forall2_nth_error_l _ _ _ _ _ (tick_trucks now w) Hi)
    as (t' & Ht' & e & ->).
  exists e. assumption.
Qed.

Lemma allocateTarget_fields comp s :
  let c' := fst (allocateTarget comp s) in
  capacity c' = capacity comp
  /\ currentLevel c' = currentLevel comp
  /\ deliveredLiters c' = Some 0.
Proof.
  cbv zeta. unfold allocateTarget. rewrite bind_run; cbv beta.
  match goal with
  | |- context [if ?c then _ else _] => destruct c
  end; run; repeat split.
Qed.

Lemma refill_fields now comp s :
  let c' := fst (refill now comp s) in
  targetDelivery c' = targetDelivery comp /\ deliveredLiters c' = Some 0.
Proof.
  cbv zeta. unfold refill. destruct (Qltb _ _); run; split; reflexivity.
Qed.

Lemma Qmin3_le (x y z : Q) :
  Qmin3 x y z <= x /\ Qmin3 x y z <= y /\ Qmin3 x y z <= z.
Proof.
  unfold Qmin3.
  pose proof (Q.le_min_l (Qmin x y) z). pose proof (Q.le_min_r (Qmin x y) z).
  pose proof (Q.le_min_l x y). pose proof (Q.le_min_r x y).
  repeat split; lra.
Qed.

(** Every change a tick makes to a compartment keeps its level between 0
    and its capacity. *)
Lemma compStep_level now truck c c' :
  compStep now truck c c' ->
  levelWithinCapacity c -> levelWithinCapacity c'.
Proof.
  assert (Hdrain : forall s, levelWithinCapacity c ->
            levelWithinCapacity (fst (drain now truck c s))).
  { intros s [H0 H1]. unfold levelWithinCapacity.
    destruct (drain_result now truck c s)
      as [-> | (_ & _ & _ & Hm & -> & _ & -> & _)]; [ split; assumption | ].
    match type of Hm with
    | 0 < Qmin3 ?x ?y ?z => destruct (Qmin3_le x y z) as (_ & _ & Hz)
    end.
    split; lra. }
  intros Hstep [H0 H1]. destruct Hstep; unfold levelWithinCapacity.
  - split; assumption.
  - destruct (allocateTarget_fields c s) as (-> & -> & _).
    split; assumption.
  - destruct (refill_result now c s) as (Ec & Hfill & El).
    cbv zeta in Ec, Hfill, El. unfold levelWithinCapacity.
    rewrite Ec, El. destruct (Qltb _ _); [ | split; assumption ].
    match goal with
    | |- context [Qmin ?x ?y] =>
        destruct (Q.min_spec x y) as [[Hlt ->] | [Hle ->]]
    end; split; lra.
  - split; assumption.
  - apply (Hdrain s). split; assumption.
  - destruct (Hdrain s (conj H0 H1)) as [D0 D1].
    cbn [currentLevel capacity set_currentLevel].
    match goal with
    | |- context [Qmax ?x ?y] =>
        destruct (Q.max_spec x y) as [[Hlt ->] | [Hle ->]]
    end; split; lra.
Qed.

(** Every change a tick makes to a compartment leaves [deliveredLiters]
    at or below a positive [targetDelivery]. *)
Lemma compStep_delivered now truck c c' :
  compStep now truck c c' ->
  deliveredWithinTarget c -> deliveredWithinTarget c'.
Proof.
  assert (Hdrain : forall s, deliveredWithinTarget c ->
            deliveredWithinTarget (fst (drain now truck c s))).
  { intros s Hc. unfold deliveredWithinTarget.
    destruct (drain_result now truck c s)
      as [-> | (_ & _ & _ & Hm & _ & -> & _ & -> & _)]; [ exact Hc | ].
    match type of Hm with
    | 0 < Qmin3 ?x ?y ?z => destruct (Qmin3_le x y z) as (_ & Hy & _)
    end.
    intros _. cbn [orZero]. lra. }
  intros Hstep Hc. destruct Hstep.
  - exact Hc.
  - destruct (allocateTarget_fields c s) as (_ & _ & E).
    unfold deliveredWithinTarget. rewrite E. cbn [orZero]. intros H. lra.
  - destruct (refill_fields now c s) as (Et & Ed).
    unfold deliveredWithinTarget. rewrite Et, Ed. cbn [orZero]. intros H. lra.
  - unfold deliveredWithinTarget. cbn. intros H. lra.
  - apply Hdrain. exact Hc.
  - apply (Hdrain s) in Hc. exact Hc.
Qed.

Lemma assignTrip_compartments truckId dest (l : list Truck) :
  map compartments (assignTrip truckId dest l) = map compartments l.
Proof.
  unfold assignTrip. rewrite map_map. apply map_ext.
  intros t. destruct (String.eqb _ _); reflexivity.
Qed.

Lemma step_preserves (K : Compartment -> Prop) :
  (forall now truck c c', compStep now truck c c' -> K c -> K c') ->
  forall w ev, fleetInvariant K w -> fleetInvariant K (step w ev).
Proof.
  intros HK w ev Hw. unfold fleetInvariant in *. destruct ev; cbn [step].
  - pose proof (tick_trucks now w) as HF.
    induction HF as [| t t' l l' [e ->] _ IH]; [ constructor | ].
    inversion Hw; subst. constructor; [ | apply IH; assumption ].
    pose proof (tickTruck_compartments now t e) as HC.
    match goal with H : Forall K (compartments t) |- _ => revert H end.
    induction HC; intros HKt; [ constructor | ].
    inversion HKt; subst. constructor; eauto.
  - cbn [trucks].
    rewrite <- (Forall_map compartments (Forall K)),
      assignTrip_compartments, Forall_map.
    exact Hw.
  - exact Hw.
Qed.

Lemma run_preserves (K : Compartment -> Prop) :
  (forall now truck c c', compStep now truck c c' -> K c -> K c') ->
  forall evs w, fleetInvariant K w -> fleetInvariant K (run w evs).
Proof.
  intros HK evs. induction evs as [| ev evs IH]; intros w Hw; cbn.
  - exact Hw.
  - apply IH. apply step_preserves; assumption.
Qed.

Lemma tick_caps now w : streamsCapped w -> streamsCapped (tick now w).
Proof.
  unfold streamsCapped, tick. cbn [alerts fuelLossHistory].
  assert (H : forall l e,
            (List.length (fx_alerts e) <= 50)%nat
            /\ (List.length (fx_history e) <= 500)%nat ->
            (List.length (fx_alerts (snd (mapM (tickTruck now) l e))) <= 50)%nat
            /\ (List.length (fx_history (snd (mapM (tickTruck now) l e)))
                <= 500)%nat).
  { induction l as [| t l IH]; intros e He; [ exact He | ].
    cbn [mapM]. run. cbn [ret snd].
    apply IH. destruct He as [Ha Hh].
    destruct (tickTruck_caps now t e) as [Ca Ch]. split; auto. }
  intros Hw. apply H. exact Hw.
Qed.

Lemma run_caps (evs : list Event) (w : World) :
  streamsCapped w -> streamsCapped (run w evs).
Proof.
  revert w. induction evs as [| ev evs IH]; intros w Hw; cbn.
  - exact Hw.
  - apply IH. destruct ev; cbn [step].
    + apply tick_caps. exact Hw.
    + exact Hw.
    + destruct Hw as [Ha Hh]. split; [ | exact Hh ].
      cbn [alerts]. unfold acknowledgeAlert. rewrite length_map. exact Ha.
Qed.

(** The trail after a tick: the last 20 points of the trail before it,
    then the new position. *)
Lemma trail_length_after_tick now truck e :
  List.length (trail (fst (tickTruck now truck e)))
  = S (Nat.min 20 (List.length (trail truck))).
Proof.
  rewrite tickTruck_trail.
  rewrite length_app, slice_last_length. cbn [List.length]. lia.
Qed.

Lemma tick_trail_lengths now w :
  map (fun t => List.length (trail t)) (trucks (tick now w))
  = map (fun L => S (Nat.min 20 L))
      (map (fun t => List.length (trail t)) (trucks w)).
Proof.
  pose proof (tick_trucks now w) as HF.
  induction HF as [| t t' l l' [e ->] _ IH]; cbn [map]; [ reflexivity | ].
  rewrite trail_length_after_tick, IH. reflexivity.
Qed.

(** After [n] ticks a trail that held [L] entries holds the [n]-th
    iterate of [L |-> 1 + min(20, L)]. *)
Lemma ticks_trail_lengths (nows : list Z) (w : World) :
  map (fun t => List.length (trail t)) (trucks (run w (map Tick nows)))
  = map (Nat.iter (List.length nows) (fun L => S (Nat.min 20 L)))
      (map (fun t => List.length (trail t)) (trucks w)).
Proof.
  revert w. induction nows as [| now nows IH]; intros w.
  - cbn. rewrite map_id. reflexivity.
  - cbn [map run fold_left step List.length].
    change (fold_left step (map Tick nows) (tick now w))
      with (run (tick now w) (map Tick nows)).
    rewrite IH, tick_trail_lengths, map_map. apply map_ext.
    intros L. rewrite Nat.iter_succ_r. reflexivity.
Qed.

(** ** The claims about the engine *)

(** C1 (amended).  A truck that is [assigned] at the start of a tick is
    [delivering] after it, whatever else holds of the truck, and has a
    [currentAssignment] whose [assignedLiters] is at least 2500 and below
    5000.  The delivery targets given to its compartments on that tick add
    up to at most [assignedLiters], and a compartment is marked
    [isOffloading] exactly when its target is positive. *)
Theorem assigned_tick_starts_delivery (w : World) (now : Z) (i : nat)
    (truck : Truck) :
  nth_error (trucks w) i = Some truck ->
  status truck = assigned ->
  exists t',
    nth_error (trucks (tick now w)) i = Some t'
    /\ status t' = delivering
    /\ (exists a, currentAssignment t' = Some a
          /\ 2500 <= assignedLiters a /\ assignedLiters a < 5000
          /\ sumTargets (compartments t') <= assignedLiters a)
    /\ Forall (fun c => isOffloading c = true
                        <-> 0 < orZero (targetDelivery c))
         (compartments t').
Proof.
  intros Hi Hs.
  destruct (tick_nth now w i truck Hi) as (e & He).
  exists (fst (tickTruck now truck e)). split; [ exact He | ].
  destruct (tickTruck_assigned now truck e Hs)
    as (H1 & (a & Ha & Hlo & Hhi & _ & Hsum) & H3).
  split; [ exact H1 | ]. split; [ | exact H3 ].
  exists a. repeat split; assumption.
Qed.

(** C2.  After 20 ticks of the seed fleet, whatever the draws, the trail
    of every truck holds 21 entries, one more than the 20 the claim
    allows: the tick keeps the last 20 entries and then adds one. *)
Theorem trail_holds_21_entries :
  Forall (fun t => List.length (trail t) = 21%nat
                   /\ ~ (List.length (trail t) <= 20)%nat)
    (trucks (run seedFleet (everyTick 20))).
Proof.
  assert (E : map (fun t => List.length (trail t))
                (trucks (run seedFleet (everyTick 20)))
              = [21; 21; 21; 21; 21]%nat).
  { unfold everyTick. rewrite ticks_trail_lengths. reflexivity. }
  rewrite <- (Forall_map (fun t => List.length (trail t))
                (fun n => n = 21%nat /\ ~ (n <= 20)%nat)).
  rewrite E. repeat constructor; lia.
Qed.

(** C3.  If every compartment of every truck has
    [0 <= currentLevel <= capacity], the same holds after any sequence of
    ticks and commands: draining stops at the reserve, a theft stops at 0
    and a refill stops at the capacity. *)
Theorem levels_stay_within_capacity (w : World) (evs : list Event) :
  fleetInvariant levelWithinCapacity w ->
  fleetInvariant levelWithinCapacity (run w evs).
Proof.
  apply run_preserves.
  intros now truck c c'. apply compStep_level.
Qed.

(** C4.  The drain of a compartment either leaves it as it is or moves
    the positive amount
    [min(drainRate, targetDelivery - deliveredLiters, currentLevel - 0.05 * capacity)]
    from [currentLevel] to [deliveredLiters]; and if every compartment
    with a (positive) target has [deliveredLiters <= targetDelivery], the
    same holds after any sequence of ticks and commands. *)
Theorem delivered_never_exceeds_target :
  (forall now truck comp f,
      let c' := fst (drain now truck comp f) in
      let m := Qmin3 (js_floor (random (cursor (fx f)) * 40) + 20)
                 (orZero (targetDelivery comp)
                  - orZero (deliveredLiters comp))
                 (currentLevel comp - capacity comp * 0.05) in
      c' = comp
      \/ (0 < m
          /\ currentLevel c' = currentLevel comp - m
          /\ deliveredLiters c' = Some (orZero (deliveredLiters comp) + m)
          /\ targetDelivery c' = targetDelivery comp
          /\ orZero (deliveredLiters c') <= orZero (targetDelivery c')))
  /\ (forall w evs,
         fleetInvariant deliveredWithinTarget w ->
         fleetInvariant deliveredWithinTarget (run w evs)).
Proof.
  split.
  - intros now truck comp f. cbv zeta.
    destruct (drain_result now truck comp f)
      as [E | (_ & _ & _ & Hm & El & Ed & _ & Et & _)];
      [ left; exact E | right ].
    cbv zeta in Hm, El, Ed, Et.
    split; [ exact Hm | ]. split; [ exact El | ]. split; [ exact Ed | ].
    split; [ exact Et | ].
    rewrite Ed, Et. cbn [orZero].
    match type of Hm with
    | 0 < Qmin3 ?x ?y ?z => destruct (Qmin3_le x y z) as (_ & Hy & _)
    end.
    lra.
  - intros w evs. apply run_preserves.
    intros now truck c c'. apply compStep_delivered.
Qed.

(** C5 (amended).  A tick in which a delivering truck comes within the
    threshold of its destination completes the trip.  If the truck has a
    [currentAssignment], the tick appends exactly one entry to the
    fuel-loss history (dropping the oldest beyond 500); the entry carries
    the assigned litres and the provisional loss of the assignment, and
    for positive [assignedLiters] its [lossPercent] is
    [lossLiters / assignedLiters * 100].  If the truck has no
    [currentAssignment], the history is left as it is. *)
Theorem trip_completion_appends_history (now : Z) (truck : Truck)
    (e : Effects) (dest : Destination) :
  status truck = delivering ->
  destination truck = Some dest ->
  reachedDestination (position (fst (tickTruck now truck e))) dest = true ->
  status (fst (tickTruck now truck e)) = completed
  /\ match currentAssignment truck with
     | Some a =>
         exists entry,
           fx_history (snd (tickTruck now truck e))
           = (slice_last 499 (fx_history e) ++ [entry])%list
           /\ fl_truckId entry = truck_id truck
           /\ fl_assignedLiters entry = assignedLiters a
           /\ fl_lossLiters entry = provisionalLossLiters a
           /\ (0 < assignedLiters a ->
               fl_lossPercent entry
               == fl_lossLiters entry / fl_assignedLiters entry * 100)
     | None => fx_history (snd (tickTruck now truck e)) = fx_history e
     end.
Proof.
  intros Hs Hd. unfold tickTruck. cbn [fst snd].
  destruct (truckBody_shape now truck (initFrame e truck))
    as (-> & -> & _ & _ & ->).
  unfold stepStatus. rewrite Hs, Hd.
  destruct (moveToDestination_result now truck dest (initFrame e truck))
    as (Hp & _ & Hreach).
  cbv zeta in Hp, Hreach. rewrite Hp. intros Hr.
  destruct (Hreach Hr) as (Hst & Hh).
  cbn [newTruck initFrame fx] in Hh.
  split; [ exact Hst | ].
  destruct (currentAssignment truck) as [a |]; [ | exact Hh ].
  eexists. split; [ exact Hh | ].
  cbn [fl_truckId fl_assignedLiters fl_lossLiters fl_lossPercent].
  repeat split.
  intros Hpos. apply Qgtb_true in Hpos. rewrite Hpos. reflexivity.
Qed.

(** C6 (amended).  A truck that is [uplifting], with compartments of
    non-negative capacity, is [idle] with [destination] and [startPoint]
    cleared after any number of ticks that is at least 1 and at least the
    worst case over its compartments of
    [ceil((capacity * 0.95 - currentLevel) / 40)], for every sequence of
    draws. *)
Theorem uplifting_reaches_idle (w : World) (i : nat) (truck : Truck)
    (nows : list Z) :
  nth_error (trucks w) i = Some truck ->
  status truck = uplifting ->
  Forall (fun c => 0 <= capacity c) (compartments truck) ->
  (Nat.max 1 (upliftBound truck) <= List.length nows)%nat ->
  exists t',
    nth_error (trucks (run w (map Tick nows))) i = Some t'
    /\ idleAndCleared t'.
Proof.
  intros Hi Hs Hcap Hlen.
  assert (Hgen : forall (l : list Z) (w0 : World) (t : Truck) (n : nat),
            nth_error (trucks w0) i = Some t ->
            idleAndCleared t
            \/ (status t = uplifting /\ Forall (shortBy n) (compartments t)
                /\ (1 <= n <= List.length l)%nat) ->
            exists t', nth_error (trucks (run w0 (map Tick l))) i = Some t'
                       /\ idleAndCleared t').
  { induction l as [| now l IH]; intros w0 t n Ht Hgood.
    - destruct Hgood as [Hidle | (_ & _ & Hn)]; [ | cbn in Hn; lia ].
      exists t. split; assumption.
    - cbn [map run fold_left step].
      destruct (tick_nth now w0 i t Ht) as (e & He).
      change (fold_left step (map Tick l) (tick now w0))
        with (run (tick now w0) (map Tick l)).
      destruct Hgood as [Hidle | (Hst & Hshort & Hn)].
      + apply (IH _ _ 0%nat He). left. apply tickTruck_idle. exact Hidle.
      + destruct n as [| n]; [ lia | ].
        destruct (tickTruck_uplifting now t e n Hst Hshort) as (H0 & Hor).
        cbv zeta in H0, Hor.
        destruct Hor as [Hidle | (Hup & Hsh)].
        * apply (IH _ _ 0%nat He). left. exact Hidle.
        * destruct n as [| n].
          -- apply (IH _ _ 0%nat He). left. apply H0. reflexivity.
          -- apply (IH _ _ (S n) He). right.
             split; [ exact Hup | ]. split; [ exact Hsh | ].
             cbn [List.length] in Hn. lia. }
  apply (Hgen nows w truck (Nat.max 1 (upliftBound truck)) Hi).
  right. split; [ exact Hs | ]. split; [ | lia ].
  assert (Hb : forall c, In c (compartments truck) ->
                 (ticksNeeded c <= Z.of_nat (upliftBound truck))%Z).
  { unfold upliftBound.
    induction (compartments truck) as [| c0 cs IHc]; intros c Hin;
      [ destruct Hin | ].
    cbn [fold_right]. rewrite Z2Nat.id.
    - destruct Hin as [<- | Hin]; [ lia | ].
      inversion Hcap; subst.
      specialize (IHc ltac:(assumption) c Hin).
      rewrite Z2Nat.id in IHc; [ lia | ].
      clear. induction cs; cbn; lia.
    - assert (0 <= fold_right (fun c1 acc => Z.max (ticksNeeded c1) acc) 0 cs)%Z
        by (clear; induction cs; cbn; lia).
      lia. }
  rewrite Forall_forall in Hcap |- *. intros c Hin.
  split; [ apply Hcap; exact Hin | ].
  specialize (Hb c Hin). unfold ticksNeeded in Hb.
  pose proof (Qle_ceiling ((capacity c * 0.95 - currentLevel c) / 40)) as Hc.
  assert (Hle : inject_Z (Qceiling ((capacity c * 0.95 - currentLevel c) / 40))
                <= inject_Z (Z.of_nat (Nat.max 1 (upliftBound truck)))).
  { rewrite <- Zle_Qle. lia. }
  assert (Hdiv : (capacity c * 0.95 - currentLevel c) / 40 * 40
                 == capacity c * 0.95 - currentLevel c) by (field).
  lra.
Qed.

(** C7.  [assignTrip] leaves the fleet as it is when no truck has the
    given id; otherwise every truck with that id, whatever its status,
    becomes [assigned] with the given destination and its current position
    as [startPoint], all its other fields staying as they are, and every
    other truck is unchanged. *)
Theorem assignTrip_spec (truckId : string) (dest : Destination)
    (w : World) :
  ((forall t, In t (trucks w) -> truck_id t <> truckId) ->
   step w (AssignTrip truckId dest) = w)
  /\ List.length (trucks (step w (AssignTrip truckId dest)))
     = List.length (trucks w)
  /\ alerts (step w (AssignTrip truckId dest)) = alerts w
  /\ fuelLossHistory (step w (AssignTrip truckId dest)) = fuelLossHistory w
  /\ (forall i t,
        nth_error (trucks w) i = Some t ->
        exists t',
          nth_error (trucks (step w (AssignTrip truckId dest))) i = Some t'
          /\ (truck_id t <> truckId -> t' = t)
          /\ (truck_id t = truckId ->
              status t' = assigned
              /\ destination t' = Some dest
              /\ startPoint t' = Some (position t)
              /\ truck_id t' = truck_id t /\ name t' = name t
              /\ driver t' = driver t /\ client t' = client t
              /\ position t' = position t
              /\ compartments t' = compartments t
              /\ telemetry t' = telemetry t /\ logs t' = logs t
              /\ truck_alerts t' = truck_alerts t /\ trail t' = trail t
              /\ currentAssignment t' = currentAssignment t
              /\ lastTripSummary t' = lastTripSummary t)).
Proof.
  cbn [step trucks alerts fuelLossHistory]. unfold assignTrip.
  split; [ | split; [ apply length_map | ] ].
  - intros Hno. destruct w as [ts al sv fc fh dr]. cbn in *. f_equal.
    induction ts as [| t ts IH]; [ reflexivity | ]. cbn [map].
    rewrite IH by (intros t0 Hin; apply Hno; right; exact Hin).
    assert (E : String.eqb (truck_id t) truckId = false)
      by (apply String.eqb_neq; apply Hno; left; reflexivity).
    rewrite E. reflexivity.
  - split; [ reflexivity | ]. split; [ reflexivity | ].
    intros i t Hi. rewrite nth_error_map, Hi. cbn [option_map].
    eexists. split; [ reflexivity | ].
    destruct (String.eqb (truck_id t) truckId) eqn:E.
    + apply String.eqb_eq in E. split; [ intros Hne; contradiction | ].
      intros _. cbn. repeat split.
    + apply String.eqb_neq in E. split; [ reflexivity | ].
      intros Heq. contradiction.
Qed.

(** C8.  [acknowledgeAlert] sets [acknowledged] on the alerts with the
    given id and changes no other field of any alert and no other alert;
    the list keeps its length; acknowledging twice is the same as once;
    an id no alert has leaves the list as it is. *)
Theorem acknowledgeAlert_spec (alertId : string) (w : World) :
  List.length (alerts (step w (AcknowledgeAlert alertId)))
  = List.length (alerts w)
  /\ (forall i a,
        nth_error (alerts w) i = Some a ->
        exists a',
          nth_error (alerts (step w (AcknowledgeAlert alertId))) i = Some a'
          /\ acknowledged a'
             = (String.eqb (alert_id a) alertId || acknowledged a)
          /\ alert_id a' = alert_id a /\ alert_type a' = alert_type a
          /\ severity a' = severity a /\ message a' = message a
          /\ alert_ts a' = alert_ts a /\ truckId a' = truckId a
          /\ location a' = location a)
  /\ step (step w (AcknowledgeAlert alertId)) (AcknowledgeAlert alertId)
     = step w (AcknowledgeAlert alertId)
  /\ ((forall a, In a (alerts w) -> alert_id a <> alertId) ->
      step w (AcknowledgeAlert alertId) = w)
  /\ trucks (step w (AcknowledgeAlert alertId)) = trucks w.
Proof.
  cbn [step alerts trucks]. unfold acknowledgeAlert.
  split; [ apply length_map | ]. split; [ | split; [ | split ] ].
  - intros i a Hi. rewrite nth_error_map, Hi. cbn [option_map].
    eexists. split; [ reflexivity | ].
    destruct (String.eqb (alert_id a) alertId); cbn; repeat split.
  - f_equal. cbn [alerts]. rewrite map_map. apply map_ext. intros a.
    destruct (String.eqb (alert_id a) alertId) eqn:E; cbn.
    + rewrite E. reflexivity.
    + rewrite E. reflexivity.
  - intros Hno. destruct w as [ts al sv fc fh dr]. cbn in *. f_equal.
    induction al as [| a al IH]; [ reflexivity | ]. cbn [map].
    rewrite IH by (intros a0 Hin; apply Hno; right; exact Hin).
    assert (E : String.eqb (alert_id a) alertId = false)
      by (apply String.eqb_neq; apply Hno; left; reflexivity).
    rewrite E. reflexivity.
  - reflexivity.
Qed.

(** C10.  The drain of a compartment that is at or above its 5% reserve
    leaves it at or above the reserve: what it takes is at most
    [currentLevel - 0.05 * capacity]. *)
Theorem drain_keeps_reserve (now : Z) (truck : Truck) (comp : Compartment)
    (f : Frame) :
  capacity comp * 0.05 <= currentLevel comp ->
  let c' := fst (drain now truck comp f) in
  capacity c' = capacity comp
  /\ currentLevel c' <= currentLevel comp
  /\ currentLevel comp - currentLevel c'
     <= currentLevel comp - capacity comp * 0.05
  /\ capacity c' * 0.05 <= currentLevel c'.
Proof.
  intros Hres. cbv zeta.
  destruct (drain_result now truck comp f)
    as [-> | (_ & _ & _ & Hm & -> & _ & -> & _)].
  - repeat split; lra.
  - match type of Hm with
    | 0 < Qmin3 ?x ?y ?z => destruct (Qmin3_le x y z) as (_ & _ & Hz)
    end.
    repeat split; lra.
Qed.

End EngineFacts.

(** ** The claims at concrete inputs *)

(** C1 at [TK003] of the seed fleet, the third truck, every draw 0.5. *)
Lemma assigned_tick_witness :
  exists t',
    nth_error (trucks (@tick midDraws 1500 seedFleet)) 2 = Some t'
    /\ status t' = delivering
    /\ (exists a, currentAssignment t' = Some a
          /\ 2500 <= assignedLiters a /\ assignedLiters a < 5000
          /\ sumTargets (compartments t') <= assignedLiters a)
    /\ Forall (fun c => isOffloading c = true
                        <-> 0 < orZero (targetDelivery c))
         (compartments t').
Proof.
  apply (@assigned_tick_starts_delivery midDraws seedFleet 1500 2 TK003);
    reflexivity.
Defined.

(** C1, as stated, fails: [TK003] of the seed fleet, with every draw 0,
    is assigned 2500 litres while its four compartments get 500 litres
    each. *)
Lemma assigned_targets_fall_short :
  status TK003 = assigned
  /\ exists t' a,
       nth_error (trucks (@tick lowDraws 1500 seedFleet)) 2 = Some t'
       /\ currentAssignment t' = Some a
       /\ assignedLiters a == 2500
       /\ sumTargets (compartments t') == 2000
       /\ ~ sumTargets (compartments t') == assignedLiters a.
Proof.
  split; [ reflexivity | ].
  remember (nth_error (trucks (@tick lowDraws 1500 seedFleet)) 2) as o eqn:E.
  vm_compute in E. subst o.
  eexists. eexists. split; [ reflexivity | ]. split; [ reflexivity | ].
  split; [ reflexivity | ]. split; [ reflexivity | ].
  vm_compute. discriminate.
Qed.

(** C3 at the seed fleet, over a tick, a trip assigned to [TK001] and a
    second tick. *)
Lemma levels_witness :
  fleetInvariant levelWithinCapacity seedFleet
  /\ fleetInvariant levelWithinCapacity
       (@run midDraws seedFleet
          [Tick 1500; AssignTrip "TK001" QURUM_SHELL; Tick 3000]).
Proof.
  assert (H : fleetInvariant levelWithinCapacity seedFleet).
  { unfold fleetInvariant, levelWithinCapacity.
    repeat (apply Forall_cons || apply Forall_nil); cbn; split; lra. }
  split; [ exact H | ].
  exact (@levels_stay_within_capacity midDraws seedFleet
           [Tick 1500; AssignTrip "TK001" QURUM_SHELL; Tick 3000] H).
Defined.

(** C5 at [arriving]: one tick takes it within the threshold of
    [AL_KHUWAIR_BP]. *)
Lemma trip_completion_witness :
  status (fst (@tickTruck midDraws 1500 arriving (effectsOf seedFleet)))
  = completed
  /\ exists entry,
       fx_history (snd (@tickTruck midDraws 1500 arriving
                          (effectsOf seedFleet)))
       = (slice_last 499 (fx_history (effectsOf seedFleet)) ++ [entry])%list
       /\ fl_truckId entry = truck_id arriving
       /\ fl_assignedLiters entry = 3000
       /\ fl_lossLiters entry = 45
       /\ (0 < 3000 ->
           fl_lossPercent entry
           == fl_lossLiters entry / fl_assignedLiters entry * 100).
Proof.
  exact (@trip_completion_appends_history midDraws 1500 arriving
           (effectsOf seedFleet) AL_KHUWAIR_BP
           eq_refl eq_refl eq_refl).
Defined.

(** C5, as stated, fails: [TK002] of the seed data is delivering without
    a [currentAssignment]; with every draw 0.5 its first tick brings it
    within the threshold of its destination and completes the trip, and
    the fuel-loss history stays empty. *)
Lemma completion_without_assignment_adds_no_entry :
  status TK002 = delivering
  /\ destination TK002 = Some AL_KHUWAIR_BP
  /\ currentAssignment TK002 = None
  /\ exists t',
       nth_error (trucks (@tick midDraws 1500 seedFleet)) 1 = Some t'
       /\ reachedDestination (position t') AL_KHUWAIR_BP = true
       /\ status t' = completed
       /\ fuelLossHistory (@tick midDraws 1500 seedFleet)
          = fuelLossHistory seedFleet.
Proof.
  split; [ reflexivity | ]. split; [ reflexivity | ].
  split; [ reflexivity | ].
  remember (@tick midDraws 1500 seedFleet) as w eqn:E.
  vm_compute in E. subst w.
  eexists. split; [ reflexivity | ].
  split; [ vm_compute; reflexivity | ]. split; reflexivity.
Qed.

(** C6 at [TK005] of the seed fleet, the fifth truck: its emptiest
    compartment is 1950 litres short of 95%, which makes 49 ticks. *)
Lemma uplifting_witness :
  exists t',
    nth_error (trucks (@run midDraws seedFleet (map Tick (repeat 0%Z 49)))) 4
    = Some t'
    /\ idleAndCleared t'.
Proof.
  apply (@uplifting_reaches_idle midDraws seedFleet 4 TK005 (repeat 0%Z 49)).
  - reflexivity.
  - reflexivity.
  - repeat (apply Forall_cons || apply Forall_nil); cbn; lra.
  - vm_compute. apply le_n.
Defined.

(** C6, as stated, fails: every compartment of [toppedUp] is above 95%,
    so the bound of the claim is 0 ticks, and after 0 ticks the truck is
    as it was, uplifting. *)
Lemma topped_up_truck_needs_a_tick :
  status toppedUp = uplifting
  /\ upliftBound toppedUp = 0%nat
  /\ forall nows,
       (List.length nows <= upliftBound toppedUp)%nat ->
       exists t',
         nth_error (trucks (@run midDraws (fleetOf [toppedUp])
                              (map Tick nows))) 0 = Some t'
         /\ status t' <> idle.
Proof.
  split; [ reflexivity | ].
  assert (E : upliftBound toppedUp = 0%nat) by (vm_compute; reflexivity).
  split; [ exact E | ].
  intros nows Hlen. rewrite E in Hlen.
  destruct nows as [| now nows]; [ | cbn in Hlen; lia ].
  exists toppedUp. split; [ reflexivity | discriminate ].
Qed.

(** C10 at the offloading compartment of [TK002]. *)
Lemma drain_reserve_witness :
  let comp := mkCompartment "C1" 4200 "Diesel" true (Some 2000) in
  let c' := fst (@drain midDraws 1500 TK002 comp
                   (initFrame (effectsOf seedFleet) TK002)) in
  capacity comp * 0.05 <= currentLevel comp
  /\ capacity c' = capacity comp
  /\ currentLevel c' <= currentLevel comp
  /\ currentLevel comp - currentLevel c'
     <= currentLevel comp - capacity comp * 0.05
  /\ capacity c' * 0.05 <= currentLevel c'.
Proof.
  cbv zeta.
  assert (H : capacity (mkCompartment "C1" 4200 "Diesel" true (Some 2000))
              * 0.05
              <= currentLevel
                   (mkCompartment "C1" 4200 "Diesel" true (Some 2000)))
    by (cbn; lra).
  split; [ exact H | ].
  exact (@drain_keeps_reserve midDraws 1500 TK002
           (mkCompartment "C1" 4200 "Diesel" true (Some 2000))
           (initFrame (effectsOf seedFleet) TK002) H).
Defined.

Section GeofenceDoubleWitness.

Import Floats.
Import GeofenceDouble.
Local Open Scope float_scope.


End GeofenceDoubleWitness.

(** * The rest of the geofences, the hook and the dashboards *)

(** ** Distances in exact arithmetic *)

(** Over the reals the quantity under the square roots stays between 0
    and 1, so the distance is a number; these facts are used for the
    circle test, whose answers are the same where the doubles give
    NaN. *)
Section DistanceFacts.

Local Open Scope R_scope.

Lemma haversine_hh_range (p1 p2 dl : R) :
  let hh := sin ((p2 - p1) / 2) * sin ((p2 - p1) / 2)
            + cos p1 * cos p2 * sin (dl / 2) * sin (dl / 2) in
  0 <= hh <= 1.
Proof.
  intros hh.
  assert (Hh : forall x, sin (x / 2) * sin (x / 2) = (1 - cos x) / 2).
  { intros x. replace (cos x) with (cos (2 * (x / 2))) by (f_equal; field).
    rewrite cos_2a_sin. field. }
  assert (E : hh = (1 - (sin p1 * sin p2 + cos p1 * cos p2 * cos dl)) / 2).
  { unfold hh. rewrite Hh.
    replace (cos p1 * cos p2 * sin (dl / 2) * sin (dl / 2))
      with (cos p1 * cos p2 * (sin (dl / 2) * sin (dl / 2))) by ring.
    rewrite Hh, cos_minus. field. }
  pose proof (sin2_cos2 p1) as H1. pose proof (sin2_cos2 p2) as H2.
  unfold Rsqr in H1, H2.
  pose proof (COS_bound dl) as [Hk1 Hk2].
  set (s1 := sin p1) in *. set (s2 := sin p2) in *.
  set (c1 := cos p1) in *. set (c2 := cos p2) in *. set (k := cos dl) in *.
  pose proof (Rle_0_sqr (s1 - s2)) as Q1.
  pose proof (Rle_0_sqr (c1 - c2 * k)) as Q2.
  pose proof (Rle_0_sqr (s1 + s2)) as Q3.
  pose proof (Rle_0_sqr (c1 + c2 * k)) as Q4.
  pose proof (Rle_0_sqr c2) as Q5.
  assert (Q6 : 0 <= c2 * c2 * (1 - k * k)).
  { apply Rmult_le_pos; [ exact Q5 | Lra.nra ]. }
  unfold Rsqr in *. rewrite E. split; Lra.nra.
Qed.

Lemma atan2_quadrant (y x : R) :
  0 <= y -> 0 <= x -> 0 <= Geofence.atan2 y x <= PI / 2.
Proof.
  intros Hy Hx. unfold Geofence.atan2.
  pose proof PI_RGT_0 as Hpi.
  destruct (Rlt_dec 0 x) as [Hpos | Hn].
  - pose proof (atan_bound (y / x)) as [_ Hub].
    split; [ | Lra.lra ].
    rewrite <- atan_0.
    destruct (Req_dec y 0) as [-> | Hy0].
    + unfold Rdiv. rewrite Rmult_0_l. Lra.lra.
    + left. apply atan_increasing. apply Rdiv_lt_0_compat; Lra.lra.
  - destruct (Rlt_dec x 0); [ Lra.lra | ].
    destruct (Rlt_dec 0 y); [ Lra.lra | ].
    destruct (Rlt_dec y 0); Lra.lra.
Qed.

Lemma haversine_refl (a : Geofence.LatLng) :
  Geofence.haversineDistanceMeters a a = 0.
Proof.
  unfold Geofence.haversineDistanceMeters.
  replace ((Geofence.lat a - Geofence.lat a) * PI / 180 / 2) with 0 by field.
  replace ((Geofence.lng a - Geofence.lng a) * PI / 180 / 2) with 0 by field.
  rewrite sin_0.
  replace (0 * 0 + cos (Geofence.lat a * PI / 180)
                   * cos (Geofence.lat a * PI / 180) * 0 * 0) with 0 by ring.
  rewrite Rminus_0_r, sqrt_0, sqrt_1, atan2_zero_one. ring.
Qed.

Lemma haversine_sym (a b : Geofence.LatLng) :
  Geofence.haversineDistanceMeters a b = Geofence.haversineDistanceMeters b a.
Proof.
  unfold Geofence.haversineDistanceMeters.
  pose proof (haversine_hh_sym a b) as H. cbv zeta in H. rewrite H.
  reflexivity.
Qed.

Lemma haversine_bounds (a b : Geofence.LatLng) :
  0 <= Geofence.haversineDistanceMeters a b <= 6371000 * PI.
Proof.
  unfold Geofence.haversineDistanceMeters.
  set (hh := _ + _).
  assert (Hhh : 0 <= hh <= 1).
  { pose proof (haversine_hh_range (Geofence.lat a * PI / 180)
                  (Geofence.lat b * PI / 180)
                  ((Geofence.lng b - Geofence.lng a) * PI / 180)) as H.
    cbv zeta in H.
    replace ((Geofence.lat b * PI / 180 - Geofence.lat a * PI / 180) / 2)
      with ((Geofence.lat b - Geofence.lat a) * PI / 180 / 2) in H by field.
    exact H. }
  pose proof (atan2_quadrant (sqrt hh) (sqrt (1 - hh))
                (sqrt_pos _) (sqrt_pos _)) as [H0 H1].
  split; Lra.lra.
Qed.

End DistanceFacts.

(** ** Polygons, circles and segments *)

Section ZoneFacts.

Lemma Qgtb_false (x y : Q) : Qgtb x y = false <-> x <= y.
Proof. unfold Qgtb. apply Qltb_false. Qed.

(** Where the ray meets an edge that straddles the latitude of the point:
    between the longitudes of the two ends. *)
Lemma crossing_between (lat0 xi yi xj yj lo hi : Q) :
  Qgtb yi lat0 <> Qgtb yj lat0 ->
  lo <= xi <= hi -> lo <= xj <= hi ->
  lo <= (xj - xi) * (lat0 - yi) / (yj - yi) + xi <= hi.
Proof.
  intros Hne [Hi1 Hi2] [Hj1 Hj2].
  set (t := (lat0 - yi) / (yj - yi)).
  assert (Ht : 0 <= t <= 1 /\ (xj - xi) * (lat0 - yi) / (yj - yi) == (xj - xi) * t).
  { destruct (Qgtb yi lat0) eqn:Ei, (Qgtb yj lat0) eqn:Ej; try congruence.
    - apply Qgtb_true in Ei. apply Qgtb_false in Ej.
      assert (Hd : yj - yi < 0) by lra.
      assert (Hd' : 0 < yi - yj) by lra.
      assert (Et : t == (yi - lat0) / (yi - yj)).
      { unfold t. field. split; lra. }
      repeat split.
      + rewrite Et. apply Qle_shift_div_l; lra.
      + rewrite Et. apply Qle_shift_div_r; lra.
      + unfold t. field. lra.
    - apply Qgtb_false in Ei. apply Qgtb_true in Ej.
      assert (Hd : 0 < yj - yi) by lra.
      repeat split.
      + unfold t. apply Qle_shift_div_l; lra.
      + unfold t. apply Qle_shift_div_r; lra.
      + unfold t. field. lra. }
  destruct Ht as [[Ht0 Ht1] ->].
  split.
  - assert (0 <= (xi - lo) * (1 - t)) by (apply Qmult_le_0_compat; lra).
    assert (0 <= (xj - lo) * t) by (apply Qmult_le_0_compat; lra).
    lra.
  - assert (0 <= (hi - xi) * (1 - t)) by (apply Qmult_le_0_compat; lra).
    assert (0 <= (hi - xj) * t) by (apply Qmult_le_0_compat; lra).
    lra.
Qed.


Lemma crossesEdge_level (lat0 lng0 : Q) (pi pj : Point) :
  Qgtb (lat pi) lat0 = Qgtb (lat pj) lat0 ->
  crossesEdge lat0 lng0 pi pj = false.
Proof.
  intros E. unfold crossesEdge. cbv zeta. rewrite E, eqb_reflx. reflexivity.
Qed.

Lemma crossesEdge_east (lat0 lng0 hi : Q) (pi pj : Point) :
  lng pi <= hi -> lng pj <= hi -> hi <= lng0 ->
  crossesEdge lat0 lng0 pi pj = false.
Proof.
  intros Hi Hj Hh. unfold crossesEdge. cbv zeta.
  destruct (Bool.eqb (Qgtb (lat pi) lat0) (Qgtb (lat pj) lat0)) eqn:E;
    [ reflexivity | ].
  apply eqb_false_iff in E. cbn [negb andb].
  apply Qltb_false.
  pose proof (crossing_between lat0 (lng pi) (lat pi) (lng pj) (lat pj)
                (Qmin (lng pi) (lng pj)) hi E) as [_ H].
  - split; [ apply Q.le_min_l | exact Hi ].
  - split; [ apply Q.le_min_r | exact Hj ].
  - lra.
Qed.

Lemma crossesEdge_west (lat0 lng0 lo : Q) (pi pj : Point) :
  lo <= lng pi -> lo <= lng pj -> lng0 < lo ->
  crossesEdge lat0 lng0 pi pj
  = xorb (Qgtb (lat pi) lat0) (Qgtb (lat pj) lat0).
Proof.
  intros Hi Hj Hl. unfold crossesEdge. cbv zeta.
  destruct (Bool.eqb (Qgtb (lat pi) lat0) (Qgtb (lat pj) lat0)) eqn:E.
  - apply eqb_prop in E. rewrite E, xorb_nilpotent. reflexivity.
  - apply eqb_false_iff in E. cbn [negb andb].
    replace (xorb _ _) with true
      by (destruct (Qgtb (lat pi) lat0), (Qgtb (lat pj) lat0); 
          congruence || reflexivity).
    apply Qltb_true.
    pose proof (crossing_between lat0 (lng pi) (lat pi) (lng pj) (lat pj)
                  lo (Qmax (lng pi) (lng pj)) E) as [H _].
    + split; [ exact Hi | apply Q.le_max_l ].
    + split; [ exact Hj | apply Q.le_max_r ].
    + lra.
Qed.

Lemma last_cons (rest : list Point) (v d : Point) :
  last (v :: rest) d = last rest v.
Proof.
  revert v d. induction rest as [ | w rest IH ]; intros v d.
  - reflexivity.
  - change (last (v :: w :: rest) d) with (last (w :: rest) d).
    rewrite (IH w d), (IH w v). reflexivity.
Qed.

(** The loop leaves [inside] alone when no edge is crossed. *)
Lemma ringLoop_no_crossing (lat0 lng0 : Q) (ok : Point -> Prop) :
  (forall u v, ok u -> ok v -> crossesEdge lat0 lng0 v u = false) ->
  forall rest pj inside,
    ok pj -> Forall ok rest ->
    ringLoop lat0 lng0 pj rest inside = inside.
Proof.
  intros Hno. induction rest as [ | v rest IH ]; intros pj inside Hj Hr.
  - reflexivity.
  - inversion Hr; subst. cbn [ringLoop].
    rewrite (Hno pj v) by assumption. apply IH; assumption.
Qed.

(** When every edge that straddles the latitude of the point is crossed,
    the loop counts the changes of side along the ring. *)
Lemma ringLoop_all_crossings (lat0 lng0 : Q) (ok : Point -> Prop) :
  (forall u v, ok u -> ok v ->
     crossesEdge lat0 lng0 v u
     = xorb (Qgtb (lat v) lat0) (Qgtb (lat u) lat0)) ->
  forall rest pj inside,
    ok pj -> Forall ok rest ->
    ringLoop lat0 lng0 pj rest inside
    = xorb inside (xorb (Qgtb (lat pj) lat0)
                        (Qgtb (lat (last rest pj)) lat0)).
Proof.
  intros Hall. induction rest as [ | v rest IH ]; intros pj inside Hj Hr.
  - cbn [ringLoop last]. rewrite xorb_nilpotent, xorb_false_r. reflexivity.
  - inversion Hr; subst. cbn [ringLoop].
    rewrite (Hall pj v) by assumption. rewrite IH by assumption.
    rewrite last_cons.
    destruct (Qgtb (lat v) lat0), (Qgtb (lat pj) lat0),
      (Qgtb (lat (last rest v)) lat0), inside; reflexivity.
Qed.

Lemma last_in_ring (p0 : Point) (ring : list Point) (ok : Point -> Prop) :
  Forall ok (p0 :: ring) -> ok (last (p0 :: ring) p0).
Proof.
  intros H. rewrite Forall_forall in H. apply H.
  destruct (exists_last (l := p0 :: ring)) as [l' [a E]]; [ discriminate | ].
  rewrite E, last_last. apply in_or_app. right. left. reflexivity.
Qed.

(** X16.  [pointInPolygon] answers no for every point outside the
    bounding box of the ring, the north and east sides of the box
    included, and for every point when the ring is empty. *)
Theorem pointInPolygon_outside_bounding_box
    (lat0 lng0 latLo latHi lngLo lngHi : Q) (ring : list Point) :
  Forall (fun v => latLo <= lat v <= latHi /\ lngLo <= lng v <= lngHi) ring ->
  lat0 < latLo \/ latHi <= lat0 \/ lng0 < lngLo \/ lngHi <= lng0 ->
  pointInPolygon lat0 lng0 ring = false.
Proof.
  intros Hbox Hout. destruct ring as [ | p0 ring ]; [ reflexivity | ].
  unfold pointInPolygon.
  set (ok := fun v : Point =>
               latLo <= lat v <= latHi /\ lngLo <= lng v <= lngHi) in *.
  pose proof (last_in_ring p0 ring ok Hbox) as Hlast.
  destruct Hout as [H | [H | [H | H]]].
  - apply (ringLoop_no_crossing lat0 lng0 ok); try assumption.
    intros u v [[Hu _] _] [[Hv _] _]. apply crossesEdge_level.
    assert (E1 : Qgtb (lat v) lat0 = true) by (apply Qgtb_true; lra).
    assert (E2 : Qgtb (lat u) lat0 = true) by (apply Qgtb_true; lra).
    congruence.
  - apply (ringLoop_no_crossing lat0 lng0 ok); try assumption.
    intros u v [[_ Hu] _] [[_ Hv] _]. apply crossesEdge_level.
    assert (E1 : Qgtb (lat v) lat0 = false) by (apply Qgtb_false; lra).
    assert (E2 : Qgtb (lat u) lat0 = false) by (apply Qgtb_false; lra).
    congruence.
  - rewrite (ringLoop_all_crossings lat0 lng0 ok); try assumption.
    + rewrite !last_cons, xorb_nilpotent. reflexivity.
    + intros u v [_ [Hu _]] [_ [Hv _]].
      apply (crossesEdge_west lat0 lng0 lngLo); assumption.
  - apply (ringLoop_no_crossing lat0 lng0 ok); try assumption.
    intros u v [_ [_ Hu]] [_ [_ Hv]].
    apply (crossesEdge_east lat0 lng0 lngHi); assumption.
Qed.

Lemma crossesEdge_meridian (lat0 lng0 x y1 y2 : Q) :
  crossesEdge lat0 lng0 {| lat := y1; lng := x |} {| lat := y2; lng := x |}
  = xorb (Qgtb y1 lat0) (Qgtb y2 lat0) && Qltb lng0 x.
Proof.
  unfold crossesEdge. cbv zeta. cbn [lat lng].
  replace (negb (Bool.eqb (Qgtb y1 lat0) (Qgtb y2 lat0)))
    with (xorb (Qgtb y1 lat0) (Qgtb y2 lat0))
    by (destruct (Qgtb y1 lat0), (Qgtb y2 lat0); reflexivity).
  f_equal.
  assert (E : (x - x) * (lat0 - y1) / (y2 - y1) + x == x).
  { unfold Qdiv. ring. }
  unfold Qltb. rewrite E. reflexivity.
Qed.

Lemma rectangle_test (lat0 lng0 latLo latHi lngLo lngHi : Q) :
  latLo < latHi -> lngLo < lngHi ->
  (pointInPolygon lat0 lng0 (rectangleRing latLo latHi lngLo lngHi) = true
   <-> latLo <= lat0 /\ lat0 < latHi /\ lngLo <= lng0 /\ lng0 < lngHi).
Proof.
  intros Hlat Hlng. unfold pointInPolygon, rectangleRing.
  cbn [last ringLoop].
  rewrite (crossesEdge_meridian lat0 lng0 lngLo latLo latHi).
  rewrite (crossesEdge_level lat0 lng0 {| lat := latLo; lng := lngHi |}
             {| lat := latLo; lng := lngLo |}) by reflexivity.
  rewrite (crossesEdge_meridian lat0 lng0 lngHi latHi latLo).
  rewrite (crossesEdge_level lat0 lng0 {| lat := latHi; lng := lngLo |}
             {| lat := latHi; lng := lngHi |}) by reflexivity.
  destruct (Qgtb latLo lat0) eqn:E1, (Qgtb latHi lat0) eqn:E2,
    (Qltb lng0 lngLo) eqn:E3, (Qltb lng0 lngHi) eqn:E4;
    cbn [xorb andb negb];
    try apply Qgtb_true in E1; try apply Qgtb_false in E1;
    try apply Qgtb_true in E2; try apply Qgtb_false in E2;
    try apply Qltb_true in E3; try apply Qltb_false in E3;
    try apply Qltb_true in E4; try apply Qltb_false in E4;
    split; intros H; try discriminate; try reflexivity;
    try (repeat split; lra); try (exfalso; lra).
Qed.

(** X17.  For a rectangle listed as [GEOFENCE_ZONES] lists them,
    [pointInPolygon] is the half-open box: the south and west sides are
    inside, the north and east sides outside. *)
Theorem pointInPolygon_rectangle (lat0 lng0 latLo latHi lngLo lngHi : Q) :
  latLo < latHi -> lngLo < lngHi ->
  (pointInPolygon lat0 lng0 (rectangleRing latLo latHi lngLo lngHi) = true
   <-> latLo <= lat0 /\ lat0 < latHi /\ lngLo <= lng0 /\ lng0 < lngHi).
Proof. apply rectangle_test. Qed.

Lemma toLatLng_Qeq (p q : Point) :
  lat p == lat q -> lng p == lng q -> toLatLng p = toLatLng q.
Proof.
  intros H1 H2. unfold toLatLng.
  rewrite (Qeq_eqR _ _ H1), (Qeq_eqR _ _ H2). reflexivity.
Qed.

Lemma isInsideCircle_true (lat0 lng0 : Q) (c : Point) (r : Q) :
  isInsideCircle lat0 lng0 c r = true
  <-> (haversineMeters {| lat := lat0; lng := lng0 |} c <= Q2R r)%R.
Proof.
  unfold isInsideCircle. destruct (Rle_dec _ _); split; intros H;
    congruence || assumption || contradiction.
Qed.

Lemma isInsideCircle_centre (c : Point) (r : Q) :
  isInsideCircle (lat c) (lng c) c r = true <-> 0 <= r.
Proof.
  rewrite isInsideCircle_true. unfold haversineMeters.
  replace (toLatLng {| lat := lat c; lng := lng c |}) with (toLatLng c)
    by reflexivity.
  rewrite haversine_refl. rewrite <- RMicromega.Q2R_0.
  split; [ apply Rle_Qle | apply Qle_Rle ].
Qed.

Lemma isInsideCircle_negative (lat0 lng0 : Q) (c : Point) (r : Q) :
  r < 0 -> isInsideCircle lat0 lng0 c r = false.
Proof.
  intros Hr. apply not_true_iff_false. rewrite isInsideCircle_true.
  intros H.
  pose proof (haversine_bounds (toLatLng {| lat := lat0; lng := lng0 |})
                (toLatLng c)) as [H0 _].
  apply Qlt_Rlt in Hr. rewrite RMicromega.Q2R_0 in Hr.
  unfold haversineMeters in H. Lra.lra.
Qed.

(** X18.  [isInsideCircle]: the centre is inside exactly when the radius
    is not negative; no point is inside a circle of negative radius; a
    point inside stays inside when the radius grows; and the test is the
    same with the point and the centre exchanged. *)
Theorem isInsideCircle_facts :
  (forall c r, isInsideCircle (lat c) (lng c) c r = true <-> 0 <= r)
  /\ (forall lat0 lng0 c r,
        r < 0 -> isInsideCircle lat0 lng0 c r = false)
  /\ (forall lat0 lng0 c r r',
        r <= r' -> isInsideCircle lat0 lng0 c r = true ->
        isInsideCircle lat0 lng0 c r' = true)
  /\ (forall p c r,
        isInsideCircle (lat p) (lng p) c r
        = isInsideCircle (lat c) (lng c) p r).
Proof.
  split; [ | split; [ | split ] ].
  - apply isInsideCircle_centre.
  - apply isInsideCircle_negative.
  - intros lat0 lng0 c r r' Hr. rewrite !isInsideCircle_true. intros H.
    apply Qle_Rle in Hr. Lra.lra.
  - intros p c r. unfold isInsideCircle, haversineMeters.
    replace (toLatLng {| lat := lat p; lng := lng p |}) with (toLatLng p)
      by reflexivity.
    replace (toLatLng {| lat := lat c; lng := lng c |}) with (toLatLng c)
      by reflexivity.
    rewrite (haversine_sym (toLatLng p) (toLatLng c)). reflexivity.
Qed.

Lemma Qltb_comp (x x' y y' : Q) :
  x == x' -> y == y' -> Qltb x y = Qltb x' y'.
Proof. intros H1 H2. unfold Qltb. rewrite H1, H2. reflexivity. Qed.

(** X19.  [distanceFromPointToSegmentMeters] measures the distance to a
    point of the segment; it is 0 for every point of the segment; and for
    a segment whose ends coincide it is the distance to that end. *)
Theorem distanceFromPointToSegment_facts :
  (forall point s e,
      exists u, 0 <= u <= 1
        /\ lat (closestOnSegment point s e) == lat s + u * (lat e - lat s)
        /\ lng (closestOnSegment point s e) == lng s + u * (lng e - lng s))
  /\ (forall s e t,
        0 <= t <= 1 ->
        distanceFromPointToSegmentMeters
          {| lat := lat s + t * (lat e - lat s);
             lng := lng s + t * (lng e - lng s) |} s e = 0%R)
  /\ (forall point s,
        distanceFromPointToSegmentMeters point s s = haversineMeters point s).
Proof.
  split; [ | split ].
  - intros point s e. unfold closestOnSegment. cbv zeta.
    set (param := if negb _ then _ else _).
    destruct (Qltb param 0) eqn:E0.
    + exists 0. cbn [lat lng]. repeat split; lra.
    + destruct (Qgtb param 1) eqn:E1.
      * exists 1. cbn [lat lng]. repeat split; lra.
      * apply Qltb_false in E0. apply Qgtb_false in E1.
        exists param. cbn [lat lng]. repeat split; lra.
  - intros s e t [Ht0 Ht1].
    unfold distanceFromPointToSegmentMeters, haversineMeters.
    match goal with
    | |- Geofence.haversineDistanceMeters ?a ?b = _ =>
        replace b with a; [ apply haversine_refl | ]
    end.
    apply toLatLng_Qeq; unfold closestOnSegment; cbv zeta; cbn [lat lng].
    all: set (C := lat e - lat s); set (D := lng e - lng s).
    all: set (lenSq := C * C + D * D).
    all: assert (HC : 0 <= C * C) by (destruct (Qlt_le_dec C 0); nra).
    all: assert (HD : 0 <= D * D) by (destruct (Qlt_le_dec D 0); nra).
    all: destruct (Qeq_bool lenSq 0) eqn:El; cbn [negb].
    all: try (apply Qeq_bool_iff in El;
              assert (EC : C == 0) by (unfold lenSq in El; nra);
              assert (ED : D == 0) by (unfold lenSq in El; nra);
              replace (Qltb (- (1)) 0) with true by reflexivity;
              cbn [lat lng]; rewrite ?EC, ?ED; lra).
    all: apply Qeq_bool_neq in El.
    all: assert (Ep : ((lat s + t * C - lat s) * C
                       + (lng s + t * D - lng s) * D) / lenSq == t)
           by (unfold lenSq; field; exact El).
    all: rewrite (Qltb_comp _ t 0 0 Ep (Qeq_refl 0)).
    all: unfold Qgtb; rewrite (Qltb_comp 1 1 _ t (Qeq_refl 1) Ep).
    all: replace (Qltb t 0) with false
           by (symmetry; apply Qltb_false; exact Ht0).
    all: replace (Qltb 1 t) with false
           by (symmetry; apply Qltb_false; exact Ht1).
    all: cbn [lat lng]; rewrite Ep; reflexivity.
  - intros point s.
    unfold distanceFromPointToSegmentMeters, closestOnSegment. cbv zeta.
    replace (Qeq_bool _ 0) with true
      by (symmetry; apply Qeq_bool_iff; ring).
    cbn [negb]. replace (Qltb (- (1)) 0) with true by reflexivity.
    destruct s; reflexivity.
Qed.

(** X20.  [zonesContainingPoint] keeps, in their order, exactly the zones
    [isInZone] accepts; [isInZone] accepts a circle zone only when it has
    a centre and a radius that is not negative, and a polygon zone only
    when it has a ring that is not empty: a zone that lacks the geometry
    of its shape contains no point. *)
Theorem zonesContainingPoint_facts (lat0 lng0 : Q) (zones : list GeoZone) :
  (forall z, In z (zonesContainingPoint lat0 lng0 zones)
             <-> In z zones /\ isInZone lat0 lng0 z = true)
  /\ (exists keep,
        List.length keep = List.length zones
        /\ zonesContainingPoint lat0 lng0 zones
           = map fst (filter snd (combine zones keep)))
  /\ (forall z, isInZone lat0 lng0 z = true ->
        match shape z with
        | circleShape =>
            exists c r, center z = Some c /\ radius z = Some r /\ 0 <= r
                        /\ isInsideCircle lat0 lng0 c r = true
        | polygonShape =>
            exists ring, polygon z = Some ring /\ ring <> []
                         /\ pointInPolygon lat0 lng0 ring = true
        end).
Proof.
  split; [ | split ].
  - intros z. unfold zonesContainingPoint. apply filter_In.
  - exists (map (isInZone lat0 lng0) zones). split.
    + apply length_map.
    + unfold zonesContainingPoint.
      induction zones as [ | z zones IH ]; [ reflexivity | ].
      cbn [map combine filter snd].
      destruct (isInZone lat0 lng0 z); cbn [map fst]; rewrite IH;
        reflexivity.
  - intros z. unfold isInZone.
    destruct (shape z), (center z) as [ c | ], (radius z) as [ r | ],
      (polygon z) as [ ring | ]; intros H; try discriminate.
    all: try (exists ring; split; [ reflexivity | ]; split;
              [ intros ->; discriminate | exact H ]).
    all: exists c, r; repeat split; try exact H.
    all: destruct (Qlt_le_dec r 0) as [Hn | Hp]; [ | exact Hp ].
    all: rewrite (isInsideCircle_negative lat0 lng0 c r Hn) in H;
      discriminate.
Qed.

End ZoneFacts.

(** ** The engine *)

Section FleetFacts.

Context {host : Host}.

#[local] Arguments Qplus : simpl never.
#[local] Arguments Qminus : simpl never.
#[local] Arguments Qmult : simpl never.
#[local] Arguments Qdiv : simpl never.
#[local] Arguments Qopp : simpl never.
#[local] Arguments Qmin : simpl never.
#[local] Arguments Qmax : simpl never.
#[local] Arguments Qle_bool : simpl never.
#[local] Arguments Qeq_bool : simpl never.
#[local] Arguments Qcompare : simpl never.
#[local] Arguments inject_Z : simpl never.
#[local] Arguments Qfloor : simpl never.
#[local] Arguments Qltb : simpl never.
#[local] Arguments js_floor : simpl never.
#[local] Arguments js_round : simpl never.
#[local] Arguments js_rem : simpl never.
#[local] Arguments Qmin3 : simpl never.
#[local] Arguments String.append : simpl never.
#[local] Arguments String.concat : simpl never.
#[local] Arguments slice_last : simpl never.
#[local] Arguments slice_first : simpl never.

#[local] Existing Instance keepsCargo_preorder.

Ltac binds := repeat (rewrite bind_run; cbv beta).

(** *** Relations read on the truck or on the effects *)

#[local] Instance onTruck_preorder (relT : Truck -> Truck -> Prop)
    `{!PreOrder relT} : PreOrder (onTruck relT).
Proof.
  split.
  - intros f. unfold onTruck. reflexivity.
  - intros f1 f2 f3 H1 H2. unfold onTruck in *. etransitivity; eassumption.
Qed.

#[local] Instance onEffects_preorder (relE : Effects -> Effects -> Prop)
    `{!PreOrder relE} : PreOrder (onEffects relE).
Proof.
  split.
  - intros f. unfold onEffects. reflexivity.
  - intros f1 f2 f3 H1 H2. unfold onEffects in *. etransitivity; eassumption.
Qed.

(** A part of the callback that leaves [newTruck] alone respects every
    relation on trucks, and one that leaves [fx] alone every relation on
    the effects. *)
Lemma onTruck_untouched {A} (relT : Truck -> Truck -> Prop)
    `{!PreOrder relT} (m : State Frame A) :
  (forall f, newTruck (snd (m f)) = newTruck f) ->
  respects (onTruck relT) m.
Proof. intros H f. unfold onTruck. rewrite H. reflexivity. Qed.

Lemma onEffects_untouched {A} (relE : Effects -> Effects -> Prop)
    `{!PreOrder relE} (m : State Frame A) :
  (forall f, fx (snd (m f)) = fx f) ->
  respects (onEffects relE) m.
Proof. intros H f. unfold onEffects. rewrite H. reflexivity. Qed.

Lemma onTruck_updTruck (relT : Truck -> Truck -> Prop) (g : Truck -> Truck) :
  (forall t, relT t (g t)) -> respects (onTruck relT) (updTruck g).
Proof. intros H f. apply H. Qed.

Lemma onEffects_fx (relE : Effects -> Effects -> Prop)
    (g : Effects -> Effects) :
  (forall e, relE e (g e)) ->
  respects (onEffects relE) (modify (fun f => set_fx (g (fx f)) f)).
Proof. intros H f. apply H. Qed.

Lemma onEffects_random (relE : Effects -> Effects -> Prop) :
  (forall e, relE e (nextDrawFx e)) -> respects (onEffects relE) mathRandom.
Proof. intros H f. apply H. Qed.

(** A draw is a number of [[0, 1)]. *)
Lemma respects_bind_random {B} (Rel : Frame -> Frame -> Prop)
    `{!PreOrder Rel} (k : Q -> State Frame B) :
  respects Rel mathRandom ->
  (forall r, 0 <= r < 1 -> respects Rel (k r)) ->
  respects Rel (bind mathRandom k).
Proof.
  intros Hm Hk s. rewrite bind_run.
  transitivity (snd (mathRandom s)); [ apply Hm | ].
  apply Hk. apply random_range.
Qed.

Ltac head_of t :=
  match t with
  | ?f _ => head_of f
  | _ => t
  end.

(** The walk through the callback: [leaf] settles the primitive actions. *)
Ltac walk leaf :=
  repeat first
    [ apply respects_ret; exact _
    | apply respects_gets; exact _
    | leaf
    | apply respects_bind_random; [ exact _ | | intros ? ? ]
    | apply respects_bind; [ exact _ | | intro ]
    | apply respects_when; [ exact _ | ]
    | apply respects_if
    | apply respects_mapM; [ exact _ | intro ]
    | match goal with
      | |- respects _ (match ?x with _ => _ end) => destruct x
      end
    | match goal with
      | |- respects _ ?m =>
          let h := head_of m in
          lazymatch h with
          | @modify => fail
          | @updTruck => fail
          | @mathRandom => fail
          | _ => progress unfold h
          end
      end ].

Ltac truck_leaf upd :=
  first
    [ apply onTruck_untouched; [ exact _ | intro; reflexivity ]
    | apply onTruck_updTruck; intros ?t; upd ].

Ltac effects_leaf tac :=
  first
    [ apply onEffects_untouched; [ exact _ | intro; reflexivity ]
    | apply onEffects_random; intros ?e; tac
    | apply onEffects_fx; intros ?e; tac ].

(** *** The identity of a truck *)

#[local] Instance sameIdentity_preorder : PreOrder sameIdentity.
Proof.
  split.
  - intros t. repeat split.
  - intros t1 t2 t3 (A1 & A2 & A3 & A4 & A5) (B1 & B2 & B3 & B4 & B5).
    repeat split; congruence.
Qed.

Lemma truckBody_identity now truck :
  respects (onTruck sameIdentity) (truckBody now truck).
Proof.
  walk ltac:(truck_leaf
               ltac:(try match goal with
                         | t : Truck |- _ => destruct (currentAssignment t)
                         end; repeat split; reflexivity)).
Qed.


Lemma drain_fields now truck comp s :
  let c' := fst (drain now truck comp s) in
  sameTank comp c'
  /\ (deliveryLogCapped comp -> deliveryLogCapped c').
Proof.
  cbv zeta. unfold drain.
  destruct (_ && _); [ | split; [ repeat split | auto ] ].
  binds.
  destruct (Qgtb _ 0); [ | split; [ repeat split | auto ] ].
  binds.
  destruct (_ || _); binds; cbn; (split; [ repeat split | ]); auto.
  intros _. unfold deliveryLogCapped. cbn [deliveryLog orNil set_deliveryLog].
  rewrite length_app, slice_last_length. cbn [List.length]. lia.
Qed.

Lemma compStep_tank now truck c c' :
  compStep now truck c c' ->
  sameTank c c' /\ (deliveryLogCapped c -> deliveryLogCapped c').
Proof.
  intros Hstep. destruct Hstep.
  - split; [ repeat split | auto ].
  - unfold allocateTarget. rewrite bind_run; cbv beta.
    match goal with
    | |- context [if ?c then _ else _] => destruct c
    end; binds; cbn; (split; [ repeat split | ]); auto.
    intros _. unfold deliveryLogCapped. cbn. lia.
  - unfold refill. destruct (Qltb _ _); binds; cbn;
      (split; [ repeat split | auto ]).
  - split; [ repeat split | auto ].
  - apply drain_fields.
  - destruct (drain_fields now truck c s) as [(E1 & E2 & E3) Hlog].
    cbv zeta in E1, E2, E3, Hlog.
    split; [ repeat split; assumption | exact Hlog ].
Qed.

Lemma tickTruck_sameTruck now truck e :
  sameTruck truck (fst (tickTruck now truck e)).
Proof.
  split.
  - apply (truckBody_identity now truck (initFrame e truck)).
  - eapply Forall2_impl; [ | apply tickTruck_compartments ].
    intros c c' H. apply (compStep_tank now truck c c' H).
Qed.

Lemma sameTruck_refl (t : Truck) : sameTruck t t.
Proof.
  split; [ reflexivity | ]. apply Forall2_same. intros c. repeat split.
Qed.

Lemma sameTruck_trans (t1 t2 t3 : Truck) :
  sameTruck t1 t2 -> sameTruck t2 t3 -> sameTruck t1 t3.
Proof.
  intros [I1 C1] [I2 C2]. split; [ etransitivity; eassumption | ].
  eapply Forall2_compose; [ | exact C1 | exact C2 ].
  intros a b c (A1 & A2 & A3) (B1 & B2 & B3). repeat split; congruence.
Qed.

Lemma step_sameTruck (w : World) (ev : Event) :
  Forall2 sameTruck (trucks w) (trucks (step w ev)).
Proof.
  destruct ev; cbn [step trucks].
  - eapply Forall2_impl; [ | apply tick_trucks ].
    intros t t' [e ->]. apply tickTruck_sameTruck.
  - unfold assignTrip. apply Forall2_map_r. intros t.
    destruct (String.eqb _ _); [ | apply sameTruck_refl ].
    split; [ repeat split | ]. apply Forall2_same. intros c. repeat split.
  - apply Forall2_same. apply sameTruck_refl.
Qed.

(** X9.  No tick and no command adds, removes or reorders a truck or a
    compartment: after any run of events the fleet holds the same trucks
    in the same order, each with its id, name, driver and client, and
    each compartment with its id, capacity and fuel type. *)
Theorem run_keeps_fleet_identity (w : World) (evs : list Event) :
  Forall2 sameTruck (trucks w) (trucks (run w evs))
  /\ map truck_id (trucks (run w evs)) = map truck_id (trucks w).
Proof.
  assert (H : Forall2 sameTruck (trucks w) (trucks (run w evs))).
  { revert w. induction evs as [ | ev evs IH ]; intros w; cbn [run fold_left].
    - apply Forall2_same. apply sameTruck_refl.
    - eapply Forall2_compose;
        [ apply sameTruck_trans | apply (step_sameTruck w ev) | apply IH ]. }
  split; [ exact H | ].
  induction H as [ | t t' l l' [(E & _) _] _ IH ]; [ reflexivity | ].
  cbn [map]. rewrite E, IH. reflexivity.
Qed.

(** *** The buffers *)

#[local] Instance logsCapped_preorder : PreOrder logsCapped.
Proof.
  split.
  - intros t H. exact H.
  - intros t1 t2 t3 H1 H2 H. apply H2, H1, H.
Qed.

#[local] Instance consumptionCapped_preorder : PreOrder consumptionCapped.
Proof.
  split.
  - intros t H. exact H.
  - intros t1 t2 t3 H1 H2 H. apply H2, H1, H.
Qed.

Lemma truckBody_logs now truck :
  respects (onTruck logsCapped) (truckBody now truck).
Proof.
  walk ltac:(truck_leaf
               ltac:(unfold logsCapped;
                     try match goal with
                         | t : Truck |- _ => destruct (currentAssignment t)
                         end;
                     cbn;
                     first [ exact (fun x => x)
                           | intros _;
                             rewrite length_app, slice_last_length;
                             cbn [List.length]; lia ])).
Qed.

Lemma truckBody_consumption now truck :
  respects (onEffects consumptionCapped) (truckBody now truck).
Proof.
  walk ltac:(effects_leaf
               ltac:(unfold consumptionCapped;
                     cbn [fx_consumption nextDrawFx pushAlertFx pushHistoryFx
                          pushConsumptionFx];
                     first [ exact (fun x => x)
                           | intros _;
                             rewrite length_app, slice_last_length;
                             cbn [List.length]; lia ])).
Qed.

Lemma tick_consumption now w :
  consumptionCapped (effectsOf w) (snd (mapM (tickTruck now) (trucks w)
                                          (effectsOf w))).
Proof.
  apply mapM_state.
  - intros e. reflexivity.
  - intros e1 e2 e3. apply transitivity.
  - intros t e. apply (truckBody_consumption now t (initFrame e t)).
Qed.

Lemma step_buffers (w : World) (ev : Event) :
  buffersCapped w -> buffersCapped (step w ev).
Proof.
  intros [Ht Hc]. destruct ev; cbn [step].
  - split.
    + cbn [tick trucks].
      pose proof (tick_trucks now w) as HF. cbn [tick trucks] in HF.
      induction HF as [ | t t' l l' [e ->] _ IH ]; [ constructor | ].
      inversion Ht as [ | ? ? [Hl Hd] Hrest ]; subst.
      constructor; [ | apply IH; exact Hrest ].
      split.
      * apply (truckBody_logs now t (initFrame e t)). exact Hl.
      * pose proof (tickTruck_compartments now t e) as HC.
        revert Hd. induction HC as [ | c c' cs cs' Hstep _ IHc ];
          intros Hd; [ constructor | ].
        inversion Hd; subst. constructor; [ | apply IHc; assumption ].
        apply (compStep_tank now t c c' Hstep). assumption.
    + apply (tick_consumption now w). exact Hc.
  - split; [ | exact Hc ]. cbn [trucks]. unfold assignTrip.
    rewrite Forall_map. eapply Forall_impl; [ | exact Ht ].
    intros t H. destruct (String.eqb _ _); exact H.
  - split; assumption.
Qed.

(** X10.  The buffers that are cut with [slice(-40)], [slice(-10)] and
    [slice(-1000)] before an entry is added: through any run of events
    the logs of a truck hold at most 41 entries, the delivery log of a
    compartment at most 11 and the consumption data at most 1001. *)
Theorem buffers_stay_capped (w : World) (evs : list Event) :
  buffersCapped w -> buffersCapped (run w evs).
Proof.
  revert w. induction evs as [ | ev evs IH ]; intros w H; cbn [run fold_left].
  - exact H.
  - apply IH, step_buffers, H.
Qed.

(** *** The streams *)

Lemma Forall_firstn {A} (P : A -> Prop) (n : nat) (l : list A) :
  Forall P l -> Forall P (firstn n l).
Proof.
  intros H. rewrite <- (firstn_skipn n l) in H.
  apply Forall_app in H. apply H.
Qed.

Lemma Forall_skipn {A} (P : A -> Prop) (n : nat) (l : list A) :
  Forall P l -> Forall P (skipn n l).
Proof.
  intros H. rewrite <- (firstn_skipn n l) in H.
  apply Forall_app in H. apply H.
Qed.

#[local] Instance alertsExtended_preorder (P : Alert -> Prop) :
  PreOrder (alertsExtended P).
Proof.
  split.
  - intros l. exists [], (List.length l). split; [ | constructor ].
    rewrite firstn_all. reflexivity.
  - intros l1 l2 l3 (f1 & k1 & -> & H1) (f2 & k2 & -> & H2).
    exists (f2 ++ firstn k2 f1)%list,
           (Nat.min (k2 - List.length f1) k1).
    split.
    + rewrite firstn_app, firstn_firstn, app_assoc. reflexivity.
    + apply Forall_app. split; [ exact H2 | apply Forall_firstn, H1 ].
Qed.

#[local] Instance streamExtended_preorder {A} (P : A -> Prop) :
  PreOrder (streamExtended P).
Proof.
  split.
  - intros l. exists 0%nat, []. split; [ | constructor ].
    cbn [skipn]. rewrite app_nil_r. reflexivity.
  - intros l1 l2 l3 (k1 & f1 & -> & H1) (k2 & f2 & -> & H2).
    exists (k1 + k2)%nat,
           (skipn (k2 - List.length (skipn k1 l1)) f1 ++ f2)%list.
    split.
    + rewrite skipn_app, skipn_skipn, app_assoc, (Nat.add_comm k2 k1).
      reflexivity.
    + apply Forall_app. split; [ apply Forall_skipn, H1 | exact H2 ].
Qed.

#[local] Instance alertsGrow_preorder (P : Alert -> Prop) :
  PreOrder (alertsGrow P).
Proof.
  split.
  - intros e. unfold alertsGrow. reflexivity.
  - intros e1 e2 e3 H1 H2. unfold alertsGrow in *.
    etransitivity; eassumption.
Qed.

#[local] Instance historyGrows_preorder (P : FuelLossHistory -> Prop) :
  PreOrder (historyGrows P).
Proof.
  split.
  - intros e. unfold historyGrows. reflexivity.
  - intros e1 e2 e3 H1 H2. unfold historyGrows in *.
    etransitivity; eassumption.
Qed.

#[local] Instance consumptionGrows_preorder (P : Consumption -> Prop) :
  PreOrder (consumptionGrows P).
Proof.
  split.
  - intros e. unfold consumptionGrows. reflexivity.
  - intros e1 e2 e3 H1 H2. unfold consumptionGrows in *.
    etransitivity; eassumption.
Qed.

Lemma alertsExtended_push (P : Alert -> Prop) (a : Alert) (l : list Alert) :
  P a -> alertsExtended P l (a :: slice_first 49 l).
Proof.
  intros Ha. exists [a], 49%nat. split; [ reflexivity | ].
  constructor; [ exact Ha | constructor ].
Qed.

Lemma streamExtended_push {A} (P : A -> Prop) (n : nat) (x : A)
    (l : list A) :
  P x -> streamExtended P l (slice_last n l ++ [x]).
Proof.
  intros Hx. exists (List.length l - n)%nat, [x]. split; [ reflexivity | ].
  constructor; [ exact Hx | constructor ].
Qed.

Lemma truckBody_alerts now truck :
  respects
    (onEffects
       (alertsGrow (fun a => acknowledged a = false /\ alert_ts a = now
                             /\ truckId a = truck_id truck)))
    (truckBody now truck).
Proof.
  walk ltac:(effects_leaf
               ltac:(unfold alertsGrow;
                     cbn [fx_alerts nextDrawFx pushAlertFx pushHistoryFx
                          pushConsumptionFx];
                     first [ reflexivity
                           | apply alertsExtended_push;
                             repeat split; reflexivity ])).
Qed.

Lemma truckBody_history now truck :
  respects
    (onEffects
       (historyGrows (fun h => fl_timestamp h = now
                               /\ fl_truckId h = truck_id truck)))
    (truckBody now truck).
Proof.
  walk ltac:(effects_leaf
               ltac:(unfold historyGrows;
                     cbn [fx_history nextDrawFx pushAlertFx pushHistoryFx
                          pushConsumptionFx];
                     first [ reflexivity
                           | apply streamExtended_push;
                             repeat split; reflexivity ])).
Qed.

Lemma trackConsumption_grows now truck :
  respects
    (onEffects
       (consumptionGrows (fun c => fc_timestamp c = now
                                   /\ fc_truckId c = truck_id truck
                                   /\ 0 < liters c)))
    (trackConsumption now truck).
Proof.
  intros f. unfold trackConsumption. binds.
  cbn [gets fst snd].
  destruct (Status_eqb _ _); cbn [andb when]; [ | reflexivity ].
  destruct (Qgtb _ 0) eqn:E; cbn [when]; [ | reflexivity ].
  apply Qgtb_true in E.
  unfold onEffects, consumptionGrows. cbn.
  apply streamExtended_push. repeat split. exact E.
Qed.

Lemma truckBody_consumption_grows now truck :
  respects
    (onEffects
       (consumptionGrows (fun c => fc_timestamp c = now
                                   /\ fc_truckId c = truck_id truck
                                   /\ 0 < liters c)))
    (truckBody now truck).
Proof.
  walk ltac:(first
               [ apply trackConsumption_grows
               | effects_leaf
                   ltac:(unfold consumptionGrows;
                         cbn [fx_consumption nextDrawFx pushAlertFx
                              pushHistoryFx pushConsumptionFx];
                         reflexivity) ]).
Qed.

Lemma mapM_state_in {S A B} (Rel : S -> S -> Prop) `{!PreOrder Rel}
    (f : A -> State S B) (l : list A) :
  (forall a s, In a l -> Rel s (snd (f a s))) ->
  forall s, Rel s (snd (mapM f l s)).
Proof.
  induction l as [ | x xs IH ]; intros Hf s; cbn [mapM].
  - reflexivity.
  - rewrite !bind_run. cbn [ret snd].
    transitivity (snd (f x s)).
    + apply Hf. left. reflexivity.
    + apply IH. intros a s' Ha. apply Hf. right. exact Ha.
Qed.

Lemma alertsExtended_weaken (P P' : Alert -> Prop) (l l' : list Alert) :
  (forall a, P a -> P' a) -> alertsExtended P l l' -> alertsExtended P' l l'.
Proof.
  intros HP (fresh & k & E & HF). exists fresh, k. split; [ exact E | ].
  eapply Forall_impl; [ exact HP | exact HF ].
Qed.

Lemma streamExtended_weaken {A} (P P' : A -> Prop) (l l' : list A) :
  (forall a, P a -> P' a) -> streamExtended P l l' -> streamExtended P' l l'.
Proof.
  intros HP (k & fresh & E & HF). exists k, fresh. split; [ exact E | ].
  eapply Forall_impl; [ exact HP | exact HF ].
Qed.

(** X11.  A tick puts its new alerts in front of the old ones, which
    keep their order and their content and of which only the oldest are
    dropped; every new alert is unacknowledged, stamped with the time of
    the tick and names a truck of the fleet.  So an alert that is
    acknowledged after a tick was there, acknowledged, before it. *)
Theorem tick_extends_alerts (now : Z) (w : World) :
  alertsExtended
    (fun a => acknowledged a = false /\ alert_ts a = now
              /\ In (truckId a) (map truck_id (trucks w)))
    (alerts w) (alerts (tick now w))
  /\ (forall a, In a (alerts (tick now w)) -> acknowledged a = true ->
                In a (alerts w)).
Proof.
  assert (H : alertsExtended
                (fun a => acknowledged a = false /\ alert_ts a = now
                          /\ In (truckId a) (map truck_id (trucks w)))
                (alerts w) (alerts (tick now w))).
  { unfold tick. cbn [alerts].
    apply (mapM_state_in
             (alertsGrow (fun a => acknowledged a = false /\ alert_ts a = now
                            /\ In (truckId a) (map truck_id (trucks w))))
             (tickTruck now) (trucks w)).
    intros t e Ht.
    eapply alertsExtended_weaken;
      [ | apply (truckBody_alerts now t (initFrame e t)) ].
    intros a (A1 & A2 & A3). repeat split; try assumption.
    rewrite A3. apply in_map. exact Ht. }
  split; [ exact H | ].
  destruct H as (fresh & k & -> & HF).
  intros a Ha Hack. apply in_app_or in Ha. destruct Ha as [Ha | Ha].
  - rewrite Forall_forall in HF. destruct (HF a Ha) as (Hf & _). congruence.
  - rewrite <- (firstn_skipn k (alerts w)). apply in_or_app. left. exact Ha.
Qed.

(** X12.  A tick adds its entries at the end of the fuel-loss history
    and of the consumption data; the entries it keeps stay as they were,
    in their order, and only the oldest are dropped.  Every new entry is
    stamped with the time of the tick and names a truck of the fleet, and
    a new consumption entry records a positive number of litres. *)
Theorem tick_extends_streams (now : Z) (w : World) :
  streamExtended
    (fun h => fl_timestamp h = now
              /\ In (fl_truckId h) (map truck_id (trucks w)))
    (fuelLossHistory w) (fuelLossHistory (tick now w))
  /\ streamExtended
       (fun c => fc_timestamp c = now
                 /\ In (fc_truckId c) (map truck_id (trucks w))
                 /\ 0 < liters c)
       (fuelConsumptionData w) (fuelConsumptionData (tick now w)).
Proof.
  split.
  - unfold tick. cbn [fuelLossHistory].
    apply (mapM_state_in
             (historyGrows (fun h => fl_timestamp h = now
                              /\ In (fl_truckId h) (map truck_id (trucks w))))
             (tickTruck now) (trucks w)).
    intros t e Ht.
    eapply streamExtended_weaken;
      [ | apply (truckBody_history now t (initFrame e t)) ].
    intros h (A1 & A2). split; [ assumption | ].
    rewrite A2. apply in_map. exact Ht.
  - unfold tick. cbn [fuelConsumptionData].
    apply (mapM_state_in
             (consumptionGrows
                (fun c => fc_timestamp c = now
                          /\ In (fc_truckId c) (map truck_id (trucks w))
                          /\ 0 < liters c))
             (tickTruck now) (trucks w)).
    intros t e Ht.
    eapply streamExtended_weaken;
      [ | apply (truckBody_consumption_grows now t (initFrame e t)) ].
    intros c (A1 & A2 & A3). repeat split; try assumption.
    rewrite A2. apply in_map. exact Ht.
Qed.

(** *** The status of a truck across a tick *)

Lemma tickTruck_shape now truck e :
  let f1 := snd (stepStatus now truck (initFrame e truck)) in
  let t' := fst (tickTruck now truck e) in
  status t' = status (newTruck f1)
  /\ position t' = position (newTruck f1)
  /\ destination t' = destination (newTruck f1)
  /\ startPoint t' = startPoint (newTruck f1).
Proof.
  cbv zeta. unfold tickTruck. cbn [fst].
  destruct (truckBody_shape now truck (initFrame e truck))
    as (E1 & E2 & E3 & E4 & _).
  repeat split; assumption.
Qed.

Lemma drift_result truck f :
  let t' := newTruck (snd (drift truck f)) in
  position t'
  = {| lat := lat (position truck)
              + (random (cursor (fx f)) - 0.5) * 0.0001;
       lng := lng (position truck)
              + (random (S (cursor (fx f))) - 0.5) * 0.0001 |}
  /\ compartments t' = compartments (newTruck f)
  /\ currentAssignment t' = currentAssignment (newTruck f).
Proof. cbv zeta. unfold drift. binds. repeat split. Qed.

Lemma moveToUplifting_result truck f :
  let t' := newTruck (snd (moveToUplifting truck f)) in
  status t' = uplifting
  /\ position t' = position (newTruck f)
  /\ destination t' = destination (newTruck f)
  /\ startPoint t' = startPoint (newTruck f)
  /\ currentAssignment t' = currentAssignment (newTruck f)
  /\ compartments t'
     = map (fun comp => set_targetDelivery 0 (set_isOffloading false comp))
           (compartments truck).
Proof. cbv zeta. unfold moveToUplifting. binds. repeat split. Qed.

(** X1.  The status a tick gives a truck, from the status it had:
    [idle] stays [idle], [assigned] becomes [delivering], [delivering]
    stays or becomes [completed], [completed] becomes [uplifting], and
    [uplifting] stays or becomes [idle]. *)
Theorem tick_status_transitions (now : Z) (w : World) :
  Forall2 (fun t t' => tickTransition (status t) (status t') = true)
    (trucks w) (trucks (tick now w)).
Proof.
  eapply Forall2_impl; [ | apply tick_trucks ].
  intros t t' [e ->].
  destruct (tickTruck_shape now t e) as (-> & _).
  unfold stepStatus. destruct (status t) eqn:Es.
  - destruct (drift_shape t (initFrame e t)) as (-> & _).
    cbn [initFrame newTruck]. rewrite Es. reflexivity.
  - destruct (startDelivery_result now t (initFrame e t)) as (-> & _).
    reflexivity.
  - destruct (destination t) as [ dest | ].
    + destruct (moveToDestination_result now t dest (initFrame e t))
        as (_ & Hno & Hyes).
      cbv zeta in Hno, Hyes.
      destruct (reachedDestination _ dest).
      * destruct (Hyes eq_refl) as (-> & _). reflexivity.
      * destruct (Hno eq_refl) as (-> & _).
        cbn [initFrame newTruck]. rewrite Es. reflexivity.
    + destruct (drift_shape t (initFrame e t)) as (-> & _).
      cbn [initFrame newTruck]. rewrite Es. reflexivity.
  - destruct (uplift_result now t (initFrame e t)) as (_ & H).
    cbv zeta in H. destruct (forallb _ _).
    + destruct H as (-> & _). reflexivity.
    + rewrite H. cbn [initFrame newTruck]. rewrite Es. reflexivity.
  - destruct (moveToUplifting_result t (initFrame e t)) as (-> & _).
    reflexivity.
Qed.

Lemma tickTruck_cargo now truck e :
  status truck <> delivering ->
  let f1 := snd (stepStatus now truck (initFrame e truck)) in
  let t' := fst (tickTruck now truck e) in
  compartments t' = compartments (newTruck f1)
  /\ currentAssignment t' = currentAssignment (newTruck f1).
Proof.
  intros Hs. cbv zeta. unfold tickTruck. cbn [fst].
  apply (truckBody_cargo now truck (initFrame e truck) Hs).
Qed.

(** X2.  The tick of a [completed] truck makes it [uplifting] and closes
    its compartments ([isOffloading] false, [targetDelivery] 0), leaving
    their levels and delivered litres, the position, the trip end points
    and the assignment as they were, and writing nothing to the
    fuel-loss history. *)
Theorem completed_tick_closes_compartments (now : Z) (truck : Truck)
    (e : Effects) :
  status truck = completed ->
  let t' := fst (tickTruck now truck e) in
  status t' = uplifting
  /\ position t' = position truck
  /\ destination t' = destination truck
  /\ startPoint t' = startPoint truck
  /\ currentAssignment t' = currentAssignment truck
  /\ compartments t'
     = map (fun comp => set_targetDelivery 0 (set_isOffloading false comp))
           (compartments truck)
  /\ fx_history (snd (tickTruck now truck e)) = fx_history e.
Proof.
  intros Es. cbv zeta.
  destruct (tickTruck_shape now truck e) as (-> & -> & -> & ->).
  destruct (tickTruck_cargo now truck e) as (-> & ->); [ congruence | ].
  assert (Hh : fx_history (snd (tickTruck now truck e))
               = fx_history (fx (snd (stepStatus now truck
                                        (initFrame e truck))))).
  { unfold tickTruck. cbn [snd].
    apply (truckBody_shape now truck (initFrame e truck)). }
  rewrite Hh. unfold stepStatus. rewrite Es.
  destruct (moveToUplifting_result truck (initFrame e truck))
    as (-> & -> & -> & -> & -> & ->).
  repeat split.
Qed.

(** X3.  The tick of an [idle] truck leaves it [idle] with its
    compartments, trip end points and assignment, moves it by at most
    0.00005 degrees in latitude and in longitude, and writes nothing to
    the fuel-loss history. *)
Theorem idle_tick_only_drifts (now : Z) (truck : Truck) (e : Effects) :
  status truck = idle ->
  let t' := fst (tickTruck now truck e) in
  status t' = idle
  /\ destination t' = destination truck
  /\ startPoint t' = startPoint truck
  /\ compartments t' = compartments truck
  /\ currentAssignment t' = currentAssignment truck
  /\ Qabs (lat (position t') - lat (position truck)) <= 0.00005
  /\ Qabs (lng (position t') - lng (position truck)) <= 0.00005
  /\ fx_history (snd (tickTruck now truck e)) = fx_history e.
Proof.
  intros Es. cbv zeta.
  destruct (tickTruck_shape now truck e) as (-> & -> & -> & ->).
  destruct (tickTruck_cargo now truck e) as (-> & ->); [ congruence | ].
  assert (Hh : fx_history (snd (tickTruck now truck e))
               = fx_history (fx (snd (stepStatus now truck
                                        (initFrame e truck))))).
  { unfold tickTruck. cbn [snd].
    apply (truckBody_shape now truck (initFrame e truck)). }
  rewrite Hh. unfold stepStatus. rewrite Es.
  destruct (drift_shape truck (initFrame e truck)) as (-> & -> & ->).
  destruct (drift_result truck (initFrame e truck)) as (-> & -> & ->).
  cbn [initFrame newTruck lat lng fx cursor].
  destruct (random_range (cursor e)) as [A0 A1].
  destruct (random_range (S (cursor e))) as [B0 B1].
  repeat split; try assumption.
  - apply Qabs_Qle_condition. split; lra.
  - apply Qabs_Qle_condition. split; lra.
Qed.

(** X4.  The tick of a [delivering] truck that has a destination moves
    it one hundredth of the way there plus a jitter: each coordinate
    becomes [old + (dest - old) * 0.01 + (r - 0.5) * 0.001], where [r] is
    the next draw for the latitude and the one after it for the
    longitude, so the jitter is at most 0.0005 degrees and the distance
    to the destination in each coordinate is at most 0.99 times what it
    was plus 0.0005.  The tick keeps the destination and the start
    point, and makes the truck [completed] exactly when the new position
    is within the threshold of the destination. *)
Theorem delivering_tick_approaches (now : Z) (truck : Truck)
    (dest : Destination) (e : Effects) :
  status truck = delivering ->
  destination truck = Some dest ->
  let t' := fst (tickTruck now truck e) in
  position t'
  = {| lat := lat (position truck)
              + (dest_lat dest - lat (position truck)) * 0.01
              + (random (cursor e) - 0.5) * 0.001;
       lng := lng (position truck)
              + (dest_lng dest - lng (position truck)) * 0.01
              + (random (S (cursor e)) - 0.5) * 0.001 |}
  /\ Qabs (random (cursor e) - 0.5) * 0.001 <= 0.0005
  /\ Qabs (random (S (cursor e)) - 0.5) * 0.001 <= 0.0005
  /\ Qabs (lat (position t') - dest_lat dest)
     <= 0.99 * Qabs (lat (position truck) - dest_lat dest) + 0.0005
  /\ Qabs (lng (position t') - dest_lng dest)
     <= 0.99 * Qabs (lng (position truck) - dest_lng dest) + 0.0005
  /\ status t'
     = (if reachedDestination (position t') dest then completed
        else delivering)
  /\ destination t' = Some dest
  /\ startPoint t' = startPoint truck.
Proof.
  intros Es Ed. cbv zeta.
  destruct (tickTruck_shape now truck e) as (-> & -> & -> & ->).
  unfold stepStatus. rewrite Es, Ed.
  destruct (moveToDestination_result now truck dest (initFrame e truck))
    as (Hpos & Hno & Hyes).
  cbv zeta in Hpos, Hno, Hyes. rewrite Hpos.
  cbn [initFrame newTruck lat lng fx cursor] in *.
  destruct (random_range (cursor e)) as [A0 A1].
  destruct (random_range (S (cursor e))) as [B0 B1].
  split; [ reflexivity | ].
  split.
  { assert (Qabs (random (cursor e) - 0.5) <= 0.5)
      by (apply Qabs_Qle_condition; split; lra).
    lra. }
  split.
  { assert (Qabs (random (S (cursor e)) - 0.5) <= 0.5)
      by (apply Qabs_Qle_condition; split; lra).
    lra. }
  split; [ | split; [ | split; [ | split ] ] ].
  - pose proof (Qle_Qabs (lat (position truck) - dest_lat dest)).
    pose proof (Qle_Qabs (- (lat (position truck) - dest_lat dest))) as Hn.
    rewrite Qabs_opp in Hn.
    apply Qabs_Qle_condition. split; lra.
  - pose proof (Qle_Qabs (lng (position truck) - dest_lng dest)).
    pose proof (Qle_Qabs (- (lng (position truck) - dest_lng dest))) as Hn.
    rewrite Qabs_opp in Hn.
    apply Qabs_Qle_condition. split; lra.
  - destruct (reachedDestination _ dest).
    + apply Hyes. reflexivity.
    + destruct (Hno eq_refl) as (-> & _). exact Es.
  - unfold moveToDestination. binds.
    cbn [mathRandom fst snd].
    destruct (reachedDestination _ dest); cbn [when]; [ | exact Ed ].
    unfold completeTrip. binds. cbn.
    destruct (currentAssignment truck); binds;
      [ destruct (Qgtb _ 2.5) | ]; cbn; exact Ed.
  - unfold moveToDestination. binds.
    cbn [mathRandom fst snd].
    destruct (reachedDestination _ dest); cbn [when]; [ | reflexivity ].
    unfold completeTrip. binds. cbn.
    destruct (currentAssignment truck); binds;
      [ destruct (Qgtb _ 2.5) | ]; cbn; reflexivity.
Qed.

(** *** The telemetry *)

#[local] Instance telemetryKept_preorder : PreOrder telemetryKept.
Proof.
  split.
  - intros t. repeat split; auto.
  - intros t1 t2 t3 (A1 & A2 & A3 & A4 & A5) (B1 & B2 & B3 & B4 & B5).
    repeat split; try congruence; auto.
Qed.

#[local] Instance flowKept_preorder : PreOrder flowKept.
Proof.
  split.
  - intros t. reflexivity.
  - intros t1 t2 t3 A B. unfold flowKept in *. congruence.
Qed.

#[local] Instance drainedKept_preorder : PreOrder drainedKept.
Proof.
  split.
  - intros t. reflexivity.
  - intros t1 t2 t3 A B. unfold drainedKept in *. congruence.
Qed.

#[local] Instance consumptionKept_preorder : PreOrder consumptionKept.
Proof.
  split.
  - intros t. reflexivity.
  - intros t1 t2 t3 A B. unfold consumptionKept in *. congruence.
Qed.

Ltac telemetry_upd :=
  unfold telemetryKept;
  try match goal with
      | t : Truck |- _ => destruct (currentAssignment t)
      end;
  cbn; repeat split; try reflexivity;
  try (intros; first [ assumption | discriminate | lra ]).

Lemma afterTelemetry_kept now truck :
  respects (onTruck telemetryKept)
    (when (Status_eqb (status truck) delivering) (deliverFuel now truck) ;;
     offlineEvent now truck ;; addToTrail now truck ;;
     randomAlert now truck ;; trackConsumption now truck).
Proof. walk ltac:(truck_leaf telemetry_upd). Qed.

Ltac flow_upd :=
  unfold flowKept;
  try match goal with
      | t : Truck |- _ => destruct (currentAssignment t)
      end;
  cbn; reflexivity.

Lemma afterFuel_flow now truck :
  respects (onTruck flowKept)
    (offlineEvent now truck ;; addToTrail now truck ;;
     randomAlert now truck ;; trackConsumption now truck).
Proof. walk ltac:(truck_leaf flow_upd). Qed.

Lemma refreshTelemetry_result now truck f :
  let m := telemetry truck in
  let m' := telemetry (newTruck (snd (refreshTelemetry now truck f))) in
  lastUpdate m' = now
  /\ 0 <= speed m'
  /\ (0 <= speed m -> Qabs (speed m' - speed m) <= 5)
  /\ 0 <= tilt m'
  /\ valveStatus m' = Status_eqb (status truck) delivering
  /\ (status truck <> delivering -> fuelFlow m' = 0).
Proof.
  cbv zeta. unfold refreshTelemetry.
  destruct (random_range (cursor (fx f))) as [A0 A1].
  assert (E : forall b, Status_eqb (status truck) delivering = b ->
            (status truck <> delivering -> b = false)).
  { intros b <- Hs. destruct (status truck); try reflexivity; congruence. }
  destruct (Status_eqb (status truck) delivering) eqn:Ed; binds; cbn.
  all: split; [ reflexivity | ].
  all: split; [ apply Q.le_max_l | ].
  all: split; [ intros Hs;
                apply Qabs_Qle_condition;
                match goal with
                | |- context [Qmax ?x ?y] =>
                    destruct (Q.max_spec x y) as [[Hlt ->] | [Hle ->]]
                end; split; lra | ].
  all: split; [ apply Q.le_max_l | ].
  all: split; [ reflexivity | ].
  - intros Hs. specialize (E true eq_refl Hs). discriminate.
  - intros _. reflexivity.
Qed.

(** X7.  The telemetry after the tick of any truck: [lastUpdate] is the
    time of the tick; speed and tilt are not negative; the speed differs
    from a non-negative speed before by at most 5; the valve is open only
    if the truck was [delivering] at the start of the tick; and the fuel
    flow of a truck that was not [delivering] is 0. *)
Theorem telemetry_after_tick (now : Z) (truck : Truck) (e : Effects) :
  let m := telemetry truck in
  let m' := telemetry (fst (tickTruck now truck e)) in
  lastUpdate m' = now
  /\ 0 <= speed m'
  /\ (0 <= speed m -> Qabs (speed m' - speed m) <= 5)
  /\ 0 <= tilt m'
  /\ (valveStatus m' = true -> status truck = delivering)
  /\ (status truck <> delivering -> fuelFlow m' = 0).
Proof.
  cbv zeta. unfold tickTruck. cbn [fst]. unfold truckBody.
  do 2 (rewrite bind_run; cbv beta).
  set (f1 := snd (stepStatus now truck (initFrame e truck))).
  destruct (refreshTelemetry_result now truck f1)
    as (R1 & R2 & R3 & R4 & R5 & R6).
  cbv zeta in R1, R2, R3, R4, R5, R6.
  set (f2 := snd (refreshTelemetry now truck f1)) in *.
  destruct (afterTelemetry_kept now truck f2) as (K1 & K2 & K3 & K4 & K5).
  rewrite K1, K2.
  split; [ exact R1 | ]. split; [ exact R2 | ]. split; [ exact R3 | ].
  split; [ apply K4, R4 | ]. split.
  - intros Hv. apply K5 in Hv. rewrite R5 in Hv.
    destruct (status truck); try discriminate. reflexivity.
  - intros Hs.
    assert (Eb : Status_eqb (status truck) delivering = false)
      by (destruct (status truck); try reflexivity; congruence).
    rewrite Eb. cbn [when]. rewrite bind_run. cbn [ret snd].
    rewrite (afterFuel_flow now truck f2). apply R6, Hs.
Qed.


(** *** The fuel flow of a delivering truck *)

Lemma sumDelivered_from (cs : list Compartment) (a : Q) :
  fold_left (fun sum comp => sum + orZero (deliveredLiters comp)) cs a
  == a + sumDelivered cs.
Proof.
  unfold sumDelivered. revert a.
  induction cs as [ | c cs IH ]; intros a; cbn [fold_left].
  - lra.
  - rewrite IH, (IH (0 + _)). lra.
Qed.

Lemma sumDelivered_cons (c : Compartment) (cs : list Compartment) :
  sumDelivered (c :: cs) == orZero (deliveredLiters c) + sumDelivered cs.
Proof.
  unfold sumDelivered at 1. cbn [fold_left].
  rewrite sumDelivered_from. lra.
Qed.

(** The drain of one compartment adds to [totalDrained] what it adds to
    [deliveredLiters], which is never negative. *)
Lemma drain_totalDrained now truck comp s :
  let c' := fst (drain now truck comp s) in
  let s' := snd (drain now truck comp s) in
  totalDrained s' - totalDrained s
  == orZero (deliveredLiters c') - orZero (deliveredLiters comp)
  /\ totalDrained s <= totalDrained s'.
Proof.
  cbv zeta. unfold drain.
  destruct (_ && _); [ | cbn; split; lra ].
  binds. cbn [mathRandom fst snd].
  destruct (Qgtb _ 0) eqn:Em; [ | cbn; split; lra ].
  apply Qgtb_true in Em.
  binds.
  assert (Hsim : forall f, totalDrained (snd (simulateLoss now truck comp f))
                           = totalDrained f).
  { intros f.
    change (drainedKept f (snd (simulateLoss now truck comp f))).
    revert f.
    change (respects drainedKept (simulateLoss now truck comp)).
    walk ltac:(solve [ intros ?f; reflexivity ]). }
  destruct (_ || _); binds;
    cbn [appendLog updTruck modify gets ret fst snd totalDrained
         set_newTruck deliveredLiters set_deliveryLog set_isOffloading
         set_deliveredLiters set_currentLevel orZero];
    rewrite ?Hsim;
    cbn [totalDrained set_fx set_totalDrained]; split; lra.
Qed.

Lemma mapM_drain_total now truck (cs : list Compartment) (s : Frame) :
  let r := mapM (drain now truck) cs s in
  totalDrained (snd r) - totalDrained s
  == sumDelivered (fst r) - sumDelivered cs
  /\ totalDrained s <= totalDrained (snd r).
Proof.
  cbv zeta. revert s. induction cs as [ | c cs IH ]; intros s; cbn [mapM].
  - cbn. unfold sumDelivered. cbn. split; lra.
  - rewrite !bind_run. cbn [ret fst snd].
    destruct (drain_totalDrained now truck c s) as [D1 D2].
    cbv zeta in D1, D2.
    destruct (IH (snd (drain now truck c s))) as [I1 I2].
    rewrite !sumDelivered_cons. split; lra.
Qed.

Lemma theft_keeps_delivered now truck f :
  sumDelivered (compartments (newTruck (snd (theftEvent now truck f))))
  == sumDelivered (compartments (newTruck f)).
Proof.
  destruct (theftEvent_compartments now truck f) as (stolen & _ & HF).
  induction HF as [ | c c' l l' Hc _ IH ]; [ reflexivity | ].
  rewrite !sumDelivered_cons, IH.
  destruct Hc as [-> | ->]; cbn; lra.
Qed.

Lemma events_keep_drained now truck :
  respects drainedKept (theftEvent now truck)
  /\ respects drainedKept (valveEvent now truck)
  /\ respects drainedKept (tiltEvent now truck).
Proof.
  repeat split; walk ltac:(solve [ intros ?f; reflexivity ]).
Qed.

Lemma deliverFuel_flow now truck f :
  let t' := newTruck (snd (deliverFuel now truck f)) in
  fuelFlow (telemetry t')
  == sumDelivered (compartments t') - sumDelivered (compartments truck)
  /\ 0 <= fuelFlow (telemetry t').
Proof.
  cbv zeta. unfold deliverFuel.
  do 2 (rewrite bind_run; cbv beta).
  set (f0 := snd (modify (set_totalDrained 0) f)).
  destruct (mapM_drain_total now truck (compartments truck) f0) as [M1 M2].
  cbv zeta in M1, M2.
  set (comps := fst (mapM (drain now truck) (compartments truck) f0)) in *.
  set (f1 := snd (mapM (drain now truck) (compartments truck) f0)) in *.
  change (totalDrained f0) with 0 in M1, M2.
  do 2 (rewrite bind_run; cbv beta).
  set (f2 := snd (mathRandom (snd (updTruck (set_compartments comps) f1)))).
  assert (H2 : totalDrained f2 = totalDrained f1
               /\ compartments (newTruck f2) = comps) by (split; reflexivity).
  clearbody f2. destruct H2 as [D2 C2].
  destruct (events_keep_drained now truck) as (Kt & Kv & Kl).
  rewrite bind_run; cbv beta.
  set (f3 := snd (when _ (theftEvent now truck) f2)).
  assert (H3 : totalDrained f3 = totalDrained f1
               /\ sumDelivered (compartments (newTruck f3))
                  == sumDelivered comps).
  { subst f3. destruct (Qltb _ 0.005); cbn [when].
    - split; [ rewrite (Kt f2); exact D2 | ].
      rewrite theft_keeps_delivered, C2. reflexivity.
    - cbn. split; [ exact D2 | rewrite C2; reflexivity ]. }
  clearbody f3. destruct H3 as [D3 C3].
  do 2 (rewrite bind_run; cbv beta).
  set (f4 := snd (when _ (valveEvent now truck) (snd (mathRandom f3)))).
  assert (H4 : totalDrained f4 = totalDrained f1
               /\ compartments (newTruck f4) = compartments (newTruck f3)).
  { subst f4. destruct (Qltb _ 0.003); cbn [when].
    - split; [ rewrite (Kv _); exact D3 | ].
      destruct (proj1 (proj2 (valveEvent_keeps now truck))
                  (snd (mathRandom f3))) as [E _].
      rewrite E. reflexivity.
    - cbn. split; [ exact D3 | reflexivity ]. }
  clearbody f4. destruct H4 as [D4 C4].
  do 2 (rewrite bind_run; cbv beta).
  set (f5 := snd (when _ (tiltEvent now truck) (snd (mathRandom f4)))).
  assert (H5 : totalDrained f5 = totalDrained f1
               /\ compartments (newTruck f5) = compartments (newTruck f3)).
  { subst f5. destruct (Qltb _ 0.002); cbn [when].
    - split; [ rewrite (Kl _); exact D4 | ].
      destruct (proj1 (proj2 (tiltEvent_keeps now truck))
                  (snd (mathRandom f4))) as [E _].
      rewrite E. exact C4.
    - cbn. split; [ exact D4 | exact C4 ]. }
  clearbody f5. destruct H5 as [D5 C5].
  rewrite bind_run; cbv beta.
  cbn [gets fst snd updTruck modify newTruck set_newTruck telemetry
       set_telemetry set_fuelFlow fuelFlow compartments].
  rewrite D5, C5, C3. split; lra.
Qed.

Lemma beforeTracking_consumption now truck :
  respects (onEffects consumptionKept) (stepStatus now truck)
  /\ respects (onEffects consumptionKept) (refreshTelemetry now truck)
  /\ respects (onEffects consumptionKept)
       (when (Status_eqb (status truck) delivering) (deliverFuel now truck))
  /\ respects (onEffects consumptionKept) (offlineEvent now truck)
  /\ respects (onEffects consumptionKept) (addToTrail now truck)
  /\ respects (onEffects consumptionKept) (randomAlert now truck).
Proof.
  repeat split;
    walk ltac:(effects_leaf ltac:(unfold consumptionKept; reflexivity)).
Qed.

(** X8.  The fuel flow a [delivering] truck reports after a tick is the
    number of litres the tick added to the [deliveredLiters] of its
    compartments, which is not negative; and the tick of a truck adds one
    entry with that flow to the consumption data exactly when the truck
    was [delivering] and the flow is positive. *)
Theorem fuel_flow_is_what_was_delivered (now : Z) (truck : Truck)
    (e : Effects) :
  let t' := fst (tickTruck now truck e) in
  let e' := snd (tickTruck now truck e) in
  let flow := fuelFlow (telemetry t') in
  (status truck = delivering ->
   flow == sumDelivered (compartments t') - sumDelivered (compartments truck)
   /\ 0 <= flow)
  /\ fx_consumption e'
     = (if Status_eqb (status truck) delivering && Qgtb flow 0
        then (slice_last 1000 (fx_consumption e)
                ++ [ {| fc_timestamp := now; fc_truckId := truck_id truck;
                        liters := flow |} ])%list
        else fx_consumption e).
Proof.
  cbv zeta. unfold tickTruck. cbn [fst snd]. unfold truckBody.
  do 6 (rewrite bind_run; cbv beta).
  destruct (beforeTracking_consumption now truck)
    as (K1 & K2 & K3 & K4 & K5 & K6).
  set (f1 := snd (stepStatus now truck (initFrame e truck))).
  set (f2 := snd (refreshTelemetry now truck f1)).
  set (f3 := snd (when (Status_eqb (status truck) delivering)
                    (deliverFuel now truck) f2)).
  set (f4 := snd (offlineEvent now truck f3)).
  set (f5 := snd (addToTrail now truck f4)).
  set (f6 := snd (randomAlert now truck f5)).
  assert (Ec : fx_consumption (fx f6) = fx_consumption e).
  { unfold f6. rewrite (K6 f5). unfold f5. rewrite (K5 f4).
    unfold f4. rewrite (K4 f3). unfold f3. rewrite (K3 f2).
    unfold f2. rewrite (K2 f1). unfold f1.
    rewrite (K1 (initFrame e truck)). reflexivity. }
  assert (Et : newTruck (snd (trackConsumption now truck f6)) = newTruck f6).
  { unfold trackConsumption. rewrite bind_run. cbn [gets fst snd].
    destruct (_ && _); reflexivity. }
  rewrite Et. split.
  - intros Es.
    pose proof (afterFuel_flow now truck f3) as Hflow.
    pose proof (proj1 (proj2 (afterFuel_keeps now truck)) f3) as [Hc _].
    cbv zeta in Hc.
    unfold onTruck, flowKept in Hflow.
    do 3 (rewrite bind_run in Hflow, Hc; cbv beta in Hflow, Hc).
    fold f4 f5 f6 in Hflow, Hc. rewrite Et in Hflow, Hc.
    rewrite Hflow, Hc.
    unfold f3. rewrite Es. cbn [Status_eqb when].
    apply deliverFuel_flow.
  - unfold trackConsumption. rewrite bind_run. cbn [gets fst snd].
    destruct (_ && _); cbn; rewrite ?Ec; reflexivity.
Qed.

(** *** Refilling *)

Lemma random_fill_range (k : nat) :
  40 <= js_floor (random k * 40) + 40 <= 79.
Proof.
  destruct (random_range k) as [H0 H1]. split.
  - pose proof (random_scaled_nonneg k 40). lra.
  - unfold js_floor.
    assert (Hz : (Qfloor (random k * 40) < 40)%Z).
    { rewrite Zlt_Qlt.
      apply Qle_lt_trans with (random k * 40); [ apply Qfloor_le | ].
      change (inject_Z 40) with 40. lra. }
    assert (Hz' : (Qfloor (random k * 40) <= 39)%Z) by lia.
    rewrite Zle_Qle in Hz'. change (inject_Z 39) with 39 in Hz'. lra.
Qed.

(** X5.  The tick of an [uplifting] truck resets [deliveredLiters] to 0
    in every compartment, adds between 40 and 79 litres, up to the
    capacity, to each compartment below 98% and leaves the level of the
    others; the truck becomes [idle] with its trip end points cleared
    exactly when every compartment is then at 95% or more, and does not
    move. *)
Theorem uplifting_tick_refills (now : Z) (truck : Truck) (e : Effects) :
  status truck = uplifting ->
  let t' := fst (tickTruck now truck e) in
  let allFull :=
    forallb (fun comp => Qgeb (currentLevel comp) (capacity comp * 0.95))
            (compartments t') in
  Forall2
    (fun c c' =>
       deliveredLiters c' = Some 0
       /\ targetDelivery c' = targetDelivery c
       /\ if Qltb (currentLevel c) (capacity c * 0.98)
          then exists fill,
                 40 <= fill <= 79
                 /\ currentLevel c' = Qmin (capacity c) (currentLevel c + fill)
          else currentLevel c' = currentLevel c)
    (compartments truck) (compartments t')
  /\ status t' = (if allFull then idle else uplifting)
  /\ (allFull = true -> destination t' = None /\ startPoint t' = None)
  /\ position t' = position truck.
Proof.
  intros Es. cbv zeta.
  destruct (tickTruck_shape now truck e) as (-> & -> & -> & ->).
  destruct (tickTruck_cargo now truck e) as (-> & _); [ congruence | ].
  unfold stepStatus. rewrite Es.
  destruct (uplift_result now truck (initFrame e truck)) as [HF Hst].
  cbv zeta in HF, Hst.
  split; [ | split; [ | split ] ].
  - eapply Forall2_impl; [ | exact HF ].
    intros c c' [s ->].
    destruct (refill_fields now c s) as (Et & Ed).
    destruct (refill_result now c s) as (_ & _ & El).
    cbv zeta in Et, Ed, El.
    split; [ exact Ed | ]. split; [ exact Et | ].
    rewrite El. destruct (Qltb _ _); [ | reflexivity ].
    eexists. split; [ apply random_fill_range | reflexivity ].
  - destruct (forallb _ _).
    + apply Hst.
    + rewrite Hst. exact Es.
  - intros Hfull. rewrite Hfull in Hst. split; apply Hst.
  - assert (Hp : respects
                   (onTruck (fun t t' => position t' = position t))
                   (uplift now truck)).
    { assert (PreOrder (fun t t' : Truck => position t' = position t)).
      { split; [ intros t; reflexivity
               | intros t1 t2 t3 A B; congruence ]. }
      walk ltac:(truck_leaf ltac:(cbn; reflexivity)). }
    apply (Hp (initFrame e truck)).
Qed.

(** X6.  The tick of a truck that is not [delivering] lowers the level
    of none of its compartments, provided no level is above its
    capacity. *)
Theorem parked_truck_keeps_its_fuel (now : Z) (truck : Truck)
    (e : Effects) :
  status truck <> delivering ->
  Forall (fun c => currentLevel c <= capacity c) (compartments truck) ->
  Forall2 (fun c c' => currentLevel c <= currentLevel c')
    (compartments truck) (compartments (fst (tickTruck now truck e))).
Proof.
  intros Hs Hcap.
  destruct (tickTruck_cargo now truck e Hs) as (-> & _).
  unfold stepStatus. destruct (status truck) eqn:Es; try congruence.
  - destruct (drift_result truck (initFrame e truck)) as (_ & -> & _).
    apply Forall2_same. intros c. lra.
  - assert (HA : Forall2 (fun c c' => exists s, c' = fst (allocateTarget c s))
                   (compartments truck)
                   (compartments
                      (newTruck (snd (startDelivery now truck
                                        (initFrame e truck)))))).
    { unfold startDelivery. binds. cbn. apply mapM_Forall2. }
    eapply Forall2_impl; [ | exact HA ].
    intros c c' [s ->].
    destruct (allocateTarget_fields c s) as (_ & -> & _). lra.
  - destruct (uplift_result now truck (initFrame e truck)) as [HF _].
    cbv zeta in HF. revert Hcap.
    induction HF as [ | c c' l l' [s ->] _ IH ]; intros Hcap;
      [ constructor | ].
    inversion Hcap; subst. constructor; [ | apply IH; assumption ].
    destruct (refill_result now c s) as (_ & Hfill & El).
    cbv zeta in Hfill, El. rewrite El.
    destruct (Qltb _ _); [ | lra ].
    match goal with
    | |- context [Qmin ?x ?y] =>
        destruct (Q.min_spec x y) as [[Hlt ->] | [Hle ->]]
    end; lra.
  - destruct (moveToUplifting_result truck (initFrame e truck))
      as (_ & _ & _ & _ & _ & ->).
    apply Forall2_map_r. intros c. cbn. lra.
Qed.

(** *** The commands *)

(** X13.  How the commands compose: of two [assignTrip] on the same
    truck the second wins; [assignTrip] on different trucks, two
    [acknowledgeAlert], and an [assignTrip] and an [acknowledgeAlert]
    commute. *)
Theorem commands_compose (w : World) :
  (forall id d1 d2,
      run w [AssignTrip id d1; AssignTrip id d2] = run w [AssignTrip id d2])
  /\ (forall id1 id2 d1 d2,
        id1 <> id2 ->
        run w [AssignTrip id1 d1; AssignTrip id2 d2]
        = run w [AssignTrip id2 d2; AssignTrip id1 d1])
  /\ (forall a1 a2,
        run w [AcknowledgeAlert a1; AcknowledgeAlert a2]
        = run w [AcknowledgeAlert a2; AcknowledgeAlert a1])
  /\ (forall id d a,
        run w [AssignTrip id d; AcknowledgeAlert a]
        = run w [AcknowledgeAlert a; AssignTrip id d]).
Proof.
  split; [ | split; [ | split ] ].
  - intros id d1 d2. cbn [run fold_left step trucks alerts totalSavings
                          fuelConsumptionData fuelLossHistory draws].
    f_equal. unfold assignTrip. rewrite map_map. apply map_ext. intros t.
    destruct (String.eqb (truck_id t) id) eqn:E; cbn; rewrite E; reflexivity.
  - intros id1 id2 d1 d2 Hne.
    cbn [run fold_left step trucks alerts totalSavings
         fuelConsumptionData fuelLossHistory draws].
    f_equal. unfold assignTrip. rewrite !map_map. apply map_ext. intros t.
    destruct (String.eqb (truck_id t) id1) eqn:E1,
      (String.eqb (truck_id t) id2) eqn:E2; cbn; rewrite ?E1, ?E2;
      try reflexivity.
    apply String.eqb_eq in E1, E2. congruence.
  - intros a1 a2.
    cbn [run fold_left step trucks alerts totalSavings
         fuelConsumptionData fuelLossHistory draws].
    f_equal. unfold acknowledgeAlert. rewrite !map_map. apply map_ext.
    intros a.
    destruct (String.eqb (alert_id a) a1) eqn:E1,
      (String.eqb (alert_id a) a2) eqn:E2; cbn; rewrite ?E1, ?E2;
      reflexivity.
  - intros id d a. reflexivity.
Qed.

(** X14.  Whatever a truck was doing, one tick after [assignTrip] it is
    [delivering] to the new destination, from where it stood and without
    having moved, with a new assignment started at that tick of between
    2500 and 5000 litres and no provisional loss: an assignment it had
    before is replaced. *)
Theorem assign_then_tick_delivers (w : World) (now : Z) (i : nat)
    (truck : Truck) (dest : Destination) :
  nth_error (trucks w) i = Some truck ->
  exists t',
    nth_error (trucks (run w [AssignTrip (truck_id truck) dest; Tick now])) i
    = Some t'
    /\ status t' = delivering
    /\ destination t' = Some dest
    /\ startPoint t' = Some (position truck)
    /\ position t' = position truck
    /\ exists a, currentAssignment t' = Some a
                 /\ startedAt a = now
                 /\ provisionalLossLiters a = 0
                 /\ 2500 <= assignedLiters a /\ assignedLiters a < 5000.
Proof.
  intros Hi. cbn [run fold_left].
  set (w1 := step w (AssignTrip (truck_id truck) dest)).
  set (t1 := set_startPoint (Some (position truck))
               (set_destination (Some dest) (set_status assigned truck))).
  assert (H1 : nth_error (trucks w1) i = Some t1).
  { unfold w1. cbn [step trucks]. unfold assignTrip.
    rewrite nth_error_map, Hi. cbn [option_map].
    rewrite String.eqb_refl. reflexivity. }
  destruct (tick_nth now w1 i t1 H1) as (e & He).
  exists (fst (tickTruck now t1 e)). split; [ exact He | ].
  destruct (tickTruck_shape now t1 e) as (-> & -> & -> & ->).
  destruct (tickTruck_cargo now t1 e) as (_ & ->); [ discriminate | ].
  unfold stepStatus. cbn [status t1 set_startPoint set_destination set_status].
  destruct (startDelivery_result now t1 (initFrame e t1))
    as (-> & (a & Ha & Ht & Hl) & _).
  cbv zeta in Ha, Ht.
  assert (Hk : respects
                 (onTruck (fun t t' => position t' = position t
                                       /\ destination t' = destination t
                                       /\ startPoint t' = startPoint t))
                 (startDelivery now t1)).
  { assert (PreOrder (fun t t' : Truck =>
                        position t' = position t
                        /\ destination t' = destination t
                        /\ startPoint t' = startPoint t)).
    { split; [ intros t; repeat split
             | intros x y z (A1 & A2 & A3) (B1 & B2 & B3);
               repeat split; congruence ]. }
    walk ltac:(truck_leaf ltac:(cbn; repeat split; reflexivity)). }
  destruct (Hk (initFrame e t1)) as (-> & -> & ->).
  split; [ reflexivity | ]. do 3 (split; [ reflexivity | ]).
  exists a. split; [ exact Ha | ].
  assert (Hs : startedAt a = now).
  { revert Ha. unfold startDelivery. binds. cbn.
    set (s1 := snd (mapM allocateTarget _ _)). intros Ha.
    injection Ha as <-. reflexivity. }
  split; [ exact Hs | ]. split; [ exact Hl | ].
  rewrite Ht. apply random_total_range.
Qed.

(** *** Ranges of the scaled draws *)

Lemma random_savings_range (k : nat) :
  0 <= js_floor (random k * 100) <= 99.
Proof.
  destruct (random_range k) as [H0 H1]. split.
  - apply random_scaled_nonneg. lra.
  - unfold js_floor.
    assert (Hz : (Qfloor (random k * 100) < 100)%Z).
    { rewrite Zlt_Qlt.
      apply Qle_lt_trans with (random k * 100); [ apply Qfloor_le | ].
      change (inject_Z 100) with 100. lra. }
    assert (Hz' : (Qfloor (random k * 100) <= 99)%Z) by lia.
    rewrite Zle_Qle in Hz'. change (inject_Z 99) with 99 in Hz'. lra.
Qed.

(** *** The levels of a delivering truck *)

Lemma random_drain_range (k : nat) :
  20 <= js_floor (random k * 40) + 20 <= 59.
Proof.
  destruct (random_fill_range k) as [H0 H1]. split; lra.
Qed.

Lemma random_theft_range (k : nat) :
  50 <= js_floor (random k * 100) + 50 <= 149.
Proof.
  destruct (random_savings_range k) as [H0 H1]. split; lra.
Qed.

(** What the drain takes from a compartment is what it adds to
    [deliveredLiters], between 0 and 59 litres. *)
Lemma drain_amount now truck comp s :
  let c' := fst (drain now truck comp s) in
  exists m, 0 <= m <= 59
    /\ currentLevel c' == currentLevel comp - m
    /\ orZero (deliveredLiters c') == orZero (deliveredLiters comp) + m.
Proof.
  cbv zeta.
  destruct (drain_result now truck comp s)
    as [-> | (_ & _ & _ & Hm & El & Ed & _)].
  - exists 0. repeat split; lra.
  - cbv zeta in Hm, El, Ed.
    match type of Hm with
    | 0 < Qmin3 ?x ?y ?z =>
        destruct (Qmin3_le x y z) as (Hx & _ & _); exists (Qmin3 x y z)
    end.
    destruct (random_drain_range (cursor (fx s))) as [_ R1].
    rewrite El, Ed. cbn [orZero]. repeat split; lra.
Qed.

Lemma theftEvent_amount now truck f :
  exists stolen, 0 <= stolen <= 149 /\
    Forall2 (fun c c' =>
               c' = c
               \/ c' = set_currentLevel (Qmax 0 (currentLevel c - stolen)) c)
      (compartments (newTruck f))
      (compartments (newTruck (snd (theftEvent now truck f)))).
Proof.
  unfold theftEvent.
  rewrite bind_run; cbv beta.
  destruct (0 <? _)%nat.
  2:{ exists 0. split; [ split; lra | apply Forall2_same; auto ]. }
  rewrite bind_run; cbv beta.
  destruct (nth_error _ _) as [victim |].
  2:{ exists 0. split; [ split; lra | apply Forall2_same; auto ]. }
  exists (js_floor (random (S (cursor (fx f))) * 100) + 50). split.
  - destruct (random_theft_range (S (cursor (fx f)))). split; lra.
  - binds. cbn. apply Forall2_map_r.
    intros c. destruct (String.eqb _ _); auto.
Qed.

Lemma deliverFuel_amounts now truck f :
  Forall2
    (fun c c' =>
       exists m stolen,
         0 <= m <= 59 /\ 0 <= stolen <= 149
         /\ orZero (deliveredLiters c') == orZero (deliveredLiters c) + m
         /\ (currentLevel c' == currentLevel c - m
             \/ currentLevel c' == Qmax 0 (currentLevel c - m - stolen)))
    (compartments truck)
    (compartments (newTruck (snd (deliverFuel now truck f)))).
Proof.
  unfold deliverFuel.
  do 5 (rewrite bind_run; cbv beta).
  match goal with
  | |- Forall2 _ _ (compartments (newTruck (snd (?tail ?s)))) =>
      assert (H : respects keepsCargo tail);
      [ | destruct (H s) as [-> _]; clear H ]
  end.
  { apply respects_bind; [ exact _ | apply mathRandom_keeps | intro ].
    apply respects_bind;
      [ exact _
      | apply respects_when; [ exact _ | apply valveEvent_keeps ]
      | intro ].
    apply respects_bind; [ exact _ | apply mathRandom_keeps | intro ].
    apply respects_bind;
      [ exact _
      | apply respects_when; [ exact _ | apply tiltEvent_keeps ]
      | intro ].
    apply respects_bind; [ exact _ | apply respects_gets; exact _ | intro ].
    apply updTruck_cargo. intros t. split; reflexivity. }
  match goal with
  | |- context [mapM ?g ?l ?s] => pose proof (mapM_Forall2 g l s) as Hd
  end.
  destruct (Qltb _ 0.005); cbn [when].
  - match goal with
    | |- context [theftEvent now truck ?s] =>
        destruct (theftEvent_amount now truck s) as (stolen & Hs & Ht)
    end.
    cbn in Ht.
    eapply Forall2_compose; [ | exact Hd | exact Ht ].
    intros a b c [s' ->] Hc.
    destruct (drain_amount now truck a s') as (m & Hm & El & Ed).
    cbv zeta in El, Ed.
    destruct Hc as [-> | ->].
    + exists m, 0. repeat split; first [ lra | left; exact El ].
    + exists m, stolen. cbn [deliveredLiters currentLevel set_currentLevel].
      repeat split; first [ lra | right; rewrite El; reflexivity ].
  - cbn. eapply Forall2_impl; [ | exact Hd ].
    intros a b [s' ->].
    destruct (drain_amount now truck a s') as (m & Hm & El & Ed).
    cbv zeta in El, Ed.
    exists m, 0. repeat split; first [ lra | left; exact El ].
Qed.

(** X29.  The tick of a [delivering] truck raises the level of none of
    its compartments and lowers none by more than 208 litres, the 59 a
    drain takes at most and the 149 a theft takes at most, provided no
    level is negative; and it lowers no [deliveredLiters] and adds at
    most 59 litres to it. *)
Theorem delivering_tick_level_drop (now : Z) (truck : Truck)
    (e : Effects) :
  status truck = delivering ->
  Forall (fun c => 0 <= currentLevel c) (compartments truck) ->
  Forall2
    (fun c c' =>
       currentLevel c - 208 <= currentLevel c'
       /\ currentLevel c' <= currentLevel c
       /\ orZero (deliveredLiters c) <= orZero (deliveredLiters c')
       /\ orZero (deliveredLiters c') <= orZero (deliveredLiters c) + 59)
    (compartments truck) (compartments (fst (tickTruck now truck e))).
Proof.
  intros Es Hpos. unfold tickTruck. cbn [fst]. unfold truckBody.
  rewrite Es. cbn [Status_eqb when].
  do 3 (rewrite bind_run; cbv beta).
  destruct (afterFuel_keeps now truck) as (_ & Hcargo & _).
  cbv zeta in Hcargo.
  match goal with
  | |- context [deliverFuel now truck ?s] =>
      destruct (Hcargo (snd (deliverFuel now truck s))) as [-> _];
      pose proof (deliverFuel_amounts now truck s) as HF
  end.
  revert Hpos. induction HF as [ | c c' l l' Hc _ IH ]; intros Hpos;
    [ constructor | ].
  inversion Hpos; subst. constructor; [ | apply IH; assumption ].
  destruct Hc as (m & stolen & Hm & Hs & Ed & [El | El]); rewrite El.
  - repeat split; lra.
  - match goal with
    | |- context [Qmax ?x ?y] =>
        destruct (Q.max_spec x y) as [[Hlt ->] | [Hle ->]]
    end; repeat split; lra.
Qed.

(** *** The trail *)

(** X30.  After a tick the trail of every truck is the last 20 entries of
    its trail before, in their order, followed by one entry that holds
    the position of the truck after the tick and the time of the tick. *)
Theorem tick_trail_records_position (now : Z) (w : World) :
  Forall2
    (fun t t' =>
       trail t'
       = (slice_last 20 (trail t)
            ++ [ {| trail_lat := lat (position t');
                    trail_lng := lng (position t'); trail_ts := now |} ])%list)
    (trucks w) (trucks (tick now w)).
Proof.
  eapply Forall2_impl; [ | apply tick_trucks ].
  intros t t' [e ->]. apply tickTruck_trail.
Qed.

(** *** The savings counter *)

Lemma step_savings (w : World) (ev : Event) :
  totalSavings w <= totalSavings (step w ev)
  /\ totalSavings (step w ev)
     <= totalSavings w + 99 * inject_Z (Z.of_nat (ticksIn [ev])).
Proof.
  destruct ev as [ now | truckId dest | alertId ];
    cbn [step tick totalSavings]; unfold ticksIn; cbn [filter List.length].
  - change (inject_Z (Z.of_nat 1)) with 1.
    match goal with
    | |- context [js_floor (random ?k * 100)] =>
        destruct (random_savings_range k) as [R0 R1]
    end.
    split; lra.
  - change (inject_Z (Z.of_nat 0)) with 0. split; lra.
  - change (inject_Z (Z.of_nat 0)) with 0. split; lra.
Qed.

(** X28.  [totalSavings] never falls: a tick adds a whole number between
    0 and 99 to it and the commands leave it alone, so after a run of
    events it has grown by at most 99 for every tick of the run. *)
Theorem savings_never_fall (w : World) (evs : list Event) :
  totalSavings w <= totalSavings (run w evs)
  /\ totalSavings (run w evs)
     <= totalSavings w + 99 * inject_Z (Z.of_nat (ticksIn evs)).
Proof.
  revert w. induction evs as [ | ev evs IH ]; intros w.
  - cbn [run fold_left]. unfold ticksIn. cbn [filter List.length].
    change (inject_Z (Z.of_nat 0)) with 0. split; lra.
  - cbn [run fold_left].
    change (fold_left step evs (step w ev)) with (run (step w ev) evs).
    destruct (IH (step w ev)) as [I1 I2].
    destruct (step_savings w ev) as [S1 S2].
    assert (E : ticksIn (ev :: evs) = (ticksIn [ev] + ticksIn evs)%nat).
    { unfold ticksIn. cbn [filter]. destruct ev; reflexivity. }
    rewrite E, Nat2Z.inj_add, inject_Z_plus. split; lra.
Qed.

End FleetFacts.

(** ** The dashboards *)

Section DashboardFacts.

Lemma fold_sum_from {A} (g : A -> Q) (l : list A) (a : Q) :
  fold_left (fun sum x => sum + g x) l a
  == a + fold_left (fun sum x => sum + g x) l 0.
Proof.
  revert a. induction l as [ | x l IH ]; intros a; cbn [fold_left].
  - lra.
  - rewrite IH, (IH (0 + _)). lra.
Qed.

Lemma fold_sum_bounds {A} (g : A -> Q) (lo hi : Q) (l : list A) :
  Forall (fun x => lo <= g x <= hi) l ->
  inject_Z (Z.of_nat (List.length l)) * lo
  <= fold_left (fun sum x => sum + g x) l 0
  /\ fold_left (fun sum x => sum + g x) l 0
     <= inject_Z (Z.of_nat (List.length l)) * hi.
Proof.
  induction 1 as [ | x l [Hlo Hhi] _ [IH1 IH2] ].
  - cbn [fold_left List.length]. change (inject_Z (Z.of_nat 0)) with 0.
    split; lra.
  - cbn [fold_left List.length]. rewrite fold_sum_from.
    rewrite Nat2Z.inj_succ. unfold Z.succ. rewrite inject_Z_plus.
    change (inject_Z 1) with 1. split; lra.
Qed.

Lemma centroid_fold (poly : list Point) (a : Point) :
  let sum := fold_left
               (fun a p => {| lat := lat a + lat p; lng := lng a + lng p |})
               poly a in
  lat sum = fold_left (fun s p => s + lat p) poly (lat a)
  /\ lng sum = fold_left (fun s p => s + lng p) poly (lng a).
Proof.
  cbv zeta. revert a. induction poly as [ | p poly IH ]; intros a.
  - split; reflexivity.
  - cbn [fold_left]. destruct (IH {| lat := lat a + lat p;
                                     lng := lng a + lng p |}) as [E1 E2].
    rewrite E1, E2. split; reflexivity.
Qed.

(** X21.  [centroidLatLng] of a ring that is not empty lies in the
    bounding box of its vertices. *)
Theorem centroid_in_bounding_box (latLo latHi lngLo lngHi : Q)
    (p : Point) (poly : list Point) :
  Forall (fun v => latLo <= lat v <= latHi /\ lngLo <= lng v <= lngHi)
    (p :: poly) ->
  latLo <= lat (centroidLatLng (p :: poly)) <= latHi
  /\ lngLo <= lng (centroidLatLng (p :: poly)) <= lngHi.
Proof.
  intros HF. unfold centroidLatLng.
  destruct (centroid_fold (p :: poly) {| lat := 0; lng := 0 |}) as [E1 E2].
  cbv zeta in E1, E2. cbv zeta. cbn [lat lng] in *. rewrite E1, E2.
  set (n := inject_Z (Z.of_nat (List.length (p :: poly)))).
  assert (Hn : 0 < n).
  { unfold n. change 0 with (inject_Z 0). rewrite <- Zlt_Qlt.
    cbn [List.length]. lia. }
  destruct (fold_sum_bounds lat latLo latHi (p :: poly)) as [A1 A2].
  { eapply Forall_impl; [ | exact HF ]. intros v [H _]. exact H. }
  destruct (fold_sum_bounds lng lngLo lngHi (p :: poly)) as [B1 B2].
  { eapply Forall_impl; [ | exact HF ]. intros v [_ H]. exact H. }
  fold n in A1, A2, B1, B2.
  repeat split.
  - apply Qle_shift_div_l; [ exact Hn | lra ].
  - apply Qle_shift_div_r; [ exact Hn | lra ].
  - apply Qle_shift_div_l; [ exact Hn | lra ].
  - apply Qle_shift_div_r; [ exact Hn | lra ].
Qed.

Lemma centroid_rectangle (latLo latHi lngLo lngHi : Q) :
  lat (centroidLatLng (rectangleRing latLo latHi lngLo lngHi))
  == (latLo + latHi) / 2
  /\ lng (centroidLatLng (rectangleRing latLo latHi lngLo lngHi))
     == (lngLo + lngHi) / 2.
Proof.
  unfold centroidLatLng, rectangleRing. cbn [fold_left lat lng List.length].
  change (inject_Z (Z.of_nat 4)) with 4. split; field.
Qed.

Lemma pointInPolygon_Qeq (lat0 lat1 lng0 lng1 latLo latHi lngLo lngHi : Q) :
  latLo < latHi -> lngLo < lngHi -> lat0 == lat1 -> lng0 == lng1 ->
  pointInPolygon lat0 lng0 (rectangleRing latLo latHi lngLo lngHi)
  = pointInPolygon lat1 lng1 (rectangleRing latLo latHi lngLo lngHi).
Proof.
  intros H1 H2 E1 E2.
  destruct (pointInPolygon lat1 lng1 _) eqn:E.
  - apply rectangle_test in E; try assumption.
    apply rectangle_test; try assumption.
    rewrite E1, E2. exact E.
  - apply not_true_iff_false. intros H.
    apply rectangle_test in H; try assumption.
    rewrite E1, E2 in H.
    apply rectangle_test in H; try assumption. congruence.
Qed.

(** X22.  The destinations of the trip form are the depot and delivery
    zones, in their order, under their ids and names, and never a danger
    zone; when the zones are circles with a centre and a non-negative
    radius or rectangles, as [GEOFENCE_ZONES] are, the point offered for
    a zone lies in that zone by [isInZone]. *)
Theorem destination_lies_in_its_zone (zones : list GeoZone) :
  Forall properZone zones ->
  Forall2
    (fun z d =>
       opt_id d = zone_id z /\ opt_name d = zone_name z
       /\ zone_type z <> danger
       /\ isInZone (opt_lat d) (opt_lng d) z = true)
    (filter isDestinationZone zones) (destinationsOf zones).
Proof.
  intros HP. unfold destinationsOf.
  induction HP as [ | z zones Hz _ IH ]; [ constructor | ].
  cbn [filter]. destruct (isDestinationZone z) eqn:Ed; [ | exact IH ].
  cbn [map]. constructor; [ | exact IH ].
  cbn [opt_id opt_name opt_lat opt_lng].
  split; [ reflexivity | ]. split; [ reflexivity | ]. split.
  { unfold isDestinationZone in Ed. destruct (zone_type z); congruence. }
  unfold destinationPoint, isInZone.
  destruct Hz as [ c r Hs Hc Hr Hpos | latLo latHi lngLo lngHi Hs Hp H1 H2 ].
  - rewrite Hs, Hc, Hr.
    apply isInsideCircle_centre. exact Hpos.
  - rewrite Hs, Hp.
    assert (E : pointInPolygon
                  (lat (centroidLatLng (rectangleRing latLo latHi lngLo lngHi)))
                  (lng (centroidLatLng (rectangleRing latLo latHi lngLo lngHi)))
                  (rectangleRing latLo latHi lngLo lngHi) = true).
    { destruct (centroid_rectangle latLo latHi lngLo lngHi) as [E1 E2].
      rewrite (pointInPolygon_Qeq _ _ _ _ _ _ _ _ H1 H2 E1 E2).
      apply rectangle_test; try assumption.
      repeat split.
      - apply Qle_shift_div_l; lra.
      - apply Qlt_shift_div_r; lra.
      - apply Qle_shift_div_l; lra.
      - apply Qlt_shift_div_r; lra. }
    destruct (center z); exact E.
Qed.

Lemma find_destination (zones : list GeoZone) (id : string)
    (d : DestinationOption) :
  find (fun d => String.eqb (opt_id d) id) (destinationsOf zones) = Some d ->
  exists z, In z zones /\ zone_type z <> danger /\ zone_id z = id
            /\ d = {| opt_id := zone_id z; opt_name := zone_name z;
                      opt_lat := lat (destinationPoint z);
                      opt_lng := lng (destinationPoint z) |}.
Proof.
  intros H. apply find_some in H. destruct H as [Hin Hid].
  unfold destinationsOf in Hin. apply in_map_iff in Hin.
  destruct Hin as (z & <- & Hz). apply filter_In in Hz.
  destruct Hz as [Hz Hd]. exists z. split; [ exact Hz | ]. split.
  - unfold isDestinationZone in Hd. destruct (zone_type z); congruence.
  - split; [ | reflexivity ]. apply String.eqb_eq. exact Hid.
Qed.

(** X23.  [handleAssignTrip] leaves the selections and the fleet as they
    are when a selection is empty, when no truck has the selected id, or
    when the selected id is that of no zone other than a danger zone;
    and whatever it does, the fleet is either unchanged or the result of
    [assignTrip] on the selected truck with the point and the name of a
    depot or delivery zone of the selected id, the selections being
    cleared. *)
Theorem handleAssignTrip_outcomes (confirm : option (R -> bool))
    (zones : list GeoZone) (sel : Selection) (ts : list Truck) :
  let r := handleAssignTrip confirm zones sel ts in
  ((forall z, In z zones -> zone_id z = selectedDestination sel ->
              zone_type z = danger) ->
   r = (sel, ts))
  /\ ((forall t, In t ts -> truck_id t <> selectedTruck sel) ->
      r = (sel, ts))
  /\ (selectedTruck sel = EmptyString \/ selectedDestination sel = EmptyString
      -> r = (sel, ts))
  /\ (r = (sel, ts)
      \/ exists z,
           In z zones /\ zone_type z <> danger
           /\ zone_id z = selectedDestination sel
           /\ r = ({| selectedTruck := EmptyString;
                      selectedDestination := EmptyString |},
                   assignTrip (selectedTruck sel)
                     {| dest_lat := lat (destinationPoint z);
                        dest_lng := lng (destinationPoint z);
                        dest_name := zone_name z |} ts)).
Proof.
  cbv zeta. unfold handleAssignTrip.
  destruct (truthy (selectedTruck sel) && truthy (selectedDestination sel))
    eqn:Et.
  2:{ repeat split; auto. }
  destruct (find _ (destinationsOf zones)) as [ d | ] eqn:Ed.
  2:{ repeat split; auto. }
  destruct (find_destination zones _ d Ed) as (z & Hz & Hty & Hid & ->).
  destruct (find _ ts) as [ t | ] eqn:Ef.
  2:{ repeat split; auto. }
  apply find_some in Ef. destruct Ef as [Hin Heq].
  apply String.eqb_eq in Heq.
  split; [ | split; [ | split ] ].
  - intros Hd. exfalso. apply Hty. apply Hd; assumption.
  - intros Hno. exfalso. apply (Hno t Hin). exact Heq.
  - intros [E | E]; rewrite E in Et; cbn in Et;
      [ discriminate | rewrite andb_false_r in Et; discriminate ].
  - cbv zeta. cbn [opt_lat opt_lng].
    match goal with
    | |- context [if ?c then (_, assignTrip _ _ _) else _] => destruct c
    end.
    + right. exists z. repeat split; assumption.
    + left. reflexivity.
Qed.

Lemma countStatus_cons (s : Status) (t : Truck) (ts : list Truck) :
  countStatus s (t :: ts)
  = ((if Status_eqb (status t) s then 1 else 0) + countStatus s ts)%nat.
Proof.
  unfold countStatus. cbn [filter].
  destruct (Status_eqb (status t) s); reflexivity.
Qed.

(** X24.  The status figures of the operator dashboard: the five status
    counts add up to the number of trucks, and so do the [Active], idle
    and completed figures; the available trucks are the idle ones, the
    active trucks the delivering and assigned ones; and the offline count
    is at most the number of trucks. *)
Theorem statusCounts_partition (ts : list Truck) :
  let c := statusCounts ts in
  (count_idle c + count_delivering c + count_assigned c + count_uplifting c
   + count_completed c = count_all c)%nat
  /\ (kpiActive ts + count_idle c + count_completed c = count_all c)%nat
  /\ List.length (availableTrucks ts) = count_idle c
  /\ (List.length (activeTrucks ts)
      = count_delivering c + count_assigned c)%nat
  /\ (count_offline c <= count_all c)%nat.
Proof.
  cbv zeta. unfold kpiActive, statusCounts, availableTrucks, activeTrucks.
  cbn [count_all count_idle count_delivering count_assigned count_uplifting
       count_completed count_offline].
  induction ts as [ | t ts (IH1 & IH2 & IH3 & IH4 & IH5) ].
  - cbn. repeat split; lia.
  - rewrite !countStatus_cons. cbn [List.length filter].
    fold (countStatus idle ts) in IH3.
    destruct (status t); cbn [Status_eqb orb List.length];
      destruct (negb (online (telemetry t))); cbn [List.length];
      repeat split; lia.
Qed.

(** X25.  After [acknowledgeAlert] the unacknowledged alerts of the
    dashboards are the former ones without those of the given id, in
    their order: none of that id is left and the count does not grow. *)
Theorem acknowledged_alert_leaves_incidents (alertId : string)
    (al : list Alert) :
  unacknowledgedAlerts (acknowledgeAlert alertId al)
  = filter (fun a => negb (String.eqb (alert_id a) alertId))
      (unacknowledgedAlerts al)
  /\ (forall a, In a (unacknowledgedAlerts (acknowledgeAlert alertId al)) ->
                alert_id a <> alertId)
  /\ (List.length (unacknowledgedAlerts (acknowledgeAlert alertId al))
      <= List.length (unacknowledgedAlerts al))%nat.
Proof.
  assert (E : unacknowledgedAlerts (acknowledgeAlert alertId al)
              = filter (fun a => negb (String.eqb (alert_id a) alertId))
                  (unacknowledgedAlerts al)).
  { unfold unacknowledgedAlerts, acknowledgeAlert.
    induction al as [ | a al IH ]; [ reflexivity | ].
    cbn [map filter].
    destruct (String.eqb (alert_id a) alertId) eqn:Ei.
    - cbn [acknowledged set_acknowledged negb]. rewrite IH.
      destruct (negb (acknowledged a)); [ | reflexivity ].
      cbn [filter]. rewrite Ei. reflexivity.
    - rewrite IH. destruct (negb (acknowledged a)); [ | reflexivity ].
      cbn [filter]. rewrite Ei. reflexivity. }
  split; [ exact E | ]. split.
  - intros a Ha. rewrite E in Ha. apply filter_In in Ha.
    destruct Ha as [_ Hn]. apply negb_true_iff in Hn.
    apply String.eqb_neq. exact Hn.
  - rewrite E. apply filter_length_le.
Qed.


Lemma fold_sum_nonneg {A} (g : A -> Q) (l : list A) :
  Forall (fun x => 0 <= g x) l ->
  0 <= fold_left (fun sum x => sum + g x) l 0.
Proof.
  induction 1 as [ | x l Hx _ IH ]; cbn [fold_left]; [ lra | ].
  rewrite fold_sum_from. lra.
Qed.


(** X27.  The figures of the client dashboard, while every level is
    between 0 and its capacity: the delivered total (the empty space of
    the tanks) is not negative, the pending litres are between 0 and the
    15000 ordered, the progress is between 0 and 100, and as long as the
    delivered total is at most the order, pending and delivered add up to
    the order and the progress is their ratio in percent. *)
Theorem client_figures (w : World) :
  fleetInvariant levelWithinCapacity w ->
  0 <= totalDelivered (trucks w)
  /\ 0 <= pendingLiters (trucks w) <= totalOrdered
  /\ 0 <= progressPct (trucks w) <= 100
  /\ (totalDelivered (trucks w) <= totalOrdered ->
      pendingLiters (trucks w) + totalDelivered (trucks w) == totalOrdered
      /\ progressPct (trucks w)
         == totalDelivered (trucks w) / totalOrdered * 100).
Proof.
  intros Hw. unfold fleetInvariant in Hw.
  assert (H0 : 0 <= totalDelivered (trucks w)).
  { unfold totalDelivered.
    apply (fold_sum_nonneg
             (fun truck => fold_left (fun sum comp =>
                             sum + (capacity comp - currentLevel comp))
                             (compartments truck) 0)).
    eapply Forall_impl; [ | exact Hw ]. intros t Ht. cbv beta.
    apply (fold_sum_nonneg (fun comp => capacity comp - currentLevel comp)).
    eapply Forall_impl; [ | exact Ht ]. intros c [_ H]. lra. }
  unfold pendingLiters, progressPct, totalOrdered in *. cbv zeta.
  replace (Qgtb (Qmax 0 15000) 0) with true by reflexivity.
  assert (E15 : Qmax 0 15000 == 15000) by (apply Q.max_r; lra).
  assert (Ed : Qmax 0 (totalDelivered (trucks w))
               == totalDelivered (trucks w)) by (apply Q.max_r; exact H0).
  rewrite E15, Ed.
  set (D := totalDelivered (trucks w)) in *.
  assert (Hr : 0 <= D / 15000 * 100).
  { assert (0 <= D / 15000) by (apply Qle_shift_div_l; lra). lra. }
  assert (Em : Qmax (D / 15000 * 100) 0 == D / 15000 * 100)
    by (apply Q.max_l; exact Hr).
  rewrite Em.
  split; [ exact H0 | ]. split; [ | split ].
  - split; [ apply Q.le_max_r | ].
    apply Q.max_lub; lra.
  - split.
    + apply Q.min_glb; lra.
    + apply Q.le_min_r.
  - intros Hle. split.
    + rewrite Q.max_l by lra. lra.
    + apply Q.min_l.
      assert (D / 15000 <= 1) by (apply Qle_shift_div_r; lra). lra.
Qed.

End DashboardFacts.

(** ** The further properties at concrete inputs *)

(** X2 at [TK004] of the seed fleet. *)
Lemma completed_tick_witness :
  status TK004 = completed
  /\ status (fst (@tickTruck midDraws 1500 TK004 (effectsOf seedFleet)))
     = uplifting.
Proof.
  split; [ reflexivity | ].
  exact (proj1 (@completed_tick_closes_compartments midDraws 1500 TK004
                  (effectsOf seedFleet) eq_refl)).
Defined.

(** X3 at [TK001] of the seed fleet. *)
Lemma idle_tick_witness :
  status TK001 = idle
  /\ status (fst (@tickTruck midDraws 1500 TK001 (effectsOf seedFleet)))
     = idle.
Proof.
  split; [ reflexivity | ].
  exact (proj1 (@idle_tick_only_drifts midDraws 1500 TK001
                  (effectsOf seedFleet) eq_refl)).
Defined.

(** X4 at [TK002] of the seed fleet, on its way to [AL_KHUWAIR_BP]. *)
Lemma delivering_tick_witness :
  status TK002 = delivering
  /\ destination TK002 = Some AL_KHUWAIR_BP
  /\ Qabs (lat (position (fst (@tickTruck midDraws 1500 TK002
                                 (effectsOf seedFleet))))
           - dest_lat AL_KHUWAIR_BP)
     <= 0.99 * Qabs (lat (position TK002) - dest_lat AL_KHUWAIR_BP) + 0.0005.
Proof.
  split; [ reflexivity | ]. split; [ reflexivity | ].
  exact (proj1 (proj2 (proj2 (proj2
           (@delivering_tick_approaches midDraws 1500 TK002
              AL_KHUWAIR_BP (effectsOf seedFleet) eq_refl eq_refl))))).
Defined.

(** X5 at [TK005] of the seed fleet. *)
Lemma uplifting_tick_witness :
  status TK005 = uplifting
  /\ position (fst (@tickTruck midDraws 1500 TK005 (effectsOf seedFleet)))
     = position TK005.
Proof.
  split; [ reflexivity | ].
  exact (proj2 (proj2 (proj2
           (@uplifting_tick_refills midDraws 1500 TK005
              (effectsOf seedFleet) eq_refl)))).
Defined.

(** X6 at [TK005] of the seed fleet. *)
Lemma parked_truck_witness :
  status TK005 <> delivering
  /\ Forall (fun c => currentLevel c <= capacity c) (compartments TK005)
  /\ Forall2 (fun c c' => currentLevel c <= currentLevel c')
       (compartments TK005)
       (compartments (fst (@tickTruck midDraws 1500 TK005
                             (effectsOf seedFleet)))).
Proof.
  assert (H1 : status TK005 <> delivering) by discriminate.
  assert (H2 : Forall (fun c => currentLevel c <= capacity c)
                 (compartments TK005)).
  { repeat (apply Forall_cons || apply Forall_nil); cbn; lra. }
  split; [ exact H1 | ]. split; [ exact H2 | ].
  exact (@parked_truck_keeps_its_fuel midDraws 1500 TK005
           (effectsOf seedFleet) H1 H2).
Defined.

(** X10 at the seed fleet, over a tick, a trip assigned to [TK001] and a
    second tick. *)
Lemma buffers_witness :
  buffersCapped seedFleet
  /\ buffersCapped
       (@run midDraws seedFleet
          [Tick 1500; AssignTrip "TK001" QURUM_SHELL; Tick 3000]).
Proof.
  assert (H : buffersCapped seedFleet).
  { unfold buffersCapped, deliveryLogCapped. split; [ | cbn; lia ].
    repeat (apply Forall_cons || apply Forall_nil); cbn;
      (split; [ lia | ]);
      repeat (apply Forall_cons || apply Forall_nil); cbn; lia. }
  split; [ exact H | ].
  exact (@buffers_stay_capped midDraws seedFleet
           [Tick 1500; AssignTrip "TK001" QURUM_SHELL; Tick 3000] H).
Defined.

(** X14 at [TK002] of the seed fleet, sent to [QURUM_SHELL] while it is
    delivering to [AL_KHUWAIR_BP]. *)
Lemma assign_then_tick_witness :
  nth_error (trucks seedFleet) 1 = Some TK002
  /\ exists t',
       nth_error (trucks (@run midDraws seedFleet
                            [AssignTrip (truck_id TK002) QURUM_SHELL;
                             Tick 1500])) 1
       = Some t'
       /\ status t' = delivering
       /\ destination t' = Some QURUM_SHELL
       /\ startPoint t' = Some (position TK002)
       /\ position t' = position TK002
       /\ exists a, currentAssignment t' = Some a
                    /\ startedAt a = 1500%Z
                    /\ provisionalLossLiters a = 0
                    /\ 2500 <= assignedLiters a /\ assignedLiters a < 5000.
Proof.
  split; [ reflexivity | ].
  exact (@assign_then_tick_delivers midDraws seedFleet 1500 1 TK002
           QURUM_SHELL eq_refl).
Defined.

(** X29 at [TK002] of the seed fleet. *)
Lemma delivering_level_witness :
  status TK002 = delivering
  /\ Forall (fun c => 0 <= currentLevel c) (compartments TK002)
  /\ Forall2
       (fun c c' =>
          currentLevel c - 208 <= currentLevel c'
          /\ currentLevel c' <= currentLevel c
          /\ orZero (deliveredLiters c) <= orZero (deliveredLiters c')
          /\ orZero (deliveredLiters c') <= orZero (deliveredLiters c) + 59)
       (compartments TK002)
       (compartments (fst (@tickTruck midDraws 1500 TK002
                             (effectsOf seedFleet)))).
Proof.
  assert (H : Forall (fun c => 0 <= currentLevel c) (compartments TK002)).
  { repeat (apply Forall_cons || apply Forall_nil); cbn; lra. }
  split; [ reflexivity | ]. split; [ exact H | ].
  exact (@delivering_tick_level_drop midDraws 1500 TK002
           (effectsOf seedFleet) eq_refl H).
Defined.

(** X16 at the ring of the Airport Depot and the point [(0, 0)]. *)
Lemma outside_bounding_box_witness :
  pointInPolygon 0 0 (rectangleRing 23.5926 23.5936 58.2839 58.2851) = false.
Proof.
  apply (pointInPolygon_outside_bounding_box 0 0
           23.5926 23.5936 58.2839 58.2851).
  - repeat (apply Forall_cons || apply Forall_nil); cbn; repeat split; lra.
  - left. lra.
Defined.

(** X17 at the ring of the Airport Depot and the landmark
    [AIRPORT_DEPOT]. *)
Lemma rectangle_witness :
  pointInPolygon (lat AIRPORT_DEPOT) (lng AIRPORT_DEPOT)
    (rectangleRing 23.5926 23.5936 58.2839 58.2851) = true.
Proof.
  apply (pointInPolygon_rectangle (lat AIRPORT_DEPOT) (lng AIRPORT_DEPOT)
           23.5926 23.5936 58.2839 58.2851).
  - lra.
  - lra.
  - cbn. repeat split; lra.
Defined.

(** X21 at the ring of the OQ station. *)
Lemma centroid_witness :
  let ring := rectangleRing 23.6000 23.6010 58.5300 58.5320 in
  23.6000 <= lat (centroidLatLng ring) <= 23.6010
  /\ 58.5300 <= lng (centroidLatLng ring) <= 58.5320.
Proof.
  cbv zeta.
  apply (centroid_in_bounding_box 23.6000 23.6010 58.5300 58.5320).
  repeat (apply Forall_cons || apply Forall_nil); cbn; repeat split; lra.
Defined.

(** X22 at [GEOFENCE_ZONES]. *)
Lemma destinations_witness :
  Forall properZone GEOFENCE_ZONES
  /\ Forall2
       (fun z d =>
          opt_id d = zone_id z /\ opt_name d = zone_name z
          /\ zone_type z <> danger
          /\ isInZone (opt_lat d) (opt_lng d) z = true)
       (filter isDestinationZone GEOFENCE_ZONES)
       (destinationsOf GEOFENCE_ZONES).
Proof.
  assert (H : Forall properZone GEOFENCE_ZONES).
  { unfold GEOFENCE_ZONES.
    repeat (apply Forall_cons || apply Forall_nil).
    - apply (proper_rectangle _ 23.5926 23.5936 58.2839 58.2851);
        [ reflexivity | reflexivity | lra | lra ].
    - eapply proper_circle; [ reflexivity | reflexivity | reflexivity | lra ].
    - eapply proper_circle; [ reflexivity | reflexivity | reflexivity | lra ].
    - eapply proper_circle; [ reflexivity | reflexivity | reflexivity | lra ].
    - apply (proper_rectangle _ 23.6000 23.6010 58.5300 58.5320);
        [ reflexivity | reflexivity | lra | lra ].
    - eapply proper_circle; [ reflexivity | reflexivity | reflexivity | lra ].
    - apply (proper_rectangle _ 23.6235 23.6255 58.5635 58.5680);
        [ reflexivity | reflexivity | lra | lra ].
    - eapply proper_circle; [ reflexivity | reflexivity | reflexivity | lra ]. }
  split; [ exact H | ].
  exact (destination_lies_in_its_zone GEOFENCE_ZONES H).
Defined.


(** X27 at the seed fleet. *)
Lemma client_figures_witness :
  fleetInvariant levelWithinCapacity seedFleet
  /\ 0 <= totalDelivered (trucks seedFleet).
Proof.
  assert (H : fleetInvariant levelWithinCapacity seedFleet).
  { unfold fleetInvariant, levelWithinCapacity.
    repeat (apply Forall_cons || apply Forall_nil); cbn; split; lra. }
  split; [ exact H | ].
  exact (proj1 (client_figures seedFleet H)).
Defined.
